(** * nomen: NPC and place-name generator

    A shallow embedding of the generation engine of
    [name/npc_place_name_generator_1.py] (the command-line version) and of the
    copy embedded in [name/npc_generator_gui.py], with the properties of the
    specification stated and settled over it.

    Python [str] is modelled as [string], a text being the bytes of its
    UTF-8 encoding: an ASCII character is one byte, any other character two
    to four bytes. Equality, concatenation and the replacement of ASCII
    patterns are the same on the bytes as on the characters; where the code
    takes one character ([out[0]]) the model takes the bytes of one
    character, and what [str.upper] gives for a character comes from a case
    table the model takes as a parameter and runs with Python's own table.
    Python [int] is [Z], Python lists are [list], exceptions a sum type, and
    the process-wide [random] module an explicit random-source state threaded
    through every draw. *)

From Stdlib Require Import ZArith Ascii String List Permutation Lia Bool.
From stdpp Require Import base list strings gmap.

Local Open Scope Z_scope.

(** ** Python strings *)

Module PyStr.

(** [s * n] for a string [s] and a natural [n]. *)
Fixpoint repeat_str (s : string) (n : nat) : string :=
  match n with
  | O => EmptyString
  | S k => s +:+ repeat_str s k
  end.

(** The scan of [str.replace]: [skip] counts the characters of the matched
    occurrence still to be stepped over, so that occurrences are found from
    left to right and never overlap. *)
Fixpoint replace_from (old new : string) (skip : nat) (s : string) : string :=
  match s with
  | EmptyString => EmptyString
  | String c s' =>
      match skip with
      | S k => replace_from old new k s'
      | O =>
          if String.prefix old s
          then new +:+ replace_from old new (String.length old - 1) s'
          else String c (replace_from old new 0 s')
      end
  end.

(** [c] is an ASCII character: one byte, below 128. *)
Definition is_ascii (c : ascii) : bool := (nat_of_ascii c <? 128)%nat.

(** The number of bytes of the character whose encoding starts with the
    byte [c]. *)
Definition char_width (c : ascii) : nat :=
  let n := nat_of_ascii c in
  if (n <? 192)%nat then 1%nat
  else if (n <? 224)%nat then 2%nat
  else if (n <? 240)%nat then 3%nat
  else 4%nat.

(** The first [n] bytes of a text, and the text without them. *)
Fixpoint take_bytes (n : nat) (s : string) : string :=
  match n, s with
  | S k, String c s' => String c (take_bytes k s')
  | _, _ => EmptyString
  end.

Fixpoint drop_bytes (n : nat) (s : string) : string :=
  match n, s with
  | S k, String _ s' => drop_bytes k s'
  | _, _ => s
  end.

(** With an empty [old], Python puts [new] before every character and at
    the end; [skip] counts the bytes of the current character still to be
    copied. *)
Fixpoint interleave_from (new : string) (skip : nat) (s : string) : string :=
  match s with
  | EmptyString => new
  | String c s' =>
      match skip with
      | S k => String c (interleave_from new k s')
      | O => new +:+ String c (interleave_from new (char_width c - 1) s')
      end
  end.

Definition interleave (new s : string) : string := interleave_from new 0 s.

(** [s.replace(old, new)] *)
Definition replace (old new s : string) : string :=
  match old with
  | EmptyString => interleave new s
  | String _ _ => replace_from old new 0 s
  end.

(** The capital of an ASCII character, which is what [c.upper()] gives
    for it: the lowercase letters move to their capitals, every other ASCII
    character is left as it is. *)
Definition upper_char (c : ascii) : ascii :=
  let n := nat_of_ascii c in
  if ((97 <=? n) && (n <=? 122))%nat then ascii_of_nat (n - 32) else c.

(** [list(s)] for a text [s] of ASCII characters: its one-character
    strings. *)
Fixpoint chars (s : string) : list string :=
  match s with
  | EmptyString => []
  | String c s' => String c EmptyString :: chars s'
  end.

(** [seq[0]], as a one-character string; the digraphs it is applied to are
    ASCII and never empty. *)
Definition first_char (s : string) : string :=
  match s with
  | EmptyString => EmptyString
  | String c _ => String c EmptyString
  end.

(** ["".join(parts)] *)
Definition join (parts : list string) : string :=
  fold_right String.append EmptyString parts.

End PyStr.

(** ** The case table *)

(** [ch.upper()] for a one-character string [ch] is read by Python from the
    case tables of Unicode, which are no part of the program. The model
    takes it as a parameter, [str_upper], with what the engine relies on: on
    an ASCII character it is the capital of [PyStr.upper_char], and it never
    gives the empty string. It may give several characters. *)
Class CaseTable : Type := {
  str_upper : string -> string;
  upper_ascii :
    forall c : ascii,
      PyStr.is_ascii c = true ->
      str_upper (String c EmptyString) = String (PyStr.upper_char c) EmptyString;
  upper_nonempty :
    forall ch : string, ch <> EmptyString -> str_upper ch <> EmptyString
}.

(** Python's table outside ASCII, as CPython 3.11 has it (Unicode 14.0):
    every character whose [upper()] is not the character itself, with what
    [upper()] gives for it, in the order of the code points. The capital
    of [ß] is ["SS"], that of [ŉ] is [ʼ] followed by [N]; a character
    that is not listed is its own capital. *)
Definition capitals : list (string * string) :=
  [("µ", "Μ"); ("ß", "SS"); ("à", "À"); ("á", "Á"); ("â", "Â"); ("ã", "Ã");
   ("ä", "Ä"); ("å", "Å"); ("æ", "Æ"); ("ç", "Ç"); ("è", "È"); ("é", "É");
   ("ê", "Ê"); ("ë", "Ë"); ("ì", "Ì"); ("í", "Í"); ("î", "Î"); ("ï", "Ï");
   ("ð", "Ð"); ("ñ", "Ñ"); ("ò", "Ò"); ("ó", "Ó"); ("ô", "Ô"); ("õ", "Õ");
   ("ö", "Ö"); ("ø", "Ø"); ("ù", "Ù"); ("ú", "Ú"); ("û", "Û"); ("ü", "Ü");
   ("ý", "Ý"); ("þ", "Þ"); ("ÿ", "Ÿ"); ("ā", "Ā"); ("ă", "Ă"); ("ą", "Ą");
   ("ć", "Ć"); ("ĉ", "Ĉ"); ("ċ", "Ċ"); ("č", "Č"); ("ď", "Ď"); ("đ", "Đ");
   ("ē", "Ē"); ("ĕ", "Ĕ"); ("ė", "Ė"); ("ę", "Ę"); ("ě", "Ě"); ("ĝ", "Ĝ");
   ("ğ", "Ğ"); ("ġ", "Ġ"); ("ģ", "Ģ"); ("ĥ", "Ĥ"); ("ħ", "Ħ"); ("ĩ", "Ĩ");
   ("ī", "Ī"); ("ĭ", "Ĭ"); ("į", "Į"); ("ı", "I"); ("ĳ", "Ĳ"); ("ĵ", "Ĵ");
   ("ķ", "Ķ"); ("ĺ", "Ĺ"); ("ļ", "Ļ"); ("ľ", "Ľ"); ("ŀ", "Ŀ"); ("ł", "Ł");
   ("ń", "Ń"); ("ņ", "Ņ"); ("ň", "Ň"); ("ŉ", "ʼN"); ("ŋ", "Ŋ"); ("ō", "Ō");
   ("ŏ", "Ŏ"); ("ő", "Ő"); ("œ", "Œ"); ("ŕ", "Ŕ"); ("ŗ", "Ŗ"); ("ř", "Ř");
   ("ś", "Ś"); ("ŝ", "Ŝ"); ("ş", "Ş"); ("š", "Š"); ("ţ", "Ţ"); ("ť", "Ť");
   ("ŧ", "Ŧ"); ("ũ", "Ũ"); ("ū", "Ū"); ("ŭ", "Ŭ"); ("ů", "Ů"); ("ű", "Ű");
   ("ų", "Ų"); ("ŵ", "Ŵ"); ("ŷ", "Ŷ"); ("ź", "Ź"); ("ż", "Ż"); ("ž", "Ž");
   ("ſ", "S"); ("ƀ", "Ƀ"); ("ƃ", "Ƃ"); ("ƅ", "Ƅ"); ("ƈ", "Ƈ"); ("ƌ", "Ƌ");
   ("ƒ", "Ƒ"); ("ƕ", "Ƕ"); ("ƙ", "Ƙ"); ("ƚ", "Ƚ"); ("ƞ", "Ƞ"); ("ơ", "Ơ");
   ("ƣ", "Ƣ"); ("ƥ", "Ƥ"); ("ƨ", "Ƨ"); ("ƭ", "Ƭ"); ("ư", "Ư"); ("ƴ", "Ƴ");
   ("ƶ", "Ƶ"); ("ƹ", "Ƹ"); ("ƽ", "Ƽ"); ("ƿ", "Ƿ"); ("ǅ", "Ǆ"); ("ǆ", "Ǆ");
   ("ǈ", "Ǉ"); ("ǉ", "Ǉ"); ("ǋ", "Ǌ"); ("ǌ", "Ǌ"); ("ǎ", "Ǎ"); ("ǐ", "Ǐ");
   ("ǒ", "Ǒ"); ("ǔ", "Ǔ"); ("ǖ", "Ǖ"); ("ǘ", "Ǘ"); ("ǚ", "Ǚ"); ("ǜ", "Ǜ");
   ("ǝ", "Ǝ"); ("ǟ", "Ǟ"); ("ǡ", "Ǡ"); ("ǣ", "Ǣ"); ("ǥ", "Ǥ"); ("ǧ", "Ǧ");
   ("ǩ", "Ǩ"); ("ǫ", "Ǫ"); ("ǭ", "Ǭ"); ("ǯ", "Ǯ"); ("ǰ", "J̌"); ("ǲ", "Ǳ");
   ("ǳ", "Ǳ"); ("ǵ", "Ǵ"); ("ǹ", "Ǹ"); ("ǻ", "Ǻ"); ("ǽ", "Ǽ"); ("ǿ", "Ǿ");
   ("ȁ", "Ȁ"); ("ȃ", "Ȃ"); ("ȅ", "Ȅ"); ("ȇ", "Ȇ"); ("ȉ", "Ȉ"); ("ȋ", "Ȋ");
   ("ȍ", "Ȍ"); ("ȏ", "Ȏ"); ("ȑ", "Ȑ"); ("ȓ", "Ȓ"); ("ȕ", "Ȕ"); ("ȗ", "Ȗ");
   ("ș", "Ș"); ("ț", "Ț"); ("ȝ", "Ȝ"); ("ȟ", "Ȟ"); ("ȣ", "Ȣ"); ("ȥ", "Ȥ");
   ("ȧ", "Ȧ"); ("ȩ", "Ȩ"); ("ȫ", "Ȫ"); ("ȭ", "Ȭ"); ("ȯ", "Ȯ"); ("ȱ", "Ȱ");
   ("ȳ", "Ȳ"); ("ȼ", "Ȼ"); ("ȿ", "Ȿ"); ("ɀ", "Ɀ"); ("ɂ", "Ɂ"); ("ɇ", "Ɇ");
   ("ɉ", "Ɉ"); ("ɋ", "Ɋ"); ("ɍ", "Ɍ"); ("ɏ", "Ɏ"); ("ɐ", "Ɐ"); ("ɑ", "Ɑ");
   ("ɒ", "Ɒ"); ("ɓ", "Ɓ"); ("ɔ", "Ɔ"); ("ɖ", "Ɖ"); ("ɗ", "Ɗ"); ("ə", "Ə");
   ("ɛ", "Ɛ"); ("ɜ", "Ɜ"); ("ɠ", "Ɠ"); ("ɡ", "Ɡ"); ("ɣ", "Ɣ"); ("ɥ", "Ɥ");
   ("ɦ", "Ɦ"); ("ɨ", "Ɨ"); ("ɩ", "Ɩ"); ("ɪ", "Ɪ"); ("ɫ", "Ɫ"); ("ɬ", "Ɬ");
   ("ɯ", "Ɯ"); ("ɱ", "Ɱ"); ("ɲ", "Ɲ"); ("ɵ", "Ɵ"); ("ɽ", "Ɽ"); ("ʀ", "Ʀ");
   ("ʂ", "Ʂ"); ("ʃ", "Ʃ"); ("ʇ", "Ʇ"); ("ʈ", "Ʈ"); ("ʉ", "Ʉ"); ("ʊ", "Ʊ");
   ("ʋ", "Ʋ"); ("ʌ", "Ʌ"); ("ʒ", "Ʒ"); ("ʝ", "Ʝ"); ("ʞ", "Ʞ"); ("ͅ", "Ι");
   ("ͱ", "Ͱ"); ("ͳ", "Ͳ"); ("ͷ", "Ͷ"); ("ͻ", "Ͻ"); ("ͼ", "Ͼ"); ("ͽ", "Ͽ");
   ("ΐ", "Ϊ́"); ("ά", "Ά"); ("έ", "Έ"); ("ή", "Ή"); ("ί", "Ί"); ("ΰ", "Ϋ́");
   ("α", "Α"); ("β", "Β"); ("γ", "Γ"); ("δ", "Δ"); ("ε", "Ε"); ("ζ", "Ζ");
   ("η", "Η"); ("θ", "Θ"); ("ι", "Ι"); ("κ", "Κ"); ("λ", "Λ"); ("μ", "Μ");
   ("ν", "Ν"); ("ξ", "Ξ"); ("ο", "Ο"); ("π", "Π"); ("ρ", "Ρ"); ("ς", "Σ");
   ("σ", "Σ"); ("τ", "Τ"); ("υ", "Υ"); ("φ", "Φ"); ("χ", "Χ"); ("ψ", "Ψ");
   ("ω", "Ω"); ("ϊ", "Ϊ"); ("ϋ", "Ϋ"); ("ό", "Ό"); ("ύ", "Ύ"); ("ώ", "Ώ");
   ("ϐ", "Β"); ("ϑ", "Θ"); ("ϕ", "Φ"); ("ϖ", "Π"); ("ϗ", "Ϗ"); ("ϙ", "Ϙ");
   ("ϛ", "Ϛ"); ("ϝ", "Ϝ"); ("ϟ", "Ϟ"); ("ϡ", "Ϡ"); ("ϣ", "Ϣ"); ("ϥ", "Ϥ");
   ("ϧ", "Ϧ"); ("ϩ", "Ϩ"); ("ϫ", "Ϫ"); ("ϭ", "Ϭ"); ("ϯ", "Ϯ"); ("ϰ", "Κ");
   ("ϱ", "Ρ"); ("ϲ", "Ϲ"); ("ϳ", "Ϳ"); ("ϵ", "Ε"); ("ϸ", "Ϸ"); ("ϻ", "Ϻ");
   ("а", "А"); ("б", "Б"); ("в", "В"); ("г", "Г"); ("д", "Д"); ("е", "Е");
   ("ж", "Ж"); ("з", "З"); ("и", "И"); ("й", "Й"); ("к", "К"); ("л", "Л");
   ("м", "М"); ("н", "Н"); ("о", "О"); ("п", "П"); ("р", "Р"); ("с", "С");
   ("т", "Т"); ("у", "У"); ("ф", "Ф"); ("х", "Х"); ("ц", "Ц"); ("ч", "Ч");
   ("ш", "Ш"); ("щ", "Щ"); ("ъ", "Ъ"); ("ы", "Ы"); ("ь", "Ь"); ("э", "Э");
   ("ю", "Ю"); ("я", "Я"); ("ѐ", "Ѐ"); ("ё", "Ё"); ("ђ", "Ђ"); ("ѓ", "Ѓ");
   ("є", "Є"); ("ѕ", "Ѕ"); ("і", "І"); ("ї", "Ї"); ("ј", "Ј"); ("љ", "Љ");
   ("њ", "Њ"); ("ћ", "Ћ"); ("ќ", "Ќ"); ("ѝ", "Ѝ"); ("ў", "Ў"); ("џ", "Џ");
   ("ѡ", "Ѡ"); ("ѣ", "Ѣ"); ("ѥ", "Ѥ"); ("ѧ", "Ѧ"); ("ѩ", "Ѩ"); ("ѫ", "Ѫ");
   ("ѭ", "Ѭ"); ("ѯ", "Ѯ"); ("ѱ", "Ѱ"); ("ѳ", "Ѳ"); ("ѵ", "Ѵ"); ("ѷ", "Ѷ");
   ("ѹ", "Ѹ"); ("ѻ", "Ѻ"); ("ѽ", "Ѽ"); ("ѿ", "Ѿ"); ("ҁ", "Ҁ"); ("ҋ", "Ҋ");
   ("ҍ", "Ҍ"); ("ҏ", "Ҏ"); ("ґ", "Ґ"); ("ғ", "Ғ"); ("ҕ", "Ҕ"); ("җ", "Җ");
   ("ҙ", "Ҙ"); ("қ", "Қ"); ("ҝ", "Ҝ"); ("ҟ", "Ҟ"); ("ҡ", "Ҡ"); ("ң", "Ң");
   ("ҥ", "Ҥ"); ("ҧ", "Ҧ"); ("ҩ", "Ҩ"); ("ҫ", "Ҫ"); ("ҭ", "Ҭ"); ("ү", "Ү");
   ("ұ", "Ұ"); ("ҳ", "Ҳ"); ("ҵ", "Ҵ"); ("ҷ", "Ҷ"); ("ҹ", "Ҹ"); ("һ", "Һ");
   ("ҽ", "Ҽ"); ("ҿ", "Ҿ"); ("ӂ", "Ӂ"); ("ӄ", "Ӄ"); ("ӆ", "Ӆ"); ("ӈ", "Ӈ");
   ("ӊ", "Ӊ"); ("ӌ", "Ӌ"); ("ӎ", "Ӎ"); ("ӏ", "Ӏ"); ("ӑ", "Ӑ"); ("ӓ", "Ӓ");
   ("ӕ", "Ӕ"); ("ӗ", "Ӗ"); ("ә", "Ә"); ("ӛ", "Ӛ"); ("ӝ", "Ӝ"); ("ӟ", "Ӟ");
   ("ӡ", "Ӡ"); ("ӣ", "Ӣ"); ("ӥ", "Ӥ"); ("ӧ", "Ӧ"); ("ө", "Ө"); ("ӫ", "Ӫ");
   ("ӭ", "Ӭ"); ("ӯ", "Ӯ"); ("ӱ", "Ӱ"); ("ӳ", "Ӳ"); ("ӵ", "Ӵ"); ("ӷ", "Ӷ");
   ("ӹ", "Ӹ"); ("ӻ", "Ӻ"); ("ӽ", "Ӽ"); ("ӿ", "Ӿ"); ("ԁ", "Ԁ"); ("ԃ", "Ԃ");
   ("ԅ", "Ԅ"); ("ԇ", "Ԇ"); ("ԉ", "Ԉ"); ("ԋ", "Ԋ"); ("ԍ", "Ԍ"); ("ԏ", "Ԏ");
   ("ԑ", "Ԑ"); ("ԓ", "Ԓ"); ("ԕ", "Ԕ"); ("ԗ", "Ԗ"); ("ԙ", "Ԙ"); ("ԛ", "Ԛ");
   ("ԝ", "Ԝ"); ("ԟ", "Ԟ"); ("ԡ", "Ԡ"); ("ԣ", "Ԣ"); ("ԥ", "Ԥ"); ("ԧ", "Ԧ");
   ("ԩ", "Ԩ"); ("ԫ", "Ԫ"); ("ԭ", "Ԭ"); ("ԯ", "Ԯ"); ("ա", "Ա"); ("բ", "Բ");
   ("գ", "Գ"); ("դ", "Դ"); ("ե", "Ե"); ("զ", "Զ"); ("է", "Է"); ("ը", "Ը");
   ("թ", "Թ"); ("ժ", "Ժ"); ("ի", "Ի"); ("լ", "Լ"); ("խ", "Խ"); ("ծ", "Ծ");
   ("կ", "Կ"); ("հ", "Հ"); ("ձ", "Ձ"); ("ղ", "Ղ"); ("ճ", "Ճ"); ("մ", "Մ");
   ("յ", "Յ"); ("ն", "Ն"); ("շ", "Շ"); ("ո", "Ո"); ("չ", "Չ"); ("պ", "Պ");
   ("ջ", "Ջ"); ("ռ", "Ռ"); ("ս", "Ս"); ("վ", "Վ"); ("տ", "Տ"); ("ր", "Ր");
   ("ց", "Ց"); ("ւ", "Ւ"); ("փ", "Փ"); ("ք", "Ք"); ("օ", "Օ"); ("ֆ", "Ֆ");
   ("և", "ԵՒ"); ("ა", "Ა"); ("ბ", "Ბ"); ("გ", "Გ"); ("დ", "Დ"); ("ე", "Ე");
   ("ვ", "Ვ"); ("ზ", "Ზ"); ("თ", "Თ"); ("ი", "Ი"); ("კ", "Კ"); ("ლ", "Ლ");
   ("მ", "Მ"); ("ნ", "Ნ"); ("ო", "Ო"); ("პ", "Პ"); ("ჟ", "Ჟ"); ("რ", "Რ");
   ("ს", "Ს"); ("ტ", "Ტ"); ("უ", "Უ"); ("ფ", "Ფ"); ("ქ", "Ქ"); ("ღ", "Ღ");
   ("ყ", "Ყ"); ("შ", "Შ"); ("ჩ", "Ჩ"); ("ც", "Ც"); ("ძ", "Ძ"); ("წ", "Წ");
   ("ჭ", "Ჭ"); ("ხ", "Ხ"); ("ჯ", "Ჯ"); ("ჰ", "Ჰ"); ("ჱ", "Ჱ"); ("ჲ", "Ჲ");
   ("ჳ", "Ჳ"); ("ჴ", "Ჴ"); ("ჵ", "Ჵ"); ("ჶ", "Ჶ"); ("ჷ", "Ჷ"); ("ჸ", "Ჸ");
   ("ჹ", "Ჹ"); ("ჺ", "Ჺ"); ("ჽ", "Ჽ"); ("ჾ", "Ჾ"); ("ჿ", "Ჿ"); ("ᏸ", "Ᏸ");
   ("ᏹ", "Ᏹ"); ("ᏺ", "Ᏺ"); ("ᏻ", "Ᏻ"); ("ᏼ", "Ᏼ"); ("ᏽ", "Ᏽ"); ("ᲀ", "В");
   ("ᲁ", "Д"); ("ᲂ", "О"); ("ᲃ", "С"); ("ᲄ", "Т"); ("ᲅ", "Т"); ("ᲆ", "Ъ");
   ("ᲇ", "Ѣ"); ("ᲈ", "Ꙋ"); ("ᵹ", "Ᵹ"); ("ᵽ", "Ᵽ"); ("ᶎ", "Ᶎ"); ("ḁ", "Ḁ");
   ("ḃ", "Ḃ"); ("ḅ", "Ḅ"); ("ḇ", "Ḇ"); ("ḉ", "Ḉ"); ("ḋ", "Ḋ"); ("ḍ", "Ḍ");
   ("ḏ", "Ḏ"); ("ḑ", "Ḑ"); ("ḓ", "Ḓ"); ("ḕ", "Ḕ"); ("ḗ", "Ḗ"); ("ḙ", "Ḙ");
   ("ḛ", "Ḛ"); ("ḝ", "Ḝ"); ("ḟ", "Ḟ"); ("ḡ", "Ḡ"); ("ḣ", "Ḣ"); ("ḥ", "Ḥ");
   ("ḧ", "Ḧ"); ("ḩ", "Ḩ"); ("ḫ", "Ḫ"); ("ḭ", "Ḭ"); ("ḯ", "Ḯ"); ("ḱ", "Ḱ");
   ("ḳ", "Ḳ"); ("ḵ", "Ḵ"); ("ḷ", "Ḷ"); ("ḹ", "Ḹ"); ("ḻ", "Ḻ"); ("ḽ", "Ḽ");
   ("ḿ", "Ḿ"); ("ṁ", "Ṁ"); ("ṃ", "Ṃ"); ("ṅ", "Ṅ"); ("ṇ", "Ṇ"); ("ṉ", "Ṉ");
   ("ṋ", "Ṋ"); ("ṍ", "Ṍ"); ("ṏ", "Ṏ"); ("ṑ", "Ṑ"); ("ṓ", "Ṓ"); ("ṕ", "Ṕ");
   ("ṗ", "Ṗ"); ("ṙ", "Ṙ"); ("ṛ", "Ṛ"); ("ṝ", "Ṝ"); ("ṟ", "Ṟ"); ("ṡ", "Ṡ");
   ("ṣ", "Ṣ"); ("ṥ", "Ṥ"); ("ṧ", "Ṧ"); ("ṩ", "Ṩ"); ("ṫ", "Ṫ"); ("ṭ", "Ṭ");
   ("ṯ", "Ṯ"); ("ṱ", "Ṱ"); ("ṳ", "Ṳ"); ("ṵ", "Ṵ"); ("ṷ", "Ṷ"); ("ṹ", "Ṹ");
   ("ṻ", "Ṻ"); ("ṽ", "Ṽ"); ("ṿ", "Ṿ"); ("ẁ", "Ẁ"); ("ẃ", "Ẃ"); ("ẅ", "Ẅ");
   ("ẇ", "Ẇ"); ("ẉ", "Ẉ"); ("ẋ", "Ẋ"); ("ẍ", "Ẍ"); ("ẏ", "Ẏ"); ("ẑ", "Ẑ");
   ("ẓ", "Ẓ"); ("ẕ", "Ẕ"); ("ẖ", "H̱"); ("ẗ", "T̈"); ("ẘ", "W̊"); ("ẙ", "Y̊");
   ("ẚ", "Aʾ"); ("ẛ", "Ṡ"); ("ạ", "Ạ"); ("ả", "Ả"); ("ấ", "Ấ"); ("ầ", "Ầ");
   ("ẩ", "Ẩ"); ("ẫ", "Ẫ"); ("ậ", "Ậ"); ("ắ", "Ắ"); ("ằ", "Ằ"); ("ẳ", "Ẳ");
   ("ẵ", "Ẵ"); ("ặ", "Ặ"); ("ẹ", "Ẹ"); ("ẻ", "Ẻ"); ("ẽ", "Ẽ"); ("ế", "Ế");
   ("ề", "Ề"); ("ể", "Ể"); ("ễ", "Ễ"); ("ệ", "Ệ"); ("ỉ", "Ỉ"); ("ị", "Ị");
   ("ọ", "Ọ"); ("ỏ", "Ỏ"); ("ố", "Ố"); ("ồ", "Ồ"); ("ổ", "Ổ"); ("ỗ", "Ỗ");
   ("ộ", "Ộ"); ("ớ", "Ớ"); ("ờ", "Ờ"); ("ở", "Ở"); ("ỡ", "Ỡ"); ("ợ", "Ợ");
   ("ụ", "Ụ"); ("ủ", "Ủ"); ("ứ", "Ứ"); ("ừ", "Ừ"); ("ử", "Ử"); ("ữ", "Ữ");
   ("ự", "Ự"); ("ỳ", "Ỳ"); ("ỵ", "Ỵ"); ("ỷ", "Ỷ"); ("ỹ", "Ỹ"); ("ỻ", "Ỻ");
   ("ỽ", "Ỽ"); ("ỿ", "Ỿ"); ("ἀ", "Ἀ"); ("ἁ", "Ἁ"); ("ἂ", "Ἂ"); ("ἃ", "Ἃ");
   ("ἄ", "Ἄ"); ("ἅ", "Ἅ"); ("ἆ", "Ἆ"); ("ἇ", "Ἇ"); ("ἐ", "Ἐ"); ("ἑ", "Ἑ");
   ("ἒ", "Ἒ"); ("ἓ", "Ἓ"); ("ἔ", "Ἔ"); ("ἕ", "Ἕ"); ("ἠ", "Ἠ"); ("ἡ", "Ἡ");
   ("ἢ", "Ἢ"); ("ἣ", "Ἣ"); ("ἤ", "Ἤ"); ("ἥ", "Ἥ"); ("ἦ", "Ἦ"); ("ἧ", "Ἧ");
   ("ἰ", "Ἰ"); ("ἱ", "Ἱ"); ("ἲ", "Ἲ"); ("ἳ", "Ἳ"); ("ἴ", "Ἴ"); ("ἵ", "Ἵ");
   ("ἶ", "Ἶ"); ("ἷ", "Ἷ"); ("ὀ", "Ὀ"); ("ὁ", "Ὁ"); ("ὂ", "Ὂ"); ("ὃ", "Ὃ");
   ("ὄ", "Ὄ"); ("ὅ", "Ὅ"); ("ὐ", "Υ̓"); ("ὑ", "Ὑ"); ("ὒ", "Υ̓̀"); ("ὓ", "Ὓ");
   ("ὔ", "Υ̓́"); ("ὕ", "Ὕ"); ("ὖ", "Υ̓͂"); ("ὗ", "Ὗ"); ("ὠ", "Ὠ"); ("ὡ", "Ὡ");
   ("ὢ", "Ὢ"); ("ὣ", "Ὣ"); ("ὤ", "Ὤ"); ("ὥ", "Ὥ"); ("ὦ", "Ὦ"); ("ὧ", "Ὧ");
   ("ὰ", "Ὰ"); ("ά", "Ά"); ("ὲ", "Ὲ"); ("έ", "Έ"); ("ὴ", "Ὴ"); ("ή", "Ή");
   ("ὶ", "Ὶ"); ("ί", "Ί"); ("ὸ", "Ὸ"); ("ό", "Ό"); ("ὺ", "Ὺ"); ("ύ", "Ύ");
   ("ὼ", "Ὼ"); ("ώ", "Ώ"); ("ᾀ", "ἈΙ"); ("ᾁ", "ἉΙ"); ("ᾂ", "ἊΙ"); ("ᾃ", "ἋΙ");
   ("ᾄ", "ἌΙ"); ("ᾅ", "ἍΙ"); ("ᾆ", "ἎΙ"); ("ᾇ", "ἏΙ"); ("ᾈ", "ἈΙ"); ("ᾉ", "ἉΙ");
   ("ᾊ", "ἊΙ"); ("ᾋ", "ἋΙ"); ("ᾌ", "ἌΙ"); ("ᾍ", "ἍΙ"); ("ᾎ", "ἎΙ"); ("ᾏ", "ἏΙ");
   ("ᾐ", "ἨΙ"); ("ᾑ", "ἩΙ"); ("ᾒ", "ἪΙ"); ("ᾓ", "ἫΙ"); ("ᾔ", "ἬΙ"); ("ᾕ", "ἭΙ");
   ("ᾖ", "ἮΙ"); ("ᾗ", "ἯΙ"); ("ᾘ", "ἨΙ"); ("ᾙ", "ἩΙ"); ("ᾚ", "ἪΙ"); ("ᾛ", "ἫΙ");
   ("ᾜ", "ἬΙ"); ("ᾝ", "ἭΙ"); ("ᾞ", "ἮΙ"); ("ᾟ", "ἯΙ"); ("ᾠ", "ὨΙ"); ("ᾡ", "ὩΙ");
   ("ᾢ", "ὪΙ"); ("ᾣ", "ὫΙ"); ("ᾤ", "ὬΙ"); ("ᾥ", "ὭΙ"); ("ᾦ", "ὮΙ"); ("ᾧ", "ὯΙ");
   ("ᾨ", "ὨΙ"); ("ᾩ", "ὩΙ"); ("ᾪ", "ὪΙ"); ("ᾫ", "ὫΙ"); ("ᾬ", "ὬΙ"); ("ᾭ", "ὭΙ");
   ("ᾮ", "ὮΙ"); ("ᾯ", "ὯΙ"); ("ᾰ", "Ᾰ"); ("ᾱ", "Ᾱ"); ("ᾲ", "ᾺΙ"); ("ᾳ", "ΑΙ");
   ("ᾴ", "ΆΙ"); ("ᾶ", "Α͂"); ("ᾷ", "Α͂Ι"); ("ᾼ", "ΑΙ"); ("ι", "Ι"); ("ῂ", "ῊΙ");
   ("ῃ", "ΗΙ"); ("ῄ", "ΉΙ"); ("ῆ", "Η͂"); ("ῇ", "Η͂Ι"); ("ῌ", "ΗΙ"); ("ῐ", "Ῐ");
   ("ῑ", "Ῑ"); ("ῒ", "Ϊ̀"); ("ΐ", "Ϊ́"); ("ῖ", "Ι͂"); ("ῗ", "Ϊ͂"); ("ῠ", "Ῠ");
   ("ῡ", "Ῡ"); ("ῢ", "Ϋ̀"); ("ΰ", "Ϋ́"); ("ῤ", "Ρ̓"); ("ῥ", "Ῥ"); ("ῦ", "Υ͂");
   ("ῧ", "Ϋ͂"); ("ῲ", "ῺΙ"); ("ῳ", "ΩΙ"); ("ῴ", "ΏΙ"); ("ῶ", "Ω͂"); ("ῷ", "Ω͂Ι");
   ("ῼ", "ΩΙ"); ("ⅎ", "Ⅎ"); ("ⅰ", "Ⅰ"); ("ⅱ", "Ⅱ"); ("ⅲ", "Ⅲ"); ("ⅳ", "Ⅳ");
   ("ⅴ", "Ⅴ"); ("ⅵ", "Ⅵ"); ("ⅶ", "Ⅶ"); ("ⅷ", "Ⅷ"); ("ⅸ", "Ⅸ"); ("ⅹ", "Ⅹ");
   ("ⅺ", "Ⅺ"); ("ⅻ", "Ⅻ"); ("ⅼ", "Ⅼ"); ("ⅽ", "Ⅽ"); ("ⅾ", "Ⅾ"); ("ⅿ", "Ⅿ");
   ("ↄ", "Ↄ"); ("ⓐ", "Ⓐ"); ("ⓑ", "Ⓑ"); ("ⓒ", "Ⓒ"); ("ⓓ", "Ⓓ"); ("ⓔ", "Ⓔ");
   ("ⓕ", "Ⓕ"); ("ⓖ", "Ⓖ"); ("ⓗ", "Ⓗ"); ("ⓘ", "Ⓘ"); ("ⓙ", "Ⓙ"); ("ⓚ", "Ⓚ");
   ("ⓛ", "Ⓛ"); ("ⓜ", "Ⓜ"); ("ⓝ", "Ⓝ"); ("ⓞ", "Ⓞ"); ("ⓟ", "Ⓟ"); ("ⓠ", "Ⓠ");
   ("ⓡ", "Ⓡ"); ("ⓢ", "Ⓢ"); ("ⓣ", "Ⓣ"); ("ⓤ", "Ⓤ"); ("ⓥ", "Ⓥ"); ("ⓦ", "Ⓦ");
   ("ⓧ", "Ⓧ"); ("ⓨ", "Ⓨ"); ("ⓩ", "Ⓩ"); ("ⰰ", "Ⰰ"); ("ⰱ", "Ⰱ"); ("ⰲ", "Ⰲ");
   ("ⰳ", "Ⰳ"); ("ⰴ", "Ⰴ"); ("ⰵ", "Ⰵ"); ("ⰶ", "Ⰶ"); ("ⰷ", "Ⰷ"); ("ⰸ", "Ⰸ");
   ("ⰹ", "Ⰹ"); ("ⰺ", "Ⰺ"); ("ⰻ", "Ⰻ"); ("ⰼ", "Ⰼ"); ("ⰽ", "Ⰽ"); ("ⰾ", "Ⰾ");
   ("ⰿ", "Ⰿ"); ("ⱀ", "Ⱀ"); ("ⱁ", "Ⱁ"); ("ⱂ", "Ⱂ"); ("ⱃ", "Ⱃ"); ("ⱄ", "Ⱄ");
   ("ⱅ", "Ⱅ"); ("ⱆ", "Ⱆ"); ("ⱇ", "Ⱇ"); ("ⱈ", "Ⱈ"); ("ⱉ", "Ⱉ"); ("ⱊ", "Ⱊ");
   ("ⱋ", "Ⱋ"); ("ⱌ", "Ⱌ"); ("ⱍ", "Ⱍ"); ("ⱎ", "Ⱎ"); ("ⱏ", "Ⱏ"); ("ⱐ", "Ⱐ");
   ("ⱑ", "Ⱑ"); ("ⱒ", "Ⱒ"); ("ⱓ", "Ⱓ"); ("ⱔ", "Ⱔ"); ("ⱕ", "Ⱕ"); ("ⱖ", "Ⱖ");
   ("ⱗ", "Ⱗ"); ("ⱘ", "Ⱘ"); ("ⱙ", "Ⱙ"); ("ⱚ", "Ⱚ"); ("ⱛ", "Ⱛ"); ("ⱜ", "Ⱜ");
   ("ⱝ", "Ⱝ"); ("ⱞ", "Ⱞ"); ("ⱟ", "Ⱟ"); ("ⱡ", "Ⱡ"); ("ⱥ", "Ⱥ"); ("ⱦ", "Ⱦ");
   ("ⱨ", "Ⱨ"); ("ⱪ", "Ⱪ"); ("ⱬ", "Ⱬ"); ("ⱳ", "Ⱳ"); ("ⱶ", "Ⱶ"); ("ⲁ", "Ⲁ");
   ("ⲃ", "Ⲃ"); ("ⲅ", "Ⲅ"); ("ⲇ", "Ⲇ"); ("ⲉ", "Ⲉ"); ("ⲋ", "Ⲋ"); ("ⲍ", "Ⲍ");
   ("ⲏ", "Ⲏ"); ("ⲑ", "Ⲑ"); ("ⲓ", "Ⲓ"); ("ⲕ", "Ⲕ"); ("ⲗ", "Ⲗ"); ("ⲙ", "Ⲙ");
   ("ⲛ", "Ⲛ"); ("ⲝ", "Ⲝ"); ("ⲟ", "Ⲟ"); ("ⲡ", "Ⲡ"); ("ⲣ", "Ⲣ"); ("ⲥ", "Ⲥ");
   ("ⲧ", "Ⲧ"); ("ⲩ", "Ⲩ"); ("ⲫ", "Ⲫ"); ("ⲭ", "Ⲭ"); ("ⲯ", "Ⲯ"); ("ⲱ", "Ⲱ");
   ("ⲳ", "Ⲳ"); ("ⲵ", "Ⲵ"); ("ⲷ", "Ⲷ"); ("ⲹ", "Ⲹ"); ("ⲻ", "Ⲻ"); ("ⲽ", "Ⲽ");
   ("ⲿ", "Ⲿ"); ("ⳁ", "Ⳁ"); ("ⳃ", "Ⳃ"); ("ⳅ", "Ⳅ"); ("ⳇ", "Ⳇ"); ("ⳉ", "Ⳉ");
   ("ⳋ", "Ⳋ"); ("ⳍ", "Ⳍ"); ("ⳏ", "Ⳏ"); ("ⳑ", "Ⳑ"); ("ⳓ", "Ⳓ"); ("ⳕ", "Ⳕ");
   ("ⳗ", "Ⳗ"); ("ⳙ", "Ⳙ"); ("ⳛ", "Ⳛ"); ("ⳝ", "Ⳝ"); ("ⳟ", "Ⳟ"); ("ⳡ", "Ⳡ");
   ("ⳣ", "Ⳣ"); ("ⳬ", "Ⳬ"); ("ⳮ", "Ⳮ"); ("ⳳ", "Ⳳ"); ("ⴀ", "Ⴀ"); ("ⴁ", "Ⴁ");
   ("ⴂ", "Ⴂ"); ("ⴃ", "Ⴃ"); ("ⴄ", "Ⴄ"); ("ⴅ", "Ⴅ"); ("ⴆ", "Ⴆ"); ("ⴇ", "Ⴇ");
   ("ⴈ", "Ⴈ"); ("ⴉ", "Ⴉ"); ("ⴊ", "Ⴊ"); ("ⴋ", "Ⴋ"); ("ⴌ", "Ⴌ"); ("ⴍ", "Ⴍ");
   ("ⴎ", "Ⴎ"); ("ⴏ", "Ⴏ"); ("ⴐ", "Ⴐ"); ("ⴑ", "Ⴑ"); ("ⴒ", "Ⴒ"); ("ⴓ", "Ⴓ");
   ("ⴔ", "Ⴔ"); ("ⴕ", "Ⴕ"); ("ⴖ", "Ⴖ"); ("ⴗ", "Ⴗ"); ("ⴘ", "Ⴘ"); ("ⴙ", "Ⴙ");
   ("ⴚ", "Ⴚ"); ("ⴛ", "Ⴛ"); ("ⴜ", "Ⴜ"); ("ⴝ", "Ⴝ"); ("ⴞ", "Ⴞ"); ("ⴟ", "Ⴟ");
   ("ⴠ", "Ⴠ"); ("ⴡ", "Ⴡ"); ("ⴢ", "Ⴢ"); ("ⴣ", "Ⴣ"); ("ⴤ", "Ⴤ"); ("ⴥ", "Ⴥ");
   ("ⴧ", "Ⴧ"); ("ⴭ", "Ⴭ"); ("ꙁ", "Ꙁ"); ("ꙃ", "Ꙃ"); ("ꙅ", "Ꙅ"); ("ꙇ", "Ꙇ");
   ("ꙉ", "Ꙉ"); ("ꙋ", "Ꙋ"); ("ꙍ", "Ꙍ"); ("ꙏ", "Ꙏ"); ("ꙑ", "Ꙑ"); ("ꙓ", "Ꙓ");
   ("ꙕ", "Ꙕ"); ("ꙗ", "Ꙗ"); ("ꙙ", "Ꙙ"); ("ꙛ", "Ꙛ"); ("ꙝ", "Ꙝ"); ("ꙟ", "Ꙟ");
   ("ꙡ", "Ꙡ"); ("ꙣ", "Ꙣ"); ("ꙥ", "Ꙥ"); ("ꙧ", "Ꙧ"); ("ꙩ", "Ꙩ"); ("ꙫ", "Ꙫ");
   ("ꙭ", "Ꙭ"); ("ꚁ", "Ꚁ"); ("ꚃ", "Ꚃ"); ("ꚅ", "Ꚅ"); ("ꚇ", "Ꚇ"); ("ꚉ", "Ꚉ");
   ("ꚋ", "Ꚋ"); ("ꚍ", "Ꚍ"); ("ꚏ", "Ꚏ"); ("ꚑ", "Ꚑ"); ("ꚓ", "Ꚓ"); ("ꚕ", "Ꚕ");
   ("ꚗ", "Ꚗ"); ("ꚙ", "Ꚙ"); ("ꚛ", "Ꚛ"); ("ꜣ", "Ꜣ"); ("ꜥ", "Ꜥ"); ("ꜧ", "Ꜧ");
   ("ꜩ", "Ꜩ"); ("ꜫ", "Ꜫ"); ("ꜭ", "Ꜭ"); ("ꜯ", "Ꜯ"); ("ꜳ", "Ꜳ"); ("ꜵ", "Ꜵ");
   ("ꜷ", "Ꜷ"); ("ꜹ", "Ꜹ"); ("ꜻ", "Ꜻ"); ("ꜽ", "Ꜽ"); ("ꜿ", "Ꜿ"); ("ꝁ", "Ꝁ");
   ("ꝃ", "Ꝃ"); ("ꝅ", "Ꝅ"); ("ꝇ", "Ꝇ"); ("ꝉ", "Ꝉ"); ("ꝋ", "Ꝋ"); ("ꝍ", "Ꝍ");
   ("ꝏ", "Ꝏ"); ("ꝑ", "Ꝑ"); ("ꝓ", "Ꝓ"); ("ꝕ", "Ꝕ"); ("ꝗ", "Ꝗ"); ("ꝙ", "Ꝙ");
   ("ꝛ", "Ꝛ"); ("ꝝ", "Ꝝ"); ("ꝟ", "Ꝟ"); ("ꝡ", "Ꝡ"); ("ꝣ", "Ꝣ"); ("ꝥ", "Ꝥ");
   ("ꝧ", "Ꝧ"); ("ꝩ", "Ꝩ"); ("ꝫ", "Ꝫ"); ("ꝭ", "Ꝭ"); ("ꝯ", "Ꝯ"); ("ꝺ", "Ꝺ");
   ("ꝼ", "Ꝼ"); ("ꝿ", "Ꝿ"); ("ꞁ", "Ꞁ"); ("ꞃ", "Ꞃ"); ("ꞅ", "Ꞅ"); ("ꞇ", "Ꞇ");
   ("ꞌ", "Ꞌ"); ("ꞑ", "Ꞑ"); ("ꞓ", "Ꞓ"); ("ꞔ", "Ꞔ"); ("ꞗ", "Ꞗ"); ("ꞙ", "Ꞙ");
   ("ꞛ", "Ꞛ"); ("ꞝ", "Ꞝ"); ("ꞟ", "Ꞟ"); ("ꞡ", "Ꞡ"); ("ꞣ", "Ꞣ"); ("ꞥ", "Ꞥ");
   ("ꞧ", "Ꞧ"); ("ꞩ", "Ꞩ"); ("ꞵ", "Ꞵ"); ("ꞷ", "Ꞷ"); ("ꞹ", "Ꞹ"); ("ꞻ", "Ꞻ");
   ("ꞽ", "Ꞽ"); ("ꞿ", "Ꞿ"); ("ꟁ", "Ꟁ"); ("ꟃ", "Ꟃ"); ("ꟈ", "Ꟈ"); ("ꟊ", "Ꟊ");
   ("ꟑ", "Ꟑ"); ("ꟗ", "Ꟗ"); ("ꟙ", "Ꟙ"); ("ꟶ", "Ꟶ"); ("ꭓ", "Ꭓ"); ("ꭰ", "Ꭰ");
   ("ꭱ", "Ꭱ"); ("ꭲ", "Ꭲ"); ("ꭳ", "Ꭳ"); ("ꭴ", "Ꭴ"); ("ꭵ", "Ꭵ"); ("ꭶ", "Ꭶ");
   ("ꭷ", "Ꭷ"); ("ꭸ", "Ꭸ"); ("ꭹ", "Ꭹ"); ("ꭺ", "Ꭺ"); ("ꭻ", "Ꭻ"); ("ꭼ", "Ꭼ");
   ("ꭽ", "Ꭽ"); ("ꭾ", "Ꭾ"); ("ꭿ", "Ꭿ"); ("ꮀ", "Ꮀ"); ("ꮁ", "Ꮁ"); ("ꮂ", "Ꮂ");
   ("ꮃ", "Ꮃ"); ("ꮄ", "Ꮄ"); ("ꮅ", "Ꮅ"); ("ꮆ", "Ꮆ"); ("ꮇ", "Ꮇ"); ("ꮈ", "Ꮈ");
   ("ꮉ", "Ꮉ"); ("ꮊ", "Ꮊ"); ("ꮋ", "Ꮋ"); ("ꮌ", "Ꮌ"); ("ꮍ", "Ꮍ"); ("ꮎ", "Ꮎ");
   ("ꮏ", "Ꮏ"); ("ꮐ", "Ꮐ"); ("ꮑ", "Ꮑ"); ("ꮒ", "Ꮒ"); ("ꮓ", "Ꮓ"); ("ꮔ", "Ꮔ");
   ("ꮕ", "Ꮕ"); ("ꮖ", "Ꮖ"); ("ꮗ", "Ꮗ"); ("ꮘ", "Ꮘ"); ("ꮙ", "Ꮙ"); ("ꮚ", "Ꮚ");
   ("ꮛ", "Ꮛ"); ("ꮜ", "Ꮜ"); ("ꮝ", "Ꮝ"); ("ꮞ", "Ꮞ"); ("ꮟ", "Ꮟ"); ("ꮠ", "Ꮠ");
   ("ꮡ", "Ꮡ"); ("ꮢ", "Ꮢ"); ("ꮣ", "Ꮣ"); ("ꮤ", "Ꮤ"); ("ꮥ", "Ꮥ"); ("ꮦ", "Ꮦ");
   ("ꮧ", "Ꮧ"); ("ꮨ", "Ꮨ"); ("ꮩ", "Ꮩ"); ("ꮪ", "Ꮪ"); ("ꮫ", "Ꮫ"); ("ꮬ", "Ꮬ");
   ("ꮭ", "Ꮭ"); ("ꮮ", "Ꮮ"); ("ꮯ", "Ꮯ"); ("ꮰ", "Ꮰ"); ("ꮱ", "Ꮱ"); ("ꮲ", "Ꮲ");
   ("ꮳ", "Ꮳ"); ("ꮴ", "Ꮴ"); ("ꮵ", "Ꮵ"); ("ꮶ", "Ꮶ"); ("ꮷ", "Ꮷ"); ("ꮸ", "Ꮸ");
   ("ꮹ", "Ꮹ"); ("ꮺ", "Ꮺ"); ("ꮻ", "Ꮻ"); ("ꮼ", "Ꮼ"); ("ꮽ", "Ꮽ"); ("ꮾ", "Ꮾ");
   ("ꮿ", "Ꮿ"); ("ﬀ", "FF"); ("ﬁ", "FI"); ("ﬂ", "FL"); ("ﬃ", "FFI"); ("ﬄ", "FFL");
   ("ﬅ", "ST"); ("ﬆ", "ST"); ("ﬓ", "ՄՆ"); ("ﬔ", "ՄԵ"); ("ﬕ", "ՄԻ"); ("ﬖ", "ՎՆ");
   ("ﬗ", "ՄԽ"); ("ａ", "Ａ"); ("ｂ", "Ｂ"); ("ｃ", "Ｃ"); ("ｄ", "Ｄ"); ("ｅ", "Ｅ");
   ("ｆ", "Ｆ"); ("ｇ", "Ｇ"); ("ｈ", "Ｈ"); ("ｉ", "Ｉ"); ("ｊ", "Ｊ"); ("ｋ", "Ｋ");
   ("ｌ", "Ｌ"); ("ｍ", "Ｍ"); ("ｎ", "Ｎ"); ("ｏ", "Ｏ"); ("ｐ", "Ｐ"); ("ｑ", "Ｑ");
   ("ｒ", "Ｒ"); ("ｓ", "Ｓ"); ("ｔ", "Ｔ"); ("ｕ", "Ｕ"); ("ｖ", "Ｖ"); ("ｗ", "Ｗ");
   ("ｘ", "Ｘ"); ("ｙ", "Ｙ"); ("ｚ", "Ｚ"); ("𐐨", "𐐀"); ("𐐩", "𐐁"); ("𐐪", "𐐂");
   ("𐐫", "𐐃"); ("𐐬", "𐐄"); ("𐐭", "𐐅"); ("𐐮", "𐐆"); ("𐐯", "𐐇"); ("𐐰", "𐐈");
   ("𐐱", "𐐉"); ("𐐲", "𐐊"); ("𐐳", "𐐋"); ("𐐴", "𐐌"); ("𐐵", "𐐍"); ("𐐶", "𐐎");
   ("𐐷", "𐐏"); ("𐐸", "𐐐"); ("𐐹", "𐐑"); ("𐐺", "𐐒"); ("𐐻", "𐐓"); ("𐐼", "𐐔");
   ("𐐽", "𐐕"); ("𐐾", "𐐖"); ("𐐿", "𐐗"); ("𐑀", "𐐘"); ("𐑁", "𐐙"); ("𐑂", "𐐚");
   ("𐑃", "𐐛"); ("𐑄", "𐐜"); ("𐑅", "𐐝"); ("𐑆", "𐐞"); ("𐑇", "𐐟"); ("𐑈", "𐐠");
   ("𐑉", "𐐡"); ("𐑊", "𐐢"); ("𐑋", "𐐣"); ("𐑌", "𐐤"); ("𐑍", "𐐥"); ("𐑎", "𐐦");
   ("𐑏", "𐐧"); ("𐓘", "𐒰"); ("𐓙", "𐒱"); ("𐓚", "𐒲"); ("𐓛", "𐒳"); ("𐓜", "𐒴");
   ("𐓝", "𐒵"); ("𐓞", "𐒶"); ("𐓟", "𐒷"); ("𐓠", "𐒸"); ("𐓡", "𐒹"); ("𐓢", "𐒺");
   ("𐓣", "𐒻"); ("𐓤", "𐒼"); ("𐓥", "𐒽"); ("𐓦", "𐒾"); ("𐓧", "𐒿"); ("𐓨", "𐓀");
   ("𐓩", "𐓁"); ("𐓪", "𐓂"); ("𐓫", "𐓃"); ("𐓬", "𐓄"); ("𐓭", "𐓅"); ("𐓮", "𐓆");
   ("𐓯", "𐓇"); ("𐓰", "𐓈"); ("𐓱", "𐓉"); ("𐓲", "𐓊"); ("𐓳", "𐓋"); ("𐓴", "𐓌");
   ("𐓵", "𐓍"); ("𐓶", "𐓎"); ("𐓷", "𐓏"); ("𐓸", "𐓐"); ("𐓹", "𐓑"); ("𐓺", "𐓒");
   ("𐓻", "𐓓"); ("𐖗", "𐕰"); ("𐖘", "𐕱"); ("𐖙", "𐕲"); ("𐖚", "𐕳"); ("𐖛", "𐕴");
   ("𐖜", "𐕵"); ("𐖝", "𐕶"); ("𐖞", "𐕷"); ("𐖟", "𐕸"); ("𐖠", "𐕹"); ("𐖡", "𐕺");
   ("𐖣", "𐕼"); ("𐖤", "𐕽"); ("𐖥", "𐕾"); ("𐖦", "𐕿"); ("𐖧", "𐖀"); ("𐖨", "𐖁");
   ("𐖩", "𐖂"); ("𐖪", "𐖃"); ("𐖫", "𐖄"); ("𐖬", "𐖅"); ("𐖭", "𐖆"); ("𐖮", "𐖇");
   ("𐖯", "𐖈"); ("𐖰", "𐖉"); ("𐖱", "𐖊"); ("𐖳", "𐖌"); ("𐖴", "𐖍"); ("𐖵", "𐖎");
   ("𐖶", "𐖏"); ("𐖷", "𐖐"); ("𐖸", "𐖑"); ("𐖹", "𐖒"); ("𐖻", "𐖔"); ("𐖼", "𐖕");
   ("𐳀", "𐲀"); ("𐳁", "𐲁"); ("𐳂", "𐲂"); ("𐳃", "𐲃"); ("𐳄", "𐲄"); ("𐳅", "𐲅");
   ("𐳆", "𐲆"); ("𐳇", "𐲇"); ("𐳈", "𐲈"); ("𐳉", "𐲉"); ("𐳊", "𐲊"); ("𐳋", "𐲋");
   ("𐳌", "𐲌"); ("𐳍", "𐲍"); ("𐳎", "𐲎"); ("𐳏", "𐲏"); ("𐳐", "𐲐"); ("𐳑", "𐲑");
   ("𐳒", "𐲒"); ("𐳓", "𐲓"); ("𐳔", "𐲔"); ("𐳕", "𐲕"); ("𐳖", "𐲖"); ("𐳗", "𐲗");
   ("𐳘", "𐲘"); ("𐳙", "𐲙"); ("𐳚", "𐲚"); ("𐳛", "𐲛"); ("𐳜", "𐲜"); ("𐳝", "𐲝");
   ("𐳞", "𐲞"); ("𐳟", "𐲟"); ("𐳠", "𐲠"); ("𐳡", "𐲡"); ("𐳢", "𐲢"); ("𐳣", "𐲣");
   ("𐳤", "𐲤"); ("𐳥", "𐲥"); ("𐳦", "𐲦"); ("𐳧", "𐲧"); ("𐳨", "𐲨"); ("𐳩", "𐲩");
   ("𐳪", "𐲪"); ("𐳫", "𐲫"); ("𐳬", "𐲬"); ("𐳭", "𐲭"); ("𐳮", "𐲮"); ("𐳯", "𐲯");
   ("𐳰", "𐲰"); ("𐳱", "𐲱"); ("𐳲", "𐲲"); ("𑣀", "𑢠"); ("𑣁", "𑢡"); ("𑣂", "𑢢");
   ("𑣃", "𑢣"); ("𑣄", "𑢤"); ("𑣅", "𑢥"); ("𑣆", "𑢦"); ("𑣇", "𑢧"); ("𑣈", "𑢨");
   ("𑣉", "𑢩"); ("𑣊", "𑢪"); ("𑣋", "𑢫"); ("𑣌", "𑢬"); ("𑣍", "𑢭"); ("𑣎", "𑢮");
   ("𑣏", "𑢯"); ("𑣐", "𑢰"); ("𑣑", "𑢱"); ("𑣒", "𑢲"); ("𑣓", "𑢳"); ("𑣔", "𑢴");
   ("𑣕", "𑢵"); ("𑣖", "𑢶"); ("𑣗", "𑢷"); ("𑣘", "𑢸"); ("𑣙", "𑢹"); ("𑣚", "𑢺");
   ("𑣛", "𑢻"); ("𑣜", "𑢼"); ("𑣝", "𑢽"); ("𑣞", "𑢾"); ("𑣟", "𑢿"); ("𖹠", "𖹀");
   ("𖹡", "𖹁"); ("𖹢", "𖹂"); ("𖹣", "𖹃"); ("𖹤", "𖹄"); ("𖹥", "𖹅"); ("𖹦", "𖹆");
   ("𖹧", "𖹇"); ("𖹨", "𖹈"); ("𖹩", "𖹉"); ("𖹪", "𖹊"); ("𖹫", "𖹋"); ("𖹬", "𖹌");
   ("𖹭", "𖹍"); ("𖹮", "𖹎"); ("𖹯", "𖹏"); ("𖹰", "𖹐"); ("𖹱", "𖹑"); ("𖹲", "𖹒");
   ("𖹳", "𖹓"); ("𖹴", "𖹔"); ("𖹵", "𖹕"); ("𖹶", "𖹖"); ("𖹷", "𖹗"); ("𖹸", "𖹘");
   ("𖹹", "𖹙"); ("𖹺", "𖹚"); ("𖹻", "𖹛"); ("𖹼", "𖹜"); ("𖹽", "𖹝"); ("𖹾", "𖹞");
   ("𖹿", "𖹟"); ("𞤢", "𞤀"); ("𞤣", "𞤁"); ("𞤤", "𞤂"); ("𞤥", "𞤃"); ("𞤦", "𞤄");
   ("𞤧", "𞤅"); ("𞤨", "𞤆"); ("𞤩", "𞤇"); ("𞤪", "𞤈"); ("𞤫", "𞤉"); ("𞤬", "𞤊");
   ("𞤭", "𞤋"); ("𞤮", "𞤌"); ("𞤯", "𞤍"); ("𞤰", "𞤎"); ("𞤱", "𞤏"); ("𞤲", "𞤐");
   ("𞤳", "𞤑"); ("𞤴", "𞤒"); ("𞤵", "𞤓"); ("𞤶", "𞤔"); ("𞤷", "𞤕"); ("𞤸", "𞤖");
   ("𞤹", "𞤗"); ("𞤺", "𞤘"); ("𞤻", "𞤙"); ("𞤼", "𞤚"); ("𞤽", "𞤛"); ("𞤾", "𞤜");
   ("𞤿", "𞤝"); ("𞥀", "𞤞"); ("𞥁", "𞤟"); ("𞥂", "𞤠"); ("𞥃", "𞤡")]%string.

Fixpoint capital_of (table : list (string * string)) (ch : string) : string :=
  match table with
  | [] => ch
  | (small, capital) :: table' =>
      if String.eqb small ch then capital else capital_of table' ch
  end.

(** [ch.upper()] for a one-character string [ch]. *)
Definition unicode_upper (ch : string) : string :=
  match ch with
  | String c EmptyString =>
      if PyStr.is_ascii c
      then String (PyStr.upper_char c) EmptyString
      else capital_of capitals ch
  | _ => capital_of capitals ch
  end.

#[export] Instance python_case_table : CaseTable.
Proof.
  refine {| str_upper := unicode_upper |}.
  - intros c Hc. unfold unicode_upper. now rewrite Hc.
  - intros ch Hne.
    assert (Hvals :
      forallb (fun p => negb (String.eqb (snd p) EmptyString)) capitals = true)
      by (vm_compute; reflexivity).
    assert (Htab : forall table,
      forallb (fun p => negb (String.eqb (snd p) EmptyString)) table = true ->
      capital_of table ch <> EmptyString).
    { induction table as [| [small capital] table' IH]; cbn [capital_of forallb];
        intros Hall; [exact Hne |].
      apply andb_prop in Hall as [Hcap Hrest].
      destruct (String.eqb small ch); [| auto].
      intros ->. discriminate. }
    unfold unicode_upper.
    destruct ch as [| c [| c' rest]]; [congruence | | apply Htab, Hvals].
    destruct (PyStr.is_ascii c); [discriminate | apply Htab, Hvals].
Defined.

(** ** Name Tidy *)

Definition alphabet : list string := PyStr.chars "abcdefghijklmnopqrstuvwxyz".

Definition digraphs : list string :=
  ["tt"; "ll"; "ss"; "ff"; "rr"; "mm"; "nn"]%string.

(** [for ch in "abc...z": out = out.replace(ch*3, ch*2)] *)
Definition collapse_triples (out : string) : string :=
  fold_left
    (fun out ch => PyStr.replace (PyStr.repeat_str ch 3) (PyStr.repeat_str ch 2) out)
    alphabet out.

(** [for seq in [...]: out = out.replace(seq, seq[0])] *)
Definition smooth_doubles (out : string) : string :=
  fold_left
    (fun out seq => PyStr.replace seq (PyStr.first_char seq) out)
    digraphs out.

(** [out[0].upper() + out[1:]]; [out[0]] is the first character of
    [out], the bytes its first byte announces. Python raises [IndexError] on
    an empty [out], which is [None] here. *)
Definition capitalize_first `{CaseTable} (out : string) : option string :=
  match out with
  | EmptyString => None
  | String c _ =>
      let w := PyStr.char_width c in
      Some (str_upper (PyStr.take_bytes w out) +:+ PyStr.drop_bytes w out)
  end.

(** [_tidy_place_name(raw)]; [None] stands for an exception escaping the
    function. *)
Definition _tidy_place_name `{CaseTable} (raw : string) : option string :=
  match raw with
  | EmptyString => Some raw
  | String _ _ => capitalize_first (smooth_doubles (collapse_triples raw))
  end.

(** ** Exceptions and outcomes *)

(** The messages of the [ValueError]s the engine can meet. *)
Inductive value_error : Type :=
| InvalidJson (path : string)
    (** [f"Invalid JSON in {path}: {e}"], raised by the command-line
        [_load_json] in place of the [JSONDecodeError] it catches *)
| PlaceRootsShape
    (** ["place_roots must be a non-empty list"] *)
| PlaceRootsShapeFor (kind : string)
    (** [f"place_roots for type '{kind}' must be a non-empty list"] *)
| NamesNotLists
    (** ["male/female must be lists"] *)
| NamesEmpty
    (** ["male/female lists must be non-empty"] *)
| EmptyRange (a b : Z)
    (** [random.randint(a, b)] with no integer in the range *)
| SampleTooLarge
    (** ["Sample larger than population or is negative"] *)
| NotInList
    (** [list.remove(x)]: x not in list *).

Inductive key_error : Type :=
| RawKey (key : string)
    (** a failed dictionary subscript *)
| MissingKey (doc kind key : string)
    (** [f"Missing key in {doc} json for type '{kind}': {e}"] where [e] is the
        failed subscript on [key] *).

Inductive exn : Type :=
| FileNotFoundError (path : string)   (** [f"File not found: {path}"] *)
| KeyError (why : key_error)
| ValueError (why : value_error)
| TypeError        (** a subscript on a value that is not a dictionary *)
| AttributeError   (** [.get] on a value that is not a dictionary *)
| IndexError       (** an index out of range, a choice from nothing *)
| OSError          (** [open] on a path that exists and cannot be opened
                       for reading: a directory ([IsADirectoryError]), a
                       file without the right ([PermissionError]) *)
| UnicodeDecodeError
                   (** the bytes of the file are no UTF-8 text; for Python
                       a [ValueError] of a class of its own, whose message
                       holds no path *)
| JSONDecodeError  (** the error of [json.load] as the GUI copy lets it
                       out; for Python a [ValueError] of a class of its
                       own, whose message holds no path *).

(** What running a piece of the program gives: a value, an exception that
    escapes, or [OutOfFuel] when the bound given to a [while] loop of the
    model is used up before the loop ends. *)
Inductive outcome (A : Type) : Type :=
| Return (a : A)
| Raise (e : exn)
| OutOfFuel.
Arguments Return {A} a.
Arguments Raise {A} e.
Arguments OutOfFuel {A}.

(** ** The random source *)

(** The [random] module keeps one hidden generator for the whole process.
    Its state is [G]; [seed] is [random.seed(int)], [randbelow n] is the
    primitive [Random._randbelow(n)] every draw of the engine goes through,
    which gives a number below [n] and moves the state. *)
Class RandomSource (G : Type) : Type := {
  seed : Z -> G;
  randbelow : nat -> G -> nat * G;
  randbelow_lt : forall (n : nat) (g : G), (0 < n)%nat -> (fst (randbelow n g) < n)%nat
}.

(** A small linear congruential generator, used to run the model. *)
Definition lcg_next (g : Z) : Z := (1103515245 * g + 12345) mod 2147483648.

Definition lcg_randbelow (n : nat) (g : Z) : nat * Z :=
  (Z.to_nat ((lcg_next g / 65536) mod Z.of_nat n), lcg_next g).

#[export] Instance lcg_source : RandomSource Z.
Proof.
  refine {| seed := fun s => Z.abs s mod 2147483648; randbelow := lcg_randbelow |}.
  intros n g Hn. unfold lcg_randbelow. simpl.
  pose proof (Z.mod_pos_bound (lcg_next g / 65536) (Z.of_nat n)). lia.
Defined.

(** A source that always answers [0]. *)
Definition zero_randbelow (n : nat) (g : unit) : nat * unit := (O, g).

#[export] Instance zero_source : RandomSource unit.
Proof.
  refine {| seed := fun _ => tt; randbelow := zero_randbelow |}.
  intros n g Hn. exact Hn.
Defined.

(** ** Computations that draw *)

(** A computation reads and moves the generator, and returns or raises. *)
Definition M (G A : Type) : Type := G -> outcome A * G.

Section Draws.

Context {G : Type} `{RandomSource G}.

#[local] Abbreviation M := (M G).

Definition ret {A : Type} (a : A) : M A := fun g => (Return a, g).

Definition raise {A : Type} (e : exn) : M A := fun g => (Raise e, g).

Definition bind {A B : Type} (m : M A) (f : A -> M B) : M B :=
  fun g =>
    match m g with
    | (Return a, g') => f a g'
    | (Raise e, g') => (Raise e, g')
    | (OutOfFuel, g') => (OutOfFuel, g')
    end.

Definition out_of_fuel {A : Type} : M A := fun g => (OutOfFuel, g).

(** [random.seed(s)] *)
Definition random_seed (s : Z) : M unit := fun _ => (Return tt, seed s).

Definition draw_below (n : nat) : M nat :=
  fun g => let (j, g') := randbelow n g in (Return j, g').

(** [seq[j]] *)
Definition getindex (seq : list string) (j : nat) : M string :=
  match seq !! j with
  | Some x => ret x
  | None => raise IndexError
  end.

End Draws.

Notation "x <- m ;; k" := (bind m (fun x => k))
  (at level 100, m at next level, right associativity).
Notation "m ;;; k" := (bind m (fun _ => k))
  (at level 100, right associativity).

Section Random.

Context {G : Type} `{RandomSource G}.

#[local] Abbreviation M := (M G).

(** [random.randint(a, b)]: [a + _randbelow(b + 1 - a)] when the width is
    positive, [ValueError] otherwise. *)
Definition random_randint (a b : Z) : M Z :=
  if 0 <? b + 1 - a
  then j <- draw_below (Z.to_nat (b + 1 - a)) ;; ret (a + Z.of_nat j)
  else raise (ValueError (EmptyRange a b)).

(** [random.choice(seq)] *)
Definition random_choice (seq : list string) : M string :=
  match seq with
  | [] => raise IndexError
  | _ :: _ => j <- draw_below (length seq) ;; getindex seq j
  end.

(** The selection loop of [random.sample] on its private copy [pool] of the
    population: [j = randbelow(n - i); result[i] = pool[j];
    pool[j] = pool[n - i - 1]]. Only the first [n - i] cells of the copy are
    ever read again, and [pool] here is that live part. *)
Fixpoint sample_loop (k : nat) (pool : list string) : M (list string) :=
  match k with
  | O => ret []
  | S k' =>
      j <- draw_below (length pool) ;;
      x <- getindex pool j ;;
      y <- getindex pool (length pool - 1) ;;
      rest <- sample_loop k' (take (length pool - 1) (<[j := y]> pool)) ;;
      ret (x :: rest)
  end.

(** [random.sample(population, k)]: [ValueError] unless [0 <= k <= n], else
    [k] cells of the population, no cell twice, in the order drawn. The
    library selects from a copied pool, as here, up to a size threshold of
    the population, and above it by drawing positions again until one comes
    that was not chosen yet; the model follows the pool selection at every
    size. *)
Definition random_sample (population : list string) (k : Z) : M (list string) :=
  if (0 <=? k) && (k <=? Z.of_nat (length population))
  then sample_loop (Z.to_nat k) population
  else raise (ValueError SampleTooLarge).

End Random.

(** ** Unique Picker *)

(** [pool.remove(x)]: the list without its first item equal to [x];
    [ValueError] when there is none. *)
Fixpoint remove_first (x : string) (l : list string) : option (list string) :=
  match l with
  | [] => None
  | y :: l' => if String.eqb y x then Some l' else cons y <$> remove_first x l'
  end.

Section Picker.

Context {G : Type} `{RandomSource G}.

#[local] Abbreviation M := (M G).

Definition list_remove (pool : list string) (x : string) : M (list string) :=
  match remove_first x pool with
  | Some pool' => ret pool'
  | None => raise (ValueError NotInList)
  end.

(** The [while len(result) < n] loop of the command-line version; [pool]
    and [result] are the contents of the two lists when the test is made.
    [fuel] bounds the number of turns. *)
Fixpoint pick_loop (fuel : nat) (src : list string) (n : Z)
    (pool result : list string) : M (list string) :=
  if Z.of_nat (length result) <? n then
    match fuel with
    | O => out_of_fuel
    | S fuel' =>
        let pool := match pool with [] => src | _ :: _ => pool end in
        choice <- random_choice pool ;;
        pool <- list_remove pool choice ;;
        pick_loop fuel' src n pool (result ++ [choice])
    end
  else ret result.

(** [NPCPlaceGenerator._pick_unique(src, n)], command-line version. The
    loop appends one item a turn, so [n] turns are all it can take. *)
Definition _pick_unique (src : list string) (n : Z) : M (list string) :=
  if n <=? Z.of_nat (length src) then random_sample src n
  else
    match src with
    | [] => ret []
    | _ :: _ => pick_loop (Z.to_nat n) src n src []
    end.

End Picker.

Module Gui.
Section Picker.

Context {G : Type} `{RandomSource G}.

#[local] Abbreviation M := (M G).

(** The [while len(res) < n and src] loop of the GUI copy. *)
Fixpoint pick_loop (fuel : nat) (src : list string) (n : Z)
    (pool res : list string) : M (list string) :=
  if (Z.of_nat (length res) <? n) && negb (bool_decide (src = [])) then
    match fuel with
    | O => out_of_fuel
    | S fuel' =>
        let pool := match pool with [] => src | _ :: _ => pool end in
        choice <- random_choice pool ;;
        pool <- list_remove pool choice ;;
        pick_loop fuel' src n pool (res ++ [choice])
    end
  else ret res.

(** [NPCPlaceGenerator._pick_unique(src, n)], GUI copy. *)
Definition _pick_unique (src : list string) (n : Z) : M (list string) :=
  if n <=? Z.of_nat (length src) then random_sample src n
  else pick_loop (Z.to_nat n) src n src [].

End Picker.
End Gui.

(** [o if o is not None else d] on an option. *)
Definition default_or {A : Type} (o : option A) (d : A) : A :=
  match o with Some x => x | None => d end.

(** ** Data documents *)

(** A parsed JSON document. Word lists are arrays of strings, as the data
    classes declare them ([List[str]]). *)
#[warnings="-register-all"] Inductive json : Type :=
| JNull
| JBool (b : bool)
| JNum (n : Z)
| JStr (s : string)
| JList (items : list string)
| JObj (fields : gmap string json).

(** The data directory as the loader sees it. At a path there is nothing,
    or something that exists and cannot be opened for reading, or a file
    whose bytes are no UTF-8 text, or a text that is not JSON, or a JSON
    text with its parsed content. *)
Inductive file : Type :=
| Unopenable
| Undecodable
| NotJson
| Json (doc : json).

Definition files : Type := string -> option file.

(** [os.path.join(a, b)] for a [b] that does not start with a slash. *)
Definition path_join (a b : string) : string :=
  match a with
  | EmptyString => b
  | String _ _ =>
      if String.eqb (substring (String.length a - 1) 1 a) "/"
      then a +:+ b
      else a +:+ "/" +:+ b
  end.

(** [v[key]] *)
Definition subscript (v : json) (key : string) : exn + json :=
  match v with
  | JObj fields =>
      match fields !! key with
      | Some x => inr x
      | None => inl (KeyError (RawKey key))
      end
  | _ => inl TypeError
  end.

(** [v.get(key, default)] *)
Definition dict_get (v : json) (key : string) (default : json) : exn + json :=
  match v with
  | JObj fields => inr (default_or (fields !! key) default)
  | _ => inl AttributeError
  end.

(** ** Data model *)

Record PlaceData : Type := { place_roots : list string }.

Record NameData : Type := { male : list string; female : list string }.

Record GeneratorConfig : Type := {
  place_type : string;
  name_type : string;
  num_male : Z;
  num_female : Z;
  min_roots : Z;
  max_roots : Z;
  cfg_seed : option Z;
  data_dir : string
}.

(** The fields [__init__] sets on the generator object. *)
Record NPCPlaceGenerator : Type := {
  cfg : GeneratorConfig;
  places_path : string;
  names_path : string;
  place_data : PlaceData;
  name_data : NameData
}.

(** [{"male": [...], "female": [...]}] *)
Record Residents : Type := { res_male : list string; res_female : list string }.

(** [{"village": ..., "residents": ...}] *)
Record Bundle : Type := { village : string; residents : Residents }.

(** ** Data Loader *)

(** Sequencing of pure steps that may raise. *)
Definition and_then {A B : Type} (r : exn + A) (f : A -> exn + B) : exn + B :=
  match r with
  | inl e => inl e
  | inr a => f a
  end.

Notation "x <~ r ;; k" := (and_then r (fun x => k))
  (at level 100, r at next level, right associativity).

(** Python's [try: ... except KeyError as e: raise KeyError(...)] around a
    pure lookup. *)
Definition reraise_key (doc kind : string) {A : Type} (r : exn + A) : exn + A :=
  match r with
  | inl (KeyError (RawKey key)) => inl (KeyError (MissingKey doc kind key))
  | _ => r
  end.

(** [PlaceData.from_json(obj, kind)], command-line version. *)
Definition PlaceData_from_json (obj : json) (kind : string) : exn + PlaceData :=
  match reraise_key "plname" kind
          (rec <~ subscript obj kind ;; subscript rec "place_roots") with
  | inl e => inl e
  | inr (JList (r :: roots)) => inr {| place_roots := r :: roots |}
  | inr _ => inl (ValueError PlaceRootsShape)
  end.

(** [NameData.from_json(obj, kind)], command-line version. *)
Definition NameData_from_json (obj : json) (kind : string) : exn + NameData :=
  match reraise_key "name" kind
          (rec <~ subscript obj kind ;;
           m <~ subscript rec "male" ;;
           rec' <~ subscript obj kind ;;
           f <~ subscript rec' "female" ;;
           inr (m, f)) with
  | inl e => inl e
  | inr (JList m, JList f) =>
      match m, f with
      | _ :: _, _ :: _ => inr {| male := m; female := f |}
      | _, _ => inl (ValueError NamesEmpty)
      end
  | inr _ => inl (ValueError NamesNotLists)
  end.

(** [NPCPlaceGenerator._load_json(path)], command-line version: only the
    [JSONDecodeError] of [json.load] is caught and raised again as a
    [ValueError] with the path; the errors of [open] and of the decoding of
    the bytes go out as they are. *)
Definition _load_json (fs : files) (path : string) : exn + json :=
  match fs path with
  | None => inl (FileNotFoundError path)
  | Some Unopenable => inl OSError
  | Some Undecodable => inl UnicodeDecodeError
  | Some NotJson => inl (ValueError (InvalidJson path))
  | Some (Json doc) => inr doc
  end.

Definition _load_place_data (fs : files) (path kind : string) : exn + PlaceData :=
  obj <~ _load_json fs path ;; PlaceData_from_json obj kind.

Definition _load_name_data (fs : files) (path kind : string) : exn + NameData :=
  obj <~ _load_json fs path ;; NameData_from_json obj kind.

Module GuiLoader.

(** [PlaceData.from_json(obj, kind)], GUI copy:
    [obj.get(kind, {}).get("place_roots")]. *)
Definition PlaceData_from_json (obj : json) (kind : string) : exn + PlaceData :=
  match (rec <~ dict_get obj kind (JObj ∅) ;; dict_get rec "place_roots" JNull) with
  | inl e => inl e
  | inr (JList (r :: roots)) => inr {| place_roots := r :: roots |}
  | inr _ => inl (ValueError (PlaceRootsShapeFor kind))
  end.

End GuiLoader.

(** ** Bundle Generator *)

Section Generator.

Context {G : Type} `{RandomSource G} `{CaseTable}.

#[local] Abbreviation M := (M G).

(** A pure step that may raise, inside a computation. *)
Definition lift {A : Type} (r : exn + A) : M A :=
  match r with
  | inl e => raise e
  | inr a => ret a
  end.

(** [NPCPlaceGenerator.__init__(cfg)], reading the files [fs]. *)
Definition init (fs : files) (c : GeneratorConfig) : M NPCPlaceGenerator :=
  match cfg_seed c with
  | Some s => random_seed s
  | None => ret tt
  end ;;;
  let pp := path_join (data_dir c) ("plname_" +:+ place_type c +:+ ".json") in
  let np := path_join (data_dir c) ("name_" +:+ name_type c +:+ ".json") in
  pd <- lift (_load_place_data fs pp (place_type c)) ;;
  nd <- lift (_load_name_data fs np (name_type c)) ;;
  ret {| cfg := c; places_path := pp; names_path := np;
         place_data := pd; name_data := nd |}.

(** [generate_place_name(self)] *)
Definition generate_place_name (self : NPCPlaceGenerator) : M string :=
  k <- random_randint (min_roots (cfg self)) (max_roots (cfg self)) ;;
  roots <- random_sample (place_roots (place_data self)) k ;;
  let raw := PyStr.join roots in
  match _tidy_place_name raw with
  | Some name => ret name
  | None => raise IndexError
  end.

(** [f"{m} of {village}"] *)
Definition of_village (village m : string) : string :=
  m +:+ " of " +:+ village.

(** [generate_residents(self, village)] *)
Definition generate_residents (self : NPCPlaceGenerator) (village : string)
  : M Residents :=
  males <- _pick_unique (male (name_data self)) (num_male (cfg self)) ;;
  females <- _pick_unique (female (name_data self)) (num_female (cfg self)) ;;
  ret {| res_male := of_village village <$> males;
         res_female := of_village village <$> females |}.

(** [generate_bundle(self)] *)
Definition generate_bundle (self : NPCPlaceGenerator) : M Bundle :=
  village <- generate_place_name self ;;
  people <- generate_residents self village ;;
  ret {| village := village; residents := people |}.

(** One generation call, as [main] and the GUI make it: build the
    generator from the configuration, then ask it for a bundle. *)
Definition generation_call (fs : files) (c : GeneratorConfig) : M Bundle :=
  gen <- init fs c ;;
  generate_bundle gen.

End Generator.

(** ** The picker on list objects *)

(** Python lists are objects: [src], [pool] and [result] name places in a
    store, two names may name one place, and [remove] and [append] change
    the list in its place. The store is the sequence of list objects made so
    far; a new one goes to the end. *)
Abbreviation loc := nat.

Abbreviation store := (list (list string)).

Section Objects.

Context {G : Type} `{RandomSource G}.

(** A computation over list objects reads and moves the store too. *)
#[local] Abbreviation MS := (M (store * G)).

(** [list(v)], [v[:]], [[]]: a new list object. *)
Definition new_list (v : list string) : MS loc :=
  fun '(st, g) => (Return (length st), (st ++ [v], g)).

(** The items of the list at [l]; a place that holds no list cannot be
    asked for its items. *)
Definition items (l : loc) : MS (list string) :=
  fun '(st, g) =>
    match st !! l with
    | Some v => (Return v, (st, g))
    | None => (Raise TypeError, (st, g))
    end.

(** The list at [l] becomes [v], in its place. *)
Definition set_items (l : loc) (v : list string) : MS unit :=
  fun '(st, g) => (Return tt, (<[l := v]> st, g)).

(** A draw leaves the store alone. *)
Definition drawing {A : Type} (m : M G A) : MS A :=
  fun '(st, g) => let (r, g') := m g in (r, (st, g')).

(** [random.sample(population, k)] on a list object: the population is
    read, the sample is a new list. *)
Definition sample_obj (population : loc) (k : Z) : MS loc :=
  pop <- items population ;;
  chosen <- drawing (random_sample pop k) ;;
  new_list chosen.

(** [random.choice(pool)] *)
Definition choice_obj (pool : loc) : MS string :=
  p <- items pool ;;
  drawing (random_choice p).

(** [pool.remove(x)] *)
Definition remove_obj (pool : loc) (x : string) : MS unit :=
  p <- items pool ;;
  match remove_first x p with
  | Some p' => set_items pool p'
  | None => raise (ValueError NotInList)
  end.

(** [result.append(x)] *)
Definition append_obj (result : loc) (x : string) : MS unit :=
  r <- items result ;;
  set_items result (r ++ [x]).

(** The body of the [while] loop, the same text in both copies:
    [if not pool: pool = src[:]] (or [list(src)]), then
    [choice = random.choice(pool)], [pool.remove(choice)],
    [result.append(choice)]. It gives back the object [pool] names after
    the turn. *)
Definition pick_turn_obj (src pool result : loc) : MS loc :=
  p <- items pool ;;
  pool <- match p with
          | [] => s <- items src ;; new_list s
          | _ :: _ => ret pool
          end ;;
  choice <- choice_obj pool ;;
  remove_obj pool choice ;;;
  append_obj result choice ;;;
  ret pool.

(** The [while] loop of the command-line [_pick_unique], on the objects
    named [src], [pool] and [result]. *)
Fixpoint pick_loop_obj (fuel : nat) (src : loc) (n : Z) (pool result : loc)
  : MS loc :=
  r <- items result ;;
  if Z.of_nat (length r) <? n then
    match fuel with
    | O => out_of_fuel
    | S fuel' =>
        pool <- pick_turn_obj src pool result ;;
        pick_loop_obj fuel' src n pool result
    end
  else ret result.

(** [_pick_unique(src, n)] of the command-line version, on objects. *)
Definition pick_unique_obj (src : loc) (n : Z) : MS loc :=
  s <- items src ;;
  if n <=? Z.of_nat (length s) then sample_obj src n
  else
    result <- new_list [] ;;
    s <- items src ;;
    match s with
    | [] => ret result
    | _ :: _ =>
        pool <- new_list s ;;
        pick_loop_obj (Z.to_nat n) src n pool result
    end.

(** The loop of the GUI copy: [while len(res) < n and src]. *)
Fixpoint gui_pick_loop_obj (fuel : nat) (src : loc) (n : Z) (pool res : loc)
  : MS loc :=
  r <- items res ;;
  s <- items src ;;
  if (Z.of_nat (length r) <? n) && negb (bool_decide (s = [])) then
    match fuel with
    | O => out_of_fuel
    | S fuel' =>
        pool <- pick_turn_obj src pool res ;;
        gui_pick_loop_obj fuel' src n pool res
    end
  else ret res.

(** [_pick_unique(src, n)] of the GUI copy, on objects:
    [res, pool = [], list(src)]. *)
Definition gui_pick_unique_obj (src : loc) (n : Z) : MS loc :=
  s <- items src ;;
  if n <=? Z.of_nat (length s) then sample_obj src n
  else
    res <- new_list [] ;;
    s <- items src ;;
    pool <- new_list s ;;
    gui_pick_loop_obj (Z.to_nat n) src n pool res.

End Objects.

(** ** Vocabulary of the properties *)

(** How many times [x] is in [l]. *)
Definition times (x : string) (l : list string) : nat :=
  count_occ String.string_dec l x.

(** [q] copies of [src], one after the other. *)
Definition rounds (q : nat) (src : list string) : list string :=
  concat (replicate q src).

(** Where the loop of the picker stands: some whole rounds over [src] are in
    [result], followed by the items [used] of the current round, and [pool]
    holds what the current round has left. *)
Definition between_rounds (src pool result : list string) : Prop :=
  exists (q : nat) (used : list string),
    used ++ pool ≡ₚ src /\ result ≡ₚ rounds q src ++ used.

(** No item of [src] is in [res] two times more than another. *)
Definition balanced (src res : list string) : Prop :=
  forall x y : string, x ∈ src -> y ∈ src -> (times x res <= times y res + 1)%nat.

(** [res] is made of items of [src], no cell of [src] used twice. *)
Definition drawn_from (src res : list string) : Prop :=
  exists rest : list string, res ++ rest ≡ₚ src.

(** The [SchemaError] of the specification, as the loaders raise it: the
    [KeyError] of a missing field, the [ValueError] of a [place_roots] that
    is not a non-empty list. *)
Definition schema_error (e : exn) : Prop :=
  match e with
  | KeyError (MissingKey _ _ _) => True
  | ValueError PlaceRootsShape => True
  | ValueError (PlaceRootsShapeFor _) => True
  | _ => False
  end.

(** The [RangeError] of the specification, as the draws raise it: the
    [ValueError]s of [random.randint] and [random.sample]. *)
Definition range_error (e : exn) : Prop :=
  match e with
  | ValueError (EmptyRange _ _) => True
  | ValueError SampleTooLarge => True
  | _ => False
  end.

(** A place document with no usable [place_roots] for the tag [kind]: the
    tag or the field is missing, or the field is not a non-empty list. *)
Inductive lacks_place_roots (kind : string) : json -> Prop :=
| lacks_tag (top : gmap string json) :
    top !! kind = None ->
    lacks_place_roots kind (JObj top)
| lacks_field (top rec : gmap string json) :
    top !! kind = Some (JObj rec) ->
    rec !! "place_roots"%string = None ->
    lacks_place_roots kind (JObj top)
| lacks_shape (top rec : gmap string json) (v : json) :
    top !! kind = Some (JObj rec) ->
    rec !! "place_roots"%string = Some v ->
    (forall (r : string) (roots : list string), v <> JList (r :: roots)) ->
    lacks_place_roots kind (JObj top).

(** The path [__init__] reads the place document from. *)
Definition places_path_of (c : GeneratorConfig) : string :=
  path_join (data_dir c) ("plname_" +:+ place_type c +:+ ".json").

(** ** Sample data *)

(** The documents and the configuration of the end-to-end scenario of the
    specification. *)
Definition sample_place_doc : json :=
  JObj {[ "default"%string :=
            JObj {[ "place_roots"%string :=
                      JList ["rav"; "en"; "wood"; "ford"]%string ]} ]}.

Definition sample_name_doc : json :=
  JObj {[ "default"%string :=
            JObj (<[ "male"%string := JList ["Tom"%string] ]>
                    {[ "female"%string := JList ["Ann"%string] ]}) ]}.

Definition sample_files : files :=
  fun path =>
    if String.eqb path "./plname_default.json" then Some (Json sample_place_doc)
    else if String.eqb path "./name_default.json" then Some (Json sample_name_doc)
    else None.

Definition sample_config : GeneratorConfig :=
  {| place_type := "default"; name_type := "default";
     num_male := 1; num_female := 1; min_roots := 2; max_roots := 2;
     cfg_seed := Some 1; data_dir := "." |}.

(** A generator over the sample lists with its own counts. *)
Definition generator_with (roots males females : list string)
    (lo hi nm nf : Z) : NPCPlaceGenerator :=
  {| cfg := {| place_type := "default"; name_type := "default";
               num_male := nm; num_female := nf;
               min_roots := lo; max_roots := hi;
               cfg_seed := None; data_dir := "." |};
     places_path := "./plname_default.json";
     names_path := "./name_default.json";
     place_data := {| place_roots := roots |};
     name_data := {| male := males; female := females |} |}.

(** A place document whose record has no [place_roots]. *)
Definition rootless_place_doc : json :=
  JObj {[ "default"%string := JObj {[ "roots"%string := JList ["rav"%string] ]} ]}.

Definition rootless_files : files :=
  fun path =>
    if String.eqb path "./plname_default.json" then Some (Json rootless_place_doc)
    else if String.eqb path "./name_default.json" then Some (Json sample_name_doc)
    else None.

(** The sample directory with a name file whose bytes are no UTF-8 text. *)
Definition undecodable_names_files : files :=
  fun path =>
    if String.eqb path "./plname_default.json" then Some (Json sample_place_doc)
    else if String.eqb path "./name_default.json" then Some Undecodable
    else None.

Definition sample_generator : NPCPlaceGenerator :=
  generator_with ["rav"; "en"; "wood"; "ford"]%string
                 ["Tom"%string] ["Ann"%string] 2 3 1 1.

(** A root list that holds one root in two cells. *)
Definition repeated_root_generator : NPCPlaceGenerator :=
  generator_with ["ash"; "ash"]%string ["Tom"%string] ["Ann"%string] 2 2 1 1.

(** A configuration with [min_roots > max_roots]. *)
Definition empty_range_generator : NPCPlaceGenerator :=
  generator_with ["rav"; "en"; "wood"; "ford"]%string
                 ["Tom"%string] ["Ann"%string] 3 2 1 1.

(** ** Vocabulary of the picker on objects *)

(** The run [r] on objects does what the run [p] on values does: the same
    exception, or a list object of the final store [st'] that holds the list
    returned, and the same state of the random source. *)
Definition returns_list {G : Type} (r : outcome loc * (store * G))
    (p : outcome (list string) * G) (st' : store) : Prop :=
  match p with
  | (Return res, g') =>
      exists l : loc, r = (Return l, (st', g')) /\ st' !! l = Some res
  | (Raise e, g') => r = (Raise e, (st', g'))
  | (OutOfFuel, g') => r = (OutOfFuel, (st', g'))
  end.

(** ** More of the engine: the GUI copy *)

Module GuiEngine.

(** The GUI copy words two of its [ValueError]s its own way; the other
    exceptions are those of the command-line version. *)
Inductive gui_exn : Type :=
| Core (e : exn)
| NamesNotListsFor (kind : string)
    (** [f"male/female for type '{kind}' must be lists"] *)
| NamesEmptyFor (kind : string)
    (** [f"male/female lists for type '{kind}' must be non-empty"] *).

Definition core {A : Type} (r : exn + A) : gui_exn + A :=
  match r with
  | inl e => inl (Core e)
  | inr a => inr a
  end.

(** [NameData.from_json(obj, kind)], GUI copy: [node = obj.get(kind, {})],
    [node.get("male")], [node.get("female")]. *)
Definition NameData_from_json (obj : json) (kind : string) : gui_exn + NameData :=
  match core (node <~ dict_get obj kind (JObj ∅) ;;
              m <~ dict_get node "male" JNull ;;
              f <~ dict_get node "female" JNull ;;
              inr (m, f)) with
  | inl e => inl e
  | inr (JList m, JList f) =>
      match m, f with
      | _ :: _, _ :: _ => inr {| male := m; female := f |}
      | _, _ => inl (NamesEmptyFor kind)
      end
  | inr _ => inl (NamesNotListsFor kind)
  end.

(** [_load_json(self, path)], GUI copy: no error of [open] or of
    [json.load] is caught. *)
Definition _load_json (fs : files) (path : string) : gui_exn + json :=
  match fs path with
  | None => inl (Core (FileNotFoundError path))
  | Some Unopenable => inl (Core OSError)
  | Some Undecodable => inl (Core UnicodeDecodeError)
  | Some NotJson => inl (Core JSONDecodeError)
  | Some (Json doc) => inr doc
  end.

(** The attributes of the generator object of the GUI copy. *)
Record NPCPlaceGenerator : Type := {
  self_data_dir : string;
  self_place_type : string;
  self_name_type : string;
  self_num_male : Z;
  self_num_female : Z;
  self_min_roots : Z;
  self_max_roots : Z;
  self_seed : option Z;
  self_place_data : PlaceData;
  self_name_data : NameData
}.

Section Engine.

Context {G : Type} `{RandomSource G} `{CaseTable}.

(** [_load_place_data(self)] *)
Definition _load_place_data (fs : files) (data_dir place_type : string)
  : gui_exn + PlaceData :=
  match _load_json fs (path_join data_dir ("plname_" +:+ place_type +:+ ".json")) with
  | inl e => inl e
  | inr obj => core (GuiLoader.PlaceData_from_json obj place_type)
  end.

(** [_load_name_data(self)] *)
Definition _load_name_data (fs : files) (data_dir name_type : string)
  : gui_exn + NameData :=
  match _load_json fs (path_join data_dir ("name_" +:+ name_type +:+ ".json")) with
  | inl e => inl e
  | inr obj => NameData_from_json obj name_type
  end.

(** [NPCPlaceGenerator.__init__], GUI copy; the keyword arguments are taken
    from [c] as [_on_generate] passes them. *)
Definition init (fs : files) (c : GeneratorConfig)
  : G -> (gui_exn + NPCPlaceGenerator) * G :=
  fun g =>
    let g1 := match cfg_seed c with Some s => seed s | None => g end in
    match _load_place_data fs (data_dir c) (place_type c) with
    | inl e => (inl e, g1)
    | inr pd =>
        match _load_name_data fs (data_dir c) (name_type c) with
        | inl e => (inl e, g1)
        | inr nd =>
            (inr {| self_data_dir := data_dir c;
                    self_place_type := place_type c;
                    self_name_type := name_type c;
                    self_num_male := num_male c;
                    self_num_female := num_female c;
                    self_min_roots := min_roots c;
                    self_max_roots := max_roots c;
                    self_seed := cfg_seed c;
                    self_place_data := pd;
                    self_name_data := nd |}, g1)
        end
    end.

(** [generate_place_name(self)], GUI copy *)
Definition generate_place_name (self : NPCPlaceGenerator) : M G string :=
  k <- random_randint (self_min_roots self) (self_max_roots self) ;;
  roots <- random_sample (place_roots (self_place_data self)) k ;;
  match _tidy_place_name (PyStr.join roots) with
  | Some name => ret name
  | None => raise IndexError
  end.

(** [generate(self)], GUI copy *)
Definition generate (self : NPCPlaceGenerator) : M G Bundle :=
  village <- generate_place_name self ;;
  males <- Gui._pick_unique (male (self_name_data self)) (self_num_male self) ;;
  females <- Gui._pick_unique (female (self_name_data self)) (self_num_female self) ;;
  ret {| village := village;
         residents := {| res_male := of_village village <$> males;
                         res_female := of_village village <$> females |} |}.

End Engine.

End GuiEngine.

(** The generator object the command-line version builds from the same
    settings and the same loaded lists. *)
Definition cli_view (self : GuiEngine.NPCPlaceGenerator) : NPCPlaceGenerator :=
  let c := {| place_type := GuiEngine.self_place_type self;
              name_type := GuiEngine.self_name_type self;
              num_male := GuiEngine.self_num_male self;
              num_female := GuiEngine.self_num_female self;
              min_roots := GuiEngine.self_min_roots self;
              max_roots := GuiEngine.self_max_roots self;
              cfg_seed := GuiEngine.self_seed self;
              data_dir := GuiEngine.self_data_dir self |} in
  {| cfg := c;
     places_path := path_join (data_dir c) ("plname_" +:+ place_type c +:+ ".json");
     names_path := path_join (data_dir c) ("name_" +:+ name_type c +:+ ".json");
     place_data := GuiEngine.self_place_data self;
     name_data := GuiEngine.self_name_data self |}.

(** ** More of the engine: rendering the bundle as text *)

(** The line feed. *)
Definition newline : string := String (ascii_of_nat 10) EmptyString.

(** [print(line)]: the line and a line feed go to the end of what standard
    output holds. *)
Definition print (line out : string) : string := out +:+ line +:+ newline.

(** The text branch of [main]: [print(f"Village: {village}")],
    [print("Residents:")], then a [print(f"  - {m}")] for every male and
    every female resident. *)
Definition main_text (bundle : Bundle) (out : string) : string :=
  let out := print ("Village: " +:+ village bundle) out in
  let out := print "Residents:" out in
  let out := fold_left (fun out m => print ("  - " +:+ m) out)
                       (res_male (residents bundle)) out in
  fold_left (fun out f => print ("  - " +:+ f) out)
            (res_female (residents bundle)) out.




(** ** More vocabulary *)

(** The path [__init__] reads the name document from. *)
Definition names_path_of (c : GeneratorConfig) : string :=
  path_join (data_dir c) ("name_" +:+ name_type c +:+ ".json").

(** The configuration [c] with no seed. *)
Definition unseeded (c : GeneratorConfig) : GeneratorConfig :=
  {| place_type := place_type c; name_type := name_type c;
     num_male := num_male c; num_female := num_female c;
     min_roots := min_roots c; max_roots := max_roots c;
     cfg_seed := None; data_dir := data_dir c |}.

(** A lowercase ASCII letter. *)
Definition is_lower (c : ascii) : bool :=
  ((97 <=? nat_of_ascii c) && (nat_of_ascii c <=? 122))%nat.

(** Some lowercase ASCII letter of [s] is followed by the same letter. *)
Fixpoint has_double_letter (s : string) : bool :=
  match s with
  | EmptyString => false
  | String a s' =>
      match s' with
      | EmptyString => false
      | String b _ =>
          if is_lower a && Ascii.eqb a b then true else has_double_letter s'
      end
  end.

(** A text of ASCII characters only; for such a text a byte is a
    character and [String.length] is Python's [len]. *)
Fixpoint ascii_text (s : string) : bool :=
  match s with
  | EmptyString => true
  | String c s' => PyStr.is_ascii c && ascii_text s'
  end.

(** A list made of whole rounds over [src]: permutations of [src], one
    after the other. *)
Inductive whole_rounds (src : list string) : list string -> Prop :=
| no_round : whole_rounds src []
| one_more_round (done round : list string) :
    whole_rounds src done ->
    round ≡ₚ src ->
    whole_rounds src (done ++ round).

(** Where the loop of the picker stands, with the order kept: [result] is
    whole rounds followed by the items [used] of the round going on. *)
Definition in_rounds (src pool result : list string) : Prop :=
  exists done used : list string,
    result = done ++ used /\ whole_rounds src done /\ used ++ pool ≡ₚ src.

(** A place document and a name document of the expected shape. *)
Definition place_doc_of (kind : string) (roots : list string) (obj : json) : Prop :=
  exists top rec : gmap string json,
    obj = JObj top /\ top !! kind = Some (JObj rec) /\
    rec !! "place_roots"%string = Some (JList roots) /\ roots <> [].

Definition name_doc_of (kind : string) (males females : list string) (obj : json)
  : Prop :=
  exists top rec : gmap string json,
    obj = JObj top /\ top !! kind = Some (JObj rec) /\
    rec !! "male"%string = Some (JList males) /\
    rec !! "female"%string = Some (JList females) /\
    males <> [] /\ females <> [].


(** ** Proof steps *)

(** Case analysis along a loader, innermost first: the document, each
    lookup, each value looked up. *)
Ltac loader_cases E :=
  repeat (cbn beta iota in E;
          match type of E with
          | context [match ?x with _ => _ end] =>
              first [ is_var x; destruct x
                    | lazymatch x with _ !! _ => destruct x eqn:? end ]
          end).

(** * Properties *)

(** ** Name Tidy *)

Example tidy_aaa : _tidy_place_name "aaa" = Some "Aa"%string.
Proof. reflexivity. Qed.

Example tidy_settland : _tidy_place_name "settland" = Some "Setland"%string.
Proof. reflexivity. Qed.

Example tidy_tooth : _tidy_place_name "tooth" = Some "Tooth"%string.
Proof. reflexivity. Qed.

Example tidy_single : _tidy_place_name "x" = Some "X"%string.
Proof. reflexivity. Qed.

(** With Python's case table: a letter that is not ASCII gets its capital,
    a capital may be two characters, and a character without a capital is
    left as it is. *)
Example tidy_latin_letter : _tidy_place_name "éa" = Some "Éa"%string.
Proof. reflexivity. Qed.

Example tidy_two_character_capital : _tidy_place_name "ŉa" = Some "ʼNa"%string.
Proof. reflexivity. Qed.

Example tidy_sharp_s : _tidy_place_name "ßen" = Some "SSen"%string.
Proof. reflexivity. Qed.

Example tidy_cyrillic : _tidy_place_name "ялта" = Some "Ялта"%string.
Proof. vm_compute. reflexivity. Qed.

Example tidy_no_capital : _tidy_place_name "中a" = Some "中a"%string.
Proof. vm_compute. reflexivity. Qed.

Example replace_no_overlap : PyStr.replace "aa" "b" "aaaaa" = "bba"%string.
Proof. reflexivity. Qed.

Example replace_empty_pattern : PyStr.replace "" "-" "aéb" = "-a-é-b-"%string.
Proof. reflexivity. Qed.

Lemma append_nonempty (a b : string) : a <> EmptyString -> a +:+ b <> EmptyString.
Proof. destruct a; [congruence | discriminate]. Qed.

Lemma replace_from_nonempty (old new : string) (c : ascii) (s : string) :
  new <> EmptyString -> PyStr.replace_from old new 0 (String c s) <> EmptyString.
Proof.
  intros Hnew. cbn [PyStr.replace_from].
  destruct (String.prefix old (String c s)).
  - now apply append_nonempty.
  - discriminate.
Qed.

Lemma interleave_nonempty (new s : string) :
  new <> EmptyString -> PyStr.interleave new s <> EmptyString.
Proof.
  intros Hnew. unfold PyStr.interleave.
  destruct s; cbn [PyStr.interleave_from]; [assumption |].
  now apply append_nonempty.
Qed.

(** A replacement by a non-empty string never empties a non-empty string. *)
Lemma replace_nonempty (old new s : string) :
  new <> EmptyString -> s <> EmptyString -> PyStr.replace old new s <> EmptyString.
Proof.
  intros Hnew Hs. unfold PyStr.replace. destruct old.
  - now apply interleave_nonempty.
  - destruct s; [congruence |]. now apply replace_from_nonempty.
Qed.

Lemma fold_replace_nonempty (f g : string -> string) (pats : list string) :
  Forall (fun p => g p <> EmptyString) pats ->
  forall s, s <> EmptyString ->
  fold_left (fun out p => PyStr.replace (f p) (g p) out) pats s <> EmptyString.
Proof.
  induction 1 as [| p pats Hp _ IH]; intros s Hs; cbn [fold_left].
  - assumption.
  - apply IH. now apply replace_nonempty.
Qed.

Lemma collapse_triples_nonempty (s : string) :
  s <> EmptyString -> collapse_triples s <> EmptyString.
Proof.
  unfold collapse_triples.
  apply (fold_replace_nonempty (fun ch => PyStr.repeat_str ch 3)
                               (fun ch => PyStr.repeat_str ch 2)).
  unfold alphabet. cbn. repeat (constructor; [discriminate |]). constructor.
Qed.

Lemma smooth_doubles_nonempty (s : string) :
  s <> EmptyString -> smooth_doubles s <> EmptyString.
Proof.
  unfold smooth_doubles.
  apply (fold_replace_nonempty (fun seq => seq) PyStr.first_char).
  unfold digraphs. repeat (constructor; [discriminate |]). constructor.
Qed.

(** The first character and the rest are the two parts of the text. *)
Lemma take_drop_bytes (n : nat) (s : string) :
  PyStr.take_bytes n s +:+ PyStr.drop_bytes n s = s.
Proof.
  revert s. induction n as [| n IH]; intros [| c s]; try reflexivity.
  cbn [PyStr.take_bytes PyStr.drop_bytes].
  change (String c (PyStr.take_bytes n s) +:+ PyStr.drop_bytes n s)
    with (String c (PyStr.take_bytes n s +:+ PyStr.drop_bytes n s)).
  now rewrite IH.
Qed.

Lemma char_width_positive (c : ascii) : (1 <= PyStr.char_width c)%nat.
Proof. unfold PyStr.char_width. cbn zeta. repeat case_match; lia. Qed.

Lemma char_width_ascii (c : ascii) :
  PyStr.is_ascii c = true -> PyStr.char_width c = 1%nat.
Proof.
  unfold PyStr.is_ascii, PyStr.char_width. cbn zeta. intros Hc.
  apply Nat.ltb_lt in Hc.
  destruct (Nat.ltb_spec (nat_of_ascii c) 192); [reflexivity | lia].
Qed.

(** An ASCII letter is put in upper case by the rule of the ASCII range:
    a lowercase letter becomes its capital, 32 places below, and nothing
    else changes; no capital is a lowercase letter. *)
Lemma upper_char_not_lower (c : ascii) : is_lower (PyStr.upper_char c) = false.
Proof. destruct c as [[] [] [] [] [] [] [] []]; reflexivity. Qed.

Lemma upper_char_of_lower (c : ascii) :
  is_lower c = true ->
  nat_of_ascii (PyStr.upper_char c) = (nat_of_ascii c - 32)%nat.
Proof.
  destruct c as [[] [] [] [] [] [] [] []]; intros Hl; try discriminate; reflexivity.
Qed.

Lemma upper_char_of_other (c : ascii) :
  is_lower c = false -> PyStr.upper_char c = c.
Proof.
  destruct c as [[] [] [] [] [] [] [] []]; intros Hl; try discriminate; reflexivity.
Qed.

Lemma upper_char_idempotent (c : ascii) :
  PyStr.upper_char (PyStr.upper_char c) = PyStr.upper_char c.
Proof.
  destruct c as [[] [] [] [] [] [] [] []]; reflexivity.
Qed.

Section TidyFacts.

Context `{CaseTable}.

(** On a text that starts with an ASCII character only that character
    changes. *)
Lemma capitalize_first_ascii (c : ascii) (rest : string) :
  PyStr.is_ascii c = true ->
  capitalize_first (String c rest) = Some (String (PyStr.upper_char c) rest).
Proof.
  intros Hc. unfold capitalize_first. cbn zeta.
  rewrite (char_width_ascii c Hc). cbn [PyStr.take_bytes PyStr.drop_bytes].
  now rewrite (upper_ascii c Hc).
Qed.

Lemma capitalize_first_nonempty (out res : string) :
  capitalize_first out = Some res -> res <> EmptyString.
Proof.
  destruct out as [| c out]; [discriminate |].
  unfold capitalize_first. cbn zeta. intros [= <-].
  apply append_nonempty, upper_nonempty.
  pose proof (char_width_positive c) as Hw.
  destruct (PyStr.char_width c); [lia | discriminate].
Qed.

(** The function returns on every input. *)
Lemma tidy_returns (raw : string) : exists out, _tidy_place_name raw = Some out.
Proof.
  destruct raw as [| c raw]; [now exists EmptyString |].
  cbn [_tidy_place_name].
  destruct (smooth_doubles (collapse_triples (String c raw))) as [| c' rest] eqn:E.
  - exfalso. revert E. apply smooth_doubles_nonempty, collapse_triples_nonempty.
    discriminate.
  - now eexists.
Qed.

(** What the function returns when the replacement steps leave an ASCII
    first character. *)
Lemma tidy_ascii_first (raw : string) (c : ascii) (rest out : string) :
  raw <> EmptyString ->
  smooth_doubles (collapse_triples raw) = String c rest ->
  PyStr.is_ascii c = true ->
  String (PyStr.upper_char c) rest = out ->
  _tidy_place_name raw = Some out.
Proof.
  intros Hraw Hsteps Hc <-. destruct raw as [| r raw]; [congruence |].
  cbn [_tidy_place_name]. rewrite Hsteps. now apply capitalize_first_ascii.
Qed.

(** C9. The tidy transform is total: on every input it returns a string and
    raises nothing. The empty string comes back unchanged. For a non-empty
    input the two replacement steps leave a non-empty string, and the result
    is the upper case of the first character of that string, as [str.upper]
    gives it, followed by the rest as the steps left it; the result is not
    empty. When that first character [c] is ASCII the result is [c], put in
    upper case, before the same rest: a lowercase letter is replaced by its
    capital, 32 places below, any other character stays, and the first
    character of the result is no lowercase letter. *)
Theorem tidy_total (raw : string) :
  match raw with
  | EmptyString => _tidy_place_name raw = Some EmptyString
  | String _ _ =>
      exists (c : ascii) (rest : string) (out : string),
        smooth_doubles (collapse_triples raw) = String c rest /\
        _tidy_place_name raw = Some out /\
        out <> EmptyString /\
        (let first := PyStr.take_bytes (PyStr.char_width c) (String c rest) in
         let tail := PyStr.drop_bytes (PyStr.char_width c) (String c rest) in
         first +:+ tail = String c rest /\
         out = str_upper first +:+ tail) /\
        (PyStr.is_ascii c = true ->
         out = String (PyStr.upper_char c) rest /\
         is_lower (PyStr.upper_char c) = false /\
         (is_lower c = true ->
          nat_of_ascii (PyStr.upper_char c) = (nat_of_ascii c - 32)%nat) /\
         (is_lower c = false -> PyStr.upper_char c = c))
  end.
Proof.
  destruct raw as [| r raw]; [reflexivity |].
  destruct (smooth_doubles (collapse_triples (String r raw))) as [| c rest] eqn:E.
  { exfalso. revert E. apply smooth_doubles_nonempty, collapse_triples_nonempty.
    discriminate. }
  destruct (capitalize_first (String c rest)) as [out |] eqn:Eout; [| discriminate].
  exists c, rest, out. split; [reflexivity |].
  split; [cbn [_tidy_place_name]; now rewrite E |].
  split; [now apply (capitalize_first_nonempty (String c rest)) |].
  split.
  - cbn zeta. split; [apply take_drop_bytes |].
    unfold capitalize_first in Eout. cbn zeta in Eout. now injection Eout as <-.
  - intros Hc. rewrite (capitalize_first_ascii c rest Hc) in Eout.
    injection Eout as <-. split; [reflexivity |].
    split; [apply upper_char_not_lower |].
    split; [apply upper_char_of_lower | apply upper_char_of_other].
Qed.

(** C1, on the code. A run of exactly three letters becomes two, but the
    single pass of [replace] leaves three of a run of four, and four of a
    run of five: [tidy("aaaa")] is ["Aaa"], and ["baaaa"] keeps a triple. *)
Theorem triple_collapse_single_pass :
  collapse_triples "aaa" = "aa"%string /\
  collapse_triples "aaaa" = "aaa"%string /\
  collapse_triples "aaaaa" = "aaaa"%string /\
  _tidy_place_name "aaa" = Some "Aa"%string /\
  _tidy_place_name "aaaa" = Some "Aaa"%string /\
  _tidy_place_name "baaaa" = Some "Baaa"%string.
Proof.
  repeat split; try reflexivity;
    (eapply tidy_ascii_first; [discriminate | reflexivity | reflexivity | reflexivity]).
Qed.

(** C8. The tidy transform is not idempotent: on ["xtttt"] the triple step
    leaves ["xttt"], the digraph step turns it into ["xtt"], which a second
    application collapses again. *)
Theorem tidy_not_idempotent :
  exists x y z : string,
    _tidy_place_name x = Some y /\ _tidy_place_name y = Some z /\ y <> z.
Proof.
  exists "xtttt"%string, "Xtt"%string, "Xt"%string.
  split; [| split; [| discriminate]];
    (eapply tidy_ascii_first; [discriminate | reflexivity | reflexivity | reflexivity]).
Qed.

End TidyFacts.

Example xtttt_steps :
  collapse_triples "xtttt" = "xttt"%string /\
  smooth_doubles "xttt" = "xtt"%string /\
  smooth_doubles "xtt" = "xt"%string.
Proof. repeat split; reflexivity. Qed.

(** ** The random source *)

Section RandomFacts.

Context {G : Type} `{RandomSource G}.

Lemma draw_below_spec (n : nat) (g : G) :
  (0 < n)%nat ->
  exists (j : nat) (g' : G), draw_below n g = (Return j, g') /\ (j < n)%nat.
Proof.
  intros Hn. unfold draw_below.
  pose proof (randbelow_lt n g Hn) as Hlt.
  destruct (randbelow n g) as [j g']. now exists j, g'.
Qed.

Lemma bind_return {A B : Type} (m : M G A) (f : A -> M G B) (g g' : G) (a : A) :
  m g = (Return a, g') -> bind m f g = f a g'.
Proof. intros E. unfold bind. now rewrite E. Qed.

Lemma bind_raise {A B : Type} (m : M G A) (f : A -> M G B) (g g' : G) (e : exn) :
  m g = (Raise e, g') -> bind m f g = (Raise e, g').
Proof. intros E. unfold bind. now rewrite E. Qed.

Lemma getindex_lookup (seq : list string) (j : nat) (x : string) (g : G) :
  seq !! j = Some x -> getindex seq j g = (Return x, g).
Proof. intros E. unfold getindex. now rewrite E. Qed.

(** [random.choice] on a non-empty sequence returns one of its items. *)
Lemma random_choice_spec (seq : list string) (g : G) :
  seq <> [] ->
  exists (x : string) (g' : G), random_choice seq g = (Return x, g') /\ x ∈ seq.
Proof.
  intros Hne. destruct seq as [| a seq]; [congruence |].
  unfold random_choice.
  destruct (draw_below_spec (length (a :: seq)) g) as (j & g' & Ej & Hj);
    [cbn; lia |].
  destruct (lookup_lt_is_Some_2 (a :: seq) j Hj) as [x Ex].
  exists x, g'. split.
  - rewrite (bind_return _ _ _ _ _ Ej). now apply getindex_lookup.
  - apply list_elem_of_lookup. now exists j.
Qed.

(** [random.randint] on a non-empty range returns a number of the range. *)
Lemma random_randint_spec (a b : Z) (g : G) :
  a <= b ->
  exists (k : Z) (g' : G), random_randint a b g = (Return k, g') /\ a <= k <= b.
Proof.
  intros Hab. unfold random_randint.
  destruct (Z.ltb_spec 0 (b + 1 - a)); [| lia].
  destruct (draw_below_spec (Z.to_nat (b + 1 - a)) g) as (j & g' & Ej & Hj);
    [lia |].
  exists (a + Z.of_nat j), g'. split; [| lia].
  now rewrite (bind_return _ _ _ _ _ Ej).
Qed.

Lemma random_randint_empty (a b : Z) (g : G) :
  b < a -> random_randint a b g = (Raise (ValueError (EmptyRange a b)), g).
Proof.
  intros Hab. unfold random_randint.
  destruct (Z.ltb_spec 0 (b + 1 - a)); [lia | reflexivity].
Qed.

(** Taking the item at [j] out of a list by moving the last item into its
    cell and dropping the last cell leaves the other items. *)
Lemma swap_remove_perm (pool : list string) (j : nat) (x y : string) :
  pool !! j = Some x ->
  pool !! (length pool - 1)%nat = Some y ->
  x :: take (length pool - 1) (<[j := y]> pool) ≡ₚ pool.
Proof.
  intros Hx Hy.
  assert (last pool = Some y) as Hlast
    by (rewrite last_lookup, <- Nat.sub_1_r; exact Hy).
  apply last_Some in Hlast as [init ->].
  rewrite length_app in *. cbn [length] in *.
  replace (length init + 1 - 1)%nat with (length init) in * by lia.
  destruct (decide (j < length init)%nat) as [Hlt | Hge].
  - rewrite lookup_app_l in Hx by assumption.
    rewrite insert_app_l by assumption.
    rewrite take_app_length' by now rewrite length_insert.
    destruct (list_elem_of_split_length init j x Hx) as (l1 & l2 & -> & Hlen).
    rewrite Hlen, insert_app_r_alt, Nat.sub_diag by lia. cbn.
    rewrite <- app_assoc. cbn. rewrite <- !Permutation_middle.
    rewrite app_nil_r. reflexivity.
  - assert (j = length init) as ->.
    { apply lookup_lt_Some in Hx. rewrite length_app in Hx. cbn in Hx. lia. }
    rewrite list_lookup_middle in Hx by reflexivity. injection Hx as <-.
    rewrite insert_app_r_alt, Nat.sub_diag by lia. cbn.
    rewrite take_app_length. apply Permutation_cons_append.
Qed.

(** The selection loop of [random.sample]: [k] items of the pool come out,
    each from a cell of its own, and the rest of the pool stays. *)
Lemma sample_loop_spec (k : nat) :
  forall (pool : list string) (g : G),
    (k <= length pool)%nat ->
    exists (res rest : list string) (g' : G),
      sample_loop k pool g = (Return res, g') /\
      length res = k /\ res ++ rest ≡ₚ pool.
Proof.
  induction k as [| k IH]; intros pool g Hk.
  - exists [], pool, g. repeat split; reflexivity.
  - cbn [sample_loop].
    destruct (draw_below_spec (length pool) g) as (j & g1 & Ej & Hj); [lia |].
    destruct (lookup_lt_is_Some_2 pool j Hj) as [x Ex].
    destruct (lookup_lt_is_Some_2 pool (length pool - 1)) as [y Ey]; [lia |].
    pose proof (swap_remove_perm pool j x y Ex Ey) as Hperm.
    set (pool' := take (length pool - 1) (<[j := y]> pool)) in *.
    assert (length pool' = (length pool - 1)%nat) as Hlen.
    { subst pool'. rewrite length_take, length_insert. lia. }
    destruct (IH pool' g1) as (res & rest & g2 & Eres & Hres & Hrest); [lia |].
    exists (x :: res), rest, g2. split; [| split].
    + rewrite (bind_return _ _ _ _ _ Ej).
      rewrite (bind_return _ _ _ _ _ (getindex_lookup pool j x g1 Ex)).
      rewrite (bind_return _ _ _ _ _ (getindex_lookup pool _ y g1 Ey)).
      fold pool'. now rewrite (bind_return _ _ _ _ _ Eres).
    + cbn. now rewrite Hres.
    + cbn. rewrite Hrest. exact Hperm.
Qed.

(** [random.sample(population, k)] for [0 <= k <= n]. *)
Lemma random_sample_spec (population : list string) (k : Z) (g : G) :
  0 <= k <= Z.of_nat (length population) ->
  exists (res rest : list string) (g' : G),
    random_sample population k g = (Return res, g') /\
    Z.of_nat (length res) = k /\ res ++ rest ≡ₚ population.
Proof.
  intros Hk. unfold random_sample.
  destruct (Z.leb_spec 0 k); [| lia].
  destruct (Z.leb_spec k (Z.of_nat (length population))); [| lia].
  cbn [andb].
  destruct (sample_loop_spec (Z.to_nat k) population g) as
    (res & rest & g' & E & Hlen & Hperm); [lia |].
  exists res, rest, g'. repeat split; [assumption | lia | assumption].
Qed.

Lemma random_sample_out_of_range (population : list string) (k : Z) (g : G) :
  k < 0 \/ Z.of_nat (length population) < k ->
  random_sample population k g = (Raise (ValueError SampleTooLarge), g).
Proof.
  intros Hk. unfold random_sample.
  destruct (Z.leb_spec 0 k); destruct (Z.leb_spec k (Z.of_nat (length population)));
    cbn [andb]; try reflexivity; lia.
Qed.

End RandomFacts.

(** ** Unique Picker *)

Lemma times_app (x : string) (l1 l2 : list string) :
  times x (l1 ++ l2) = (times x l1 + times x l2)%nat.
Proof. apply count_occ_app. Qed.

Lemma times_perm (x : string) (l1 l2 : list string) :
  l1 ≡ₚ l2 -> times x l1 = times x l2.
Proof. intros Hp. unfold times. now apply Permutation_count_occ. Qed.

Lemma times_rounds (x : string) (q : nat) (src : list string) :
  times x (rounds q src) = (q * times x src)%nat.
Proof.
  unfold rounds. induction q as [| q IH]; [reflexivity |].
  cbn [replicate concat]. rewrite times_app, IH. lia.
Qed.

Lemma length_rounds (q : nat) (src : list string) :
  length (rounds q src) = (q * length src)%nat.
Proof.
  unfold rounds. induction q as [| q IH]; [reflexivity |].
  cbn [replicate concat]. rewrite length_app, IH. lia.
Qed.

Lemma times_elem_of (x : string) (l : list string) : x ∈ l -> (1 <= times x l)%nat.
Proof.
  intros Hin. apply list_elem_of_In in Hin.
  apply (count_occ_In String.string_dec) in Hin. unfold times. lia.
Qed.

Lemma times_NoDup (x : string) (l : list string) : NoDup l -> (times x l <= 1)%nat.
Proof.
  intros Hnd. unfold times.
  apply NoDup_ListNoDup in Hnd.
  exact (proj1 (NoDup_count_occ String.string_dec l) Hnd x).
Qed.

Lemma drawn_from_elem_of (src res : list string) (x : string) :
  drawn_from src res -> x ∈ res -> x ∈ src.
Proof.
  intros [rest Hp] Hin. rewrite <- Hp. apply elem_of_app. now left.
Qed.

Lemma drawn_from_NoDup (src res : list string) :
  drawn_from src res -> NoDup src -> NoDup res.
Proof.
  intros [rest Hp] Hnd. rewrite <- Hp in Hnd.
  now apply NoDup_app in Hnd as [Hres _].
Qed.

Lemma drawn_from_length (src res : list string) :
  drawn_from src res -> (length res <= length src)%nat.
Proof.
  intros [rest Hp]. apply Permutation_length in Hp.
  rewrite length_app in Hp. lia.
Qed.

(** [pool.remove(x)] for an [x] of the pool takes one [x] out. *)
Lemma remove_first_elem_of (x : string) (l : list string) :
  x ∈ l -> exists l' : list string, remove_first x l = Some l' /\ l ≡ₚ x :: l'.
Proof.
  induction l as [| y l IH]; intros Hin; [now apply elem_of_nil in Hin |].
  cbn [remove_first]. destruct (String.eqb_spec y x) as [-> | Hne].
  - now exists l.
  - apply elem_of_cons in Hin as [-> | Hin]; [congruence |].
    destruct (IH Hin) as (l' & -> & Hp). exists (y :: l'). split; [reflexivity |].
    rewrite Hp. apply perm_swap.
Qed.

(** One turn of the loop keeps the rounds in order. *)
Lemma between_rounds_step (src pool result : list string) :
  src <> [] ->
  between_rounds src pool result ->
  let pool1 := match pool with [] => src | _ :: _ => pool end in
  pool1 <> [] /\
  forall (choice : string) (pool2 : list string),
    pool1 ≡ₚ choice :: pool2 ->
    between_rounds src pool2 (result ++ [choice]).
Proof.
  intros Hsrc (q & used & Hused & Hres). destruct pool as [| p pool]; cbn zeta.
  - split; [assumption |]. intros choice pool2 Hp.
    exists (S q), [choice]. split; [now rewrite Hp |].
    rewrite app_nil_r in Hused. rewrite Hres. unfold rounds.
    cbn [replicate concat]. fold (rounds q src). rewrite Hused.
    rewrite (Permutation_app_comm src). reflexivity.
  - split; [discriminate |]. intros choice pool2 Hp.
    exists q, (used ++ [choice]). split.
    + rewrite <- Hused, Hp, <- app_assoc. reflexivity.
    + rewrite Hres, app_assoc. reflexivity.
Qed.

Section PickerFacts.

Context {G : Type} `{RandomSource G}.

Lemma list_remove_elem_of (pool : list string) (x : string) (g : G) :
  x ∈ pool ->
  exists pool' : list string,
    list_remove pool x g = (Return pool', g) /\ pool ≡ₚ x :: pool'.
Proof.
  intros Hin. destruct (remove_first_elem_of x pool Hin) as (pool' & E & Hp).
  exists pool'. unfold list_remove. now rewrite E.
Qed.

(** The loop ends within [n - len(result)] turns, with [n] items. *)
Lemma pick_loop_spec (fuel : nat) :
  forall (src : list string) (n : Z) (pool result : list string) (g : G),
    src <> [] ->
    between_rounds src pool result ->
    Z.of_nat (length result) <= n ->
    (Z.to_nat n - length result <= fuel)%nat ->
    exists (res pool' : list string) (g' : G),
      pick_loop fuel src n pool result g = (Return res, g') /\
      Z.of_nat (length res) = n /\
      between_rounds src pool' res.
Proof.
  induction fuel as [| fuel IH]; intros src n pool result g Hsrc Hinv Hlen Hfuel.
  - exists result, pool, g. cbn [pick_loop].
    destruct (Z.ltb_spec (Z.of_nat (length result)) n); [lia |].
    repeat split; [lia | assumption].
  - cbn [pick_loop].
    destruct (Z.ltb_spec (Z.of_nat (length result)) n) as [Hlt | Hge].
    + destruct (between_rounds_step src pool result Hsrc Hinv) as [Hne Hstep].
      cbn zeta in Hne, Hstep.
      set (pool1 := match pool with [] => src | _ :: _ => pool end) in *.
      destruct (random_choice_spec pool1 g Hne) as (choice & g1 & Ec & Hin).
      destruct (list_remove_elem_of pool1 choice g1 Hin) as (pool2 & Er & Hp).
      destruct (IH src n pool2 (result ++ [choice]) g1) as
        (res & pool' & g' & E & Hres & Hinv'); try assumption.
      * now apply Hstep.
      * rewrite length_app. cbn. lia.
      * rewrite length_app. cbn. lia.
      * exists res, pool', g'. split; [| now split].
        rewrite (bind_return _ _ _ _ _ Ec), (bind_return _ _ _ _ _ Er).
        exact E.
    + exists result, pool, g. repeat split; [lia | assumption].
Qed.

(** The loop of the GUI copy is the loop of the command-line version. *)
Lemma gui_pick_loop_eq (fuel : nat) :
  forall (src : list string) (n : Z) (pool result : list string) (g : G),
    src <> [] ->
    Gui.pick_loop fuel src n pool result g = pick_loop fuel src n pool result g.
Proof.
  induction fuel as [| fuel IH]; intros src n pool result g Hsrc;
    cbn [Gui.pick_loop pick_loop];
    rewrite (bool_decide_eq_false_2 _ Hsrc), andb_true_r;
    destruct (Z.of_nat (length result) <? n); try reflexivity.
  unfold bind. destruct (random_choice _ g) as [[choice | e |] g1]; try reflexivity.
  destruct (list_remove _ choice g1) as [[pool2 | e |] g2]; try reflexivity.
  now apply IH.
Qed.

(** The two copies of [_pick_unique] return the same on every input. *)
Lemma gui_pick_unique_eq (src : list string) (n : Z) (g : G) :
  Gui._pick_unique src n g = _pick_unique src n g.
Proof.
  unfold Gui._pick_unique, _pick_unique.
  destruct (n <=? Z.of_nat (length src)); [reflexivity |].
  destruct src as [| s src].
  - destruct (Z.to_nat n); cbn [Gui.pick_loop];
      rewrite andb_false_r; reflexivity.
  - now apply gui_pick_loop_eq.
Qed.

(** What the rounds give for the number of times an item is picked. *)
Lemma between_rounds_count (src pool res : list string) :
  between_rounds src pool res ->
  exists (q : nat) (used : list string),
    (length res = q * length src + length used)%nat /\
    (length used + length pool = length src)%nat /\
    (forall x, times x res = q * times x src + times x used)%nat /\
    (forall x, times x used + times x pool = times x src)%nat.
Proof.
  intros (q & used & Hused & Hres). exists q, used. repeat split.
  - rewrite (Permutation_length Hres), length_app, length_rounds. reflexivity.
  - rewrite <- (Permutation_length Hused), length_app. reflexivity.
  - intros x. rewrite (times_perm x _ _ Hres), times_app, times_rounds.
    reflexivity.
  - intros x. rewrite <- (times_perm x _ _ Hused), times_app. reflexivity.
Qed.

Lemma length_zero_times (x : string) (l : list string) :
  length l = O -> times x l = O.
Proof. destruct l; [reflexivity | discriminate]. Qed.

(** Every item of the pool is picked at least [n // len(src)] times. *)
Lemma between_rounds_floor (src pool res : list string) (x : string) :
  between_rounds src pool res ->
  x ∈ src ->
  Z.of_nat (length res) / Z.of_nat (length src) <= Z.of_nat (times x res).
Proof.
  intros Hinv Hin.
  destruct (between_rounds_count src pool res Hinv) as
    (q & used & Hlen & Hup & Hres & Hsplit).
  pose proof (times_elem_of x src Hin) as Hc.
  assert (0 < length src)%nat as Hm by (destruct src; [inversion Hin | cbn; lia]).
  specialize (Hres x). specialize (Hsplit x).
  apply Z.lt_succ_r, Z.div_lt_upper_bound; [lia |].
  destruct (decide (length pool = O)) as [Hz | Hnz].
  - pose proof (length_zero_times x pool Hz). nia.
  - nia.
Qed.

(** With no repeated item in the pool, the counts differ by one at most. *)
Lemma between_rounds_balanced (src pool res : list string) :
  between_rounds src pool res -> NoDup src -> balanced src res.
Proof.
  intros Hinv Hnd x y Hx Hy.
  destruct (between_rounds_count src pool res Hinv) as
    (q & used & Hlen & Hup & Hres & Hsplit).
  pose proof (times_elem_of x src Hx). pose proof (times_NoDup x src Hnd).
  pose proof (times_elem_of y src Hy). pose proof (times_NoDup y src Hnd).
  pose proof (Hres x). pose proof (Hres y).
  pose proof (Hsplit x). pose proof (Hsplit y). nia.
Qed.

End PickerFacts.

Lemma elem_of_rounds (x : string) (q : nat) (src : list string) :
  x ∈ rounds q src -> x ∈ src.
Proof.
  unfold rounds. induction q as [| q IH]; cbn [replicate concat].
  - intros Hin. now apply elem_of_nil in Hin.
  - intros Hin. apply elem_of_app in Hin as [Hin | Hin]; [assumption | now apply IH].
Qed.

Lemma between_rounds_elem_of (src pool res : list string) (x : string) :
  between_rounds src pool res -> x ∈ res -> x ∈ src.
Proof.
  intros (q & used & Hused & Hres) Hin. rewrite Hres in Hin.
  apply elem_of_app in Hin as [Hin | Hin].
  - now apply elem_of_rounds in Hin.
  - rewrite <- Hused. apply elem_of_app. now left.
Qed.

Section PickerClaims.

Context {G : Type} `{RandomSource G}.

(** Asked for more than the pool holds, the picker goes round the pool. *)
Lemma pick_unique_rounds (src : list string) (n : Z) (g : G) :
  Z.of_nat (length src) < n ->
  src <> [] ->
  exists (res pool : list string) (g' : G),
    _pick_unique src n g = (Return res, g') /\
    Z.of_nat (length res) = n /\
    between_rounds src pool res.
Proof.
  intros Hn Hsrc. unfold _pick_unique.
  destruct (Z.leb_spec n (Z.of_nat (length src))); [lia |].
  destruct src as [| s src]; [congruence |].
  apply pick_loop_spec; [assumption | | cbn; lia | cbn; lia].
  exists O, []. split; reflexivity.
Qed.

(** Asked for no more than the pool holds, the picker samples it. *)
Lemma pick_unique_sample (src : list string) (n : Z) (g : G) :
  0 <= n <= Z.of_nat (length src) ->
  exists (res : list string) (g' : G),
    _pick_unique src n g = (Return res, g') /\
    Z.of_nat (length res) = n /\
    drawn_from src res.
Proof.
  intros Hn. unfold _pick_unique.
  destruct (Z.leb_spec n (Z.of_nat (length src))); [| lia].
  destruct (random_sample_spec src n g Hn) as (res & rest & g' & E & Hlen & Hp).
  exists res, g'. repeat split; [assumption | assumption |]. now exists rest.
Qed.

(** From a pool that is not empty the picker returns [n] items of the pool,
    whatever [n >= 0] is. *)
Lemma pick_unique_returns (src : list string) (n : Z) (g : G) :
  0 <= n ->
  src <> [] ->
  exists (res : list string) (g' : G),
    _pick_unique src n g = (Return res, g') /\
    Z.of_nat (length res) = n /\
    forall x : string, x ∈ res -> x ∈ src.
Proof.
  intros Hn Hsrc. destruct (Z.le_gt_cases n (Z.of_nat (length src))) as [Hle | Hgt].
  - destruct (pick_unique_sample src n g) as (res & g' & E & Hlen & Hd); [lia |].
    exists res, g'. repeat split; [assumption | assumption |].
    intros x. now apply drawn_from_elem_of.
  - destruct (pick_unique_rounds src n g Hgt Hsrc) as (res & pool & g' & E & Hlen & Hr).
    exists res, g'. repeat split; [assumption | assumption |].
    intros x. now apply (between_rounds_elem_of src pool).
Qed.

(** C5, as the code has it. For [0 <= n <= len(src)] both copies of the
    picker return the same list [res] of exactly [n] items, taken from [n]
    different cells of the pool and so all from the pool; the items are
    pairwise distinct whenever the pool holds no item twice; [n = 0] gives
    the empty list. *)
Theorem pick_within_pool (src : list string) (n : Z) (g : G) :
  0 <= n <= Z.of_nat (length src) ->
  exists (res : list string) (g' : G),
    _pick_unique src n g = (Return res, g') /\
    Gui._pick_unique src n g = (Return res, g') /\
    Z.of_nat (length res) = n /\
    drawn_from src res /\
    (forall x : string, x ∈ res -> x ∈ src) /\
    (NoDup src -> NoDup res) /\
    (n = 0 -> res = []).
Proof.
  intros Hn.
  destruct (pick_unique_sample src n g Hn) as (res & g' & E & Hlen & Hd).
  exists res, g'. split; [assumption |].
  split; [now rewrite gui_pick_unique_eq |].
  split; [assumption |]. split; [assumption |].
  split; [intros x; now apply drawn_from_elem_of |].
  split; [now apply drawn_from_NoDup |].
  intros ->. destruct res; [reflexivity | discriminate].
Qed.

(** C2, as the code has it. For [n > len(src)] both copies of the picker
    return the same list [res]: the empty list when the pool is empty, and
    otherwise a list of exactly [n] items in which every item of the pool is
    at least [n // len(src)] times and, when the pool holds no item twice,
    the counts of two items of the pool differ by one at most. *)
Theorem pick_beyond_pool (src : list string) (n : Z) (g : G) :
  Z.of_nat (length src) < n ->
  exists (res : list string) (g' : G),
    _pick_unique src n g = (Return res, g') /\
    Gui._pick_unique src n g = (Return res, g') /\
    match src with
    | [] => res = []
    | _ :: _ =>
        Z.of_nat (length res) = n /\
        (forall x : string,
            x ∈ src -> n / Z.of_nat (length src) <= Z.of_nat (times x res)) /\
        (NoDup src -> balanced src res)
    end.
Proof.
  intros Hn. destruct src as [| s src].
  - exists [], g. split; [| split; [rewrite gui_pick_unique_eq |]];
      try reflexivity; unfold _pick_unique;
      destruct (Z.leb_spec n (Z.of_nat (length (@nil string))));
      try reflexivity; cbn in *; lia.
  - destruct (pick_unique_rounds (s :: src) n g Hn) as
      (res & pool & g' & E & Hlen & Hr); [discriminate |].
    exists res, g'. split; [assumption |].
    split; [now rewrite gui_pick_unique_eq |].
    split; [assumption |]. split.
    + intros x Hx. rewrite <- Hlen. now apply (between_rounds_floor _ pool).
    + now apply (between_rounds_balanced _ pool).
Qed.

End PickerClaims.

Lemma pick_within_pool_witness :
  0 <= 2 <= Z.of_nat (length ["Ann"; "Bea"; "Cyd"]%string) /\
  exists (res : list string) (g' : Z),
    _pick_unique ["Ann"; "Bea"; "Cyd"]%string 2 7 = (Return res, g') /\
    Gui._pick_unique ["Ann"; "Bea"; "Cyd"]%string 2 7 = (Return res, g') /\
    Z.of_nat (length res) = 2 /\
    drawn_from ["Ann"; "Bea"; "Cyd"]%string res /\
    (forall x : string, x ∈ res -> x ∈ ["Ann"; "Bea"; "Cyd"]%string) /\
    (NoDup ["Ann"; "Bea"; "Cyd"]%string -> NoDup res) /\
    (2 = 0 -> res = []).
Proof.
  split; [cbn; lia |].
  apply (pick_within_pool ["Ann"; "Bea"; "Cyd"]%string 2 (7 : Z)). cbn. lia.
Defined.

(** C5 as it is written fails on a pool that holds a name twice: the two
    items picked are the same name. *)
Lemma repeated_name_sampled_twice :
  0 <= 2 <= Z.of_nat (length ["Ann"; "Ann"]%string) /\
  _pick_unique ["Ann"; "Ann"]%string 2 tt = (Return ["Ann"; "Ann"]%string, tt) /\
  Gui._pick_unique ["Ann"; "Ann"]%string 2 tt = (Return ["Ann"; "Ann"]%string, tt) /\
  ~ NoDup ["Ann"; "Ann"]%string.
Proof.
  split; [cbn; lia |]. split; [reflexivity |]. split; [reflexivity |].
  intros Hnd. apply NoDup_cons in Hnd as [Hnotin _]. apply Hnotin.
  apply list_elem_of_here.
Qed.

Lemma pick_beyond_pool_witness :
  Z.of_nat (length ["Ann"; "Bea"; "Cyd"]%string) < 8 /\
  exists (res : list string) (g' : Z),
    _pick_unique ["Ann"; "Bea"; "Cyd"]%string 8 7 = (Return res, g') /\
    Gui._pick_unique ["Ann"; "Bea"; "Cyd"]%string 8 7 = (Return res, g') /\
    Z.of_nat (length res) = 8 /\
    (forall x : string,
        x ∈ ["Ann"; "Bea"; "Cyd"]%string ->
        8 / Z.of_nat (length ["Ann"; "Bea"; "Cyd"]%string) <= Z.of_nat (times x res)) /\
    (NoDup ["Ann"; "Bea"; "Cyd"]%string -> balanced ["Ann"; "Bea"; "Cyd"]%string res).
Proof.
  split; [cbn; lia |].
  apply (pick_beyond_pool ["Ann"; "Bea"; "Cyd"]%string 8 (7 : Z)). cbn. lia.
Defined.

(** C2 as it is written fails on a pool that holds a name twice: with
    ["Ann"] in two cells, four picks can give it three times and ["Bea"]
    once. *)
Lemma repeated_name_unbalanced :
  Z.of_nat (length ["Ann"; "Ann"; "Bea"]%string) < 4 /\
  _pick_unique ["Ann"; "Ann"; "Bea"]%string 4 tt
    = (Return ["Ann"; "Ann"; "Bea"; "Ann"]%string, tt) /\
  times "Ann" ["Ann"; "Ann"; "Bea"; "Ann"]%string = 3%nat /\
  times "Bea" ["Ann"; "Ann"; "Bea"; "Ann"]%string = 1%nat /\
  ~ balanced ["Ann"; "Ann"; "Bea"]%string ["Ann"; "Ann"; "Bea"; "Ann"]%string.
Proof.
  split; [cbn; lia |]. split; [reflexivity |].
  split; [reflexivity |]. split; [reflexivity |].
  intros Hb. specialize (Hb "Ann"%string "Bea"%string).
  assert (times "Ann" ["Ann"; "Ann"; "Bea"; "Ann"]%string
          <= times "Bea" ["Ann"; "Ann"; "Bea"; "Ann"]%string + 1)%nat as Hle.
  { apply Hb; [apply list_elem_of_here |].
    do 2 apply list_elem_of_further. apply list_elem_of_here. }
  vm_compute in Hle. lia.
Qed.

(** ** Data Loader *)

Lemma place_from_json_lacking (obj : json) (kind : string) :
  lacks_place_roots kind obj ->
  exists e : exn, PlaceData_from_json obj kind = inl e /\ schema_error e.
Proof.
  intros [top Htag | top rec Htag Hfield | top rec v Htag Hfield Hshape];
    unfold PlaceData_from_json; cbn [subscript and_then reraise_key].
  - rewrite Htag. cbn. eexists. split; [reflexivity | exact I].
  - rewrite Htag. cbn. rewrite Hfield. cbn. eexists. split; [reflexivity | exact I].
  - rewrite Htag. cbn. rewrite Hfield. cbn.
    exists (ValueError PlaceRootsShape). split; [| exact I].
    destruct v as [| | | | [| r roots] |]; try reflexivity.
    now destruct (Hshape r roots).
Qed.

Lemma gui_place_from_json_lacking (obj : json) (kind : string) :
  lacks_place_roots kind obj ->
  GuiLoader.PlaceData_from_json obj kind = inl (ValueError (PlaceRootsShapeFor kind)).
Proof.
  intros [top Htag | top rec Htag Hfield | top rec v Htag Hfield Hshape];
    unfold GuiLoader.PlaceData_from_json; cbn [dict_get and_then].
  - rewrite Htag. cbn. rewrite lookup_empty. reflexivity.
  - rewrite Htag. cbn. rewrite Hfield. reflexivity.
  - rewrite Htag. cbn. rewrite Hfield. cbn.
    destruct v as [| | | | [| r roots] |]; try reflexivity.
    now destruct (Hshape r roots).
Qed.

Section GeneratorFacts.

Context {G : Type} `{RandomSource G} `{CaseTable}.

(** [__init__] stops at the first loader that raises. *)
Lemma init_place_failure (fs : files) (c : GeneratorConfig) (g : G) (e : exn) :
  _load_place_data fs (places_path_of c) (place_type c) = inl e ->
  exists g' : G, init fs c g = (Raise e, g').
Proof.
  intros E. unfold init. fold (places_path_of c). rewrite E.
  unfold bind, lift, raise. destruct (cfg_seed c) as [s |]; cbn; eauto.
Qed.

Lemma generation_call_init_failure (fs : files) (c : GeneratorConfig) (g g' : G)
    (e : exn) :
  init fs c g = (Raise e, g') -> generation_call fs c g = (Raise e, g').
Proof. intros E. unfold generation_call. now apply bind_raise. Qed.

End GeneratorFacts.

(** C7. A place document that lacks [place_roots] for the requested tag, or
    holds there something that is not a non-empty list, makes the loader of
    the command-line version raise the [KeyError] or [ValueError] of a schema
    failure and the loader of the GUI copy raise its [ValueError]; no
    [PlaceData] comes out, and a generation call over such a document raises
    the same schema failure in place of a bundle. *)
Theorem place_roots_schema_failure (obj : json) (kind : string) :
  lacks_place_roots kind obj ->
  (exists e : exn, PlaceData_from_json obj kind = inl e /\ schema_error e) /\
  GuiLoader.PlaceData_from_json obj kind
    = inl (ValueError (PlaceRootsShapeFor kind)) /\
  forall (G : Type) (R : RandomSource G) (U : CaseTable) (fs : files)
         (c : GeneratorConfig) (g : G),
    place_type c = kind ->
    fs (places_path_of c) = Some (Json obj) ->
    exists (e : exn) (g' : G),
      generation_call fs c g = (Raise e, g') /\ schema_error e.
Proof.
  intros Hlack. split; [now apply place_from_json_lacking |].
  split; [now apply gui_place_from_json_lacking |].
  intros G R U fs c g Hkind Hfile.
  destruct (place_from_json_lacking obj kind Hlack) as (e & E & He).
  destruct (init_place_failure fs c g e) as [g' Hinit].
  { unfold _load_place_data, _load_json. rewrite Hfile, Hkind. exact E. }
  exists e, g'. split; [| assumption]. now apply generation_call_init_failure.
Qed.

Lemma rootless_doc_lacks : lacks_place_roots "default" rootless_place_doc.
Proof.
  unfold rootless_place_doc.
  apply (lacks_field _ _ {[ "roots"%string := JList ["rav"%string] ]}).
  - apply lookup_singleton_eq.
  - now apply lookup_singleton_ne.
Qed.

Lemma place_roots_schema_failure_witness :
  lacks_place_roots "default" rootless_place_doc /\
  (exists e : exn,
      PlaceData_from_json rootless_place_doc "default" = inl e /\ schema_error e) /\
  GuiLoader.PlaceData_from_json rootless_place_doc "default"
    = inl (ValueError (PlaceRootsShapeFor "default")) /\
  forall (G : Type) (R : RandomSource G) (U : CaseTable) (fs : files)
         (c : GeneratorConfig) (g : G),
    place_type c = "default"%string ->
    fs (places_path_of c) = Some (Json rootless_place_doc) ->
    exists (e : exn) (g' : G),
      generation_call fs c g = (Raise e, g') /\ schema_error e.
Proof.
  split; [exact rootless_doc_lacks |].
  exact (place_roots_schema_failure rootless_place_doc "default" rootless_doc_lacks).
Defined.

Example rootless_generation_call :
  fst (generation_call rootless_files sample_config (0 : Z))
  = Raise (KeyError (MissingKey "plname" "default" "place_roots")).
Proof. vm_compute. reflexivity. Qed.

(** ** Bundle Generator *)

Example end_to_end_scenario :
  fst (generation_call sample_files sample_config (77 : Z))
  = Return {| village := "Woodrav";
              residents := {| res_male := ["Tom of Woodrav"%string];
                              res_female := ["Ann of Woodrav"%string] |} |}.
Proof. vm_compute. reflexivity. Qed.

Section GeneratorClaims.

Context {G : Type} `{RandomSource G} `{CaseTable}.

(** C3. With a seed in the configuration the first thing a generation call
    does is to put the random source in the state of that seed, so the call
    does not depend on the state the source was in: two calls with the same
    configuration and the same files give the same outcome, bundle or
    exception, and leave the source in the same state. *)
Theorem seeded_generation_deterministic (fs : files) (c : GeneratorConfig)
    (s : Z) (g1 g2 : G) :
  cfg_seed c = Some s ->
  generation_call fs c g1 = generation_call fs c g2.
Proof.
  intros Hs. unfold generation_call, init. rewrite Hs.
  unfold bind, random_seed. reflexivity.
Qed.

(** The village name is made of a number of roots of the range, taken from
    different cells of the root list. *)
Lemma generate_place_name_spec (self : NPCPlaceGenerator) (g : G) :
  min_roots (cfg self) <= max_roots (cfg self) ->
  0 <= min_roots (cfg self) ->
  max_roots (cfg self) <= Z.of_nat (length (place_roots (place_data self))) ->
  exists (name : string) (roots : list string) (g' : G),
    generate_place_name self g = (Return name, g') /\
    min_roots (cfg self) <= Z.of_nat (length roots) <= max_roots (cfg self) /\
    drawn_from (place_roots (place_data self)) roots /\
    _tidy_place_name (PyStr.join roots) = Some name.
Proof.
  intros Hrange Hmin Hmax. unfold generate_place_name.
  destruct (random_randint_spec _ _ g Hrange) as (k & g1 & Ek & Hk).
  destruct (random_sample_spec (place_roots (place_data self)) k g1) as
    (roots & rest & g2 & Er & Hlen & Hp); [lia |].
  destruct (tidy_returns (PyStr.join roots)) as [name Hname].
  exists name, roots, g2. split; [| split; [lia | split]].
  - rewrite (bind_return _ _ _ _ _ Ek), (bind_return _ _ _ _ _ Er).
    now rewrite Hname.
  - now exists rest.
  - assumption.
Qed.

(** The draws of [generate_place_name], one after the other. *)
Lemma generate_place_name_draws (self : NPCPlaceGenerator) (g : G) :
  min_roots (cfg self) <= max_roots (cfg self) ->
  0 <= min_roots (cfg self) ->
  max_roots (cfg self) <= Z.of_nat (length (place_roots (place_data self))) ->
  exists (k : Z) (roots rest : list string) (name : string) (g1 g2 : G),
    random_randint (min_roots (cfg self)) (max_roots (cfg self)) g = (Return k, g1) /\
    min_roots (cfg self) <= k <= max_roots (cfg self) /\
    random_sample (place_roots (place_data self)) k g1 = (Return roots, g2) /\
    Z.of_nat (length roots) = k /\
    roots ++ rest ≡ₚ place_roots (place_data self) /\
    _tidy_place_name (PyStr.join roots) = Some name /\
    generate_place_name self g = (Return name, g2).
Proof.
  intros Hrange Hmin Hmax. unfold generate_place_name.
  destruct (random_randint_spec _ _ g Hrange) as (k & g1 & Ek & Hk).
  destruct (random_sample_spec (place_roots (place_data self)) k g1) as
    (roots & rest & g2 & Er & Hlen & Hp); [lia |].
  destruct (tidy_returns (PyStr.join roots)) as [name Hname].
  exists k, roots, rest, name, g1, g2.
  repeat (split; [assumption |]).
  rewrite (bind_return _ _ _ _ _ Ek), (bind_return _ _ _ _ _ Er).
  now rewrite Hname.
Qed.

(** C4, as the code has it. With [1 <= min_roots <= max_roots <= len(roots)],
    counts that are not negative and name lists that are not empty,
    [generate_bundle] returns a bundle. Its village is the tidy transform of
    the concatenation of the list [random.sample] returns, which holds, in
    the order drawn, [k] roots taken from [k] different cells of the root
    list, [k] being the count [random.randint] drew in the range (pairwise
    distinct roots when the list holds no root twice). Its residents are the
    [num_male] names the picker then returns for the male list and the
    [num_female] names it returns after that for the female list, each
    followed by [" of "] and the village of the bundle. *)
Theorem generate_bundle_shape (self : NPCPlaceGenerator) (g : G) :
  1 <= min_roots (cfg self) <= max_roots (cfg self) ->
  max_roots (cfg self) <= Z.of_nat (length (place_roots (place_data self))) ->
  0 <= num_male (cfg self) ->
  0 <= num_female (cfg self) ->
  male (name_data self) <> [] ->
  female (name_data self) <> [] ->
  exists (b : Bundle) (k : Z) (roots males females : list string)
         (g1 g2 g3 g' : G),
    generate_bundle self g = (Return b, g') /\
    random_randint (min_roots (cfg self)) (max_roots (cfg self)) g = (Return k, g1) /\
    min_roots (cfg self) <= k <= max_roots (cfg self) /\
    random_sample (place_roots (place_data self)) k g1 = (Return roots, g2) /\
    Z.of_nat (length roots) = k /\
    drawn_from (place_roots (place_data self)) roots /\
    (NoDup (place_roots (place_data self)) -> NoDup roots) /\
    _tidy_place_name (PyStr.join roots) = Some (village b) /\
    _pick_unique (male (name_data self)) (num_male (cfg self)) g2
      = (Return males, g3) /\
    res_male (residents b) = of_village (village b) <$> males /\
    Z.of_nat (length males) = num_male (cfg self) /\
    (forall m : string, m ∈ males -> m ∈ male (name_data self)) /\
    _pick_unique (female (name_data self)) (num_female (cfg self)) g3
      = (Return females, g') /\
    res_female (residents b) = of_village (village b) <$> females /\
    Z.of_nat (length females) = num_female (cfg self) /\
    (forall f : string, f ∈ females -> f ∈ female (name_data self)).
Proof.
  intros Hrange Hmax Hnm Hnf Hm Hf.
  destruct (generate_place_name_draws self g) as
    (k & roots & rest & name & g1 & g2 & Ek & Hk & Er & Hlen & Hp & Ht & En);
    [lia | lia | lia |].
  destruct (pick_unique_returns (male (name_data self)) _ g2 Hnm Hm) as
    (males & g3 & Em & Hlm & Hinm).
  destruct (pick_unique_returns (female (name_data self)) _ g3 Hnf Hf) as
    (females & g4 & Ef & Hlf & Hinf).
  exists {| village := name;
            residents := {| res_male := of_village name <$> males;
                            res_female := of_village name <$> females |} |},
    k, roots, males, females, g1, g2, g3, g4.
  split.
  { unfold generate_bundle, generate_residents.
    rewrite (bind_return _ _ _ _ _ En).
    unfold bind at 1. unfold bind at 1. rewrite Em.
    unfold bind at 1. rewrite Ef. reflexivity. }
  cbn [village residents res_male res_female].
  assert (drawn_from (place_roots (place_data self)) roots) as Hd by now exists rest.
  repeat split; try assumption; try lia.
  now apply drawn_from_NoDup.
Qed.

(** C6, as the code has it. When the range of the root count is empty
    ([min_roots > max_roots]), or the count drawn is above the number of
    cells of the root list, [generate_bundle] raises the [ValueError] of the
    draw that fails and returns no bundle. *)
Theorem generate_bundle_range_failure (self : NPCPlaceGenerator) (g : G) :
  max_roots (cfg self) < min_roots (cfg self) \/
  (exists (k : Z) (g1 : G),
      random_randint (min_roots (cfg self)) (max_roots (cfg self)) g
        = (Return k, g1) /\
      Z.of_nat (length (place_roots (place_data self))) < k) ->
  exists (e : exn) (g' : G),
    generate_bundle self g = (Raise e, g') /\ range_error e.
Proof.
  intros [Hempty | (k & g1 & Ek & Hk)]; unfold generate_bundle, generate_place_name.
  - exists (ValueError (EmptyRange (min_roots (cfg self)) (max_roots (cfg self)))), g.
    split; [| exact I].
    apply bind_raise, bind_raise. now apply random_randint_empty.
  - exists (ValueError SampleTooLarge), g1. split; [| exact I].
    apply bind_raise. rewrite (bind_return _ _ _ _ _ Ek).
    apply bind_raise. apply random_sample_out_of_range. now right.
Qed.

End GeneratorClaims.

Lemma seeded_generation_deterministic_witness :
  cfg_seed sample_config = Some 1 /\
  generation_call sample_files sample_config (5 : Z)
  = generation_call sample_files sample_config (9 : Z).
Proof.
  split; [reflexivity |].
  exact (seeded_generation_deterministic sample_files sample_config 1 5 9 eq_refl).
Defined.

Lemma generate_bundle_shape_witness :
  (1 <= min_roots (cfg sample_generator) <= max_roots (cfg sample_generator)) /\
  max_roots (cfg sample_generator)
    <= Z.of_nat (length (place_roots (place_data sample_generator))) /\
  0 <= num_male (cfg sample_generator) /\
  0 <= num_female (cfg sample_generator) /\
  male (name_data sample_generator) <> [] /\
  female (name_data sample_generator) <> [] /\
  exists (b : Bundle) (k : Z) (roots males females : list string)
         (g1 g2 g3 g' : Z),
    generate_bundle sample_generator 7 = (Return b, g') /\
    random_randint (min_roots (cfg sample_generator))
                   (max_roots (cfg sample_generator)) 7 = (Return k, g1) /\
    min_roots (cfg sample_generator) <= k <= max_roots (cfg sample_generator) /\
    random_sample (place_roots (place_data sample_generator)) k g1
      = (Return roots, g2) /\
    Z.of_nat (length roots) = k /\
    drawn_from (place_roots (place_data sample_generator)) roots /\
    (NoDup (place_roots (place_data sample_generator)) -> NoDup roots) /\
    _tidy_place_name (PyStr.join roots) = Some (village b) /\
    _pick_unique (male (name_data sample_generator))
                 (num_male (cfg sample_generator)) g2 = (Return males, g3) /\
    res_male (residents b) = of_village (village b) <$> males /\
    Z.of_nat (length males) = num_male (cfg sample_generator) /\
    (forall m : string, m ∈ males -> m ∈ male (name_data sample_generator)) /\
    _pick_unique (female (name_data sample_generator))
                 (num_female (cfg sample_generator)) g3 = (Return females, g') /\
    res_female (residents b) = of_village (village b) <$> females /\
    Z.of_nat (length females) = num_female (cfg sample_generator) /\
    (forall f : string, f ∈ females -> f ∈ female (name_data sample_generator)).
Proof.
  assert (1 <= min_roots (cfg sample_generator) <= max_roots (cfg sample_generator))
    as H1 by (cbn; lia).
  assert (max_roots (cfg sample_generator)
          <= Z.of_nat (length (place_roots (place_data sample_generator))))
    as H2 by (cbn; lia).
  assert (0 <= num_male (cfg sample_generator)) as H3 by (cbn; lia).
  assert (0 <= num_female (cfg sample_generator)) as H4 by (cbn; lia).
  assert (male (name_data sample_generator) <> []) as H5 by discriminate.
  assert (female (name_data sample_generator) <> []) as H6 by discriminate.
  repeat (split; [assumption |]).
  exact (generate_bundle_shape sample_generator (7 : Z) H1 H2 H3 H4 H5 H6).
Defined.

(** The run of the sample generator from the state 7: two roots are drawn,
    "wood" and then "ford", and the village is their concatenation in that
    order, tidied. *)
Example generate_bundle_sample :
  random_randint 2 3 (7 : Z) = (Return 2, 1282168116) /\
  random_sample ["rav"; "en"; "wood"; "ford"]%string 2 (1282168116 : Z)
    = (Return ["wood"; "ford"]%string, 712265938) /\
  generate_bundle sample_generator (7 : Z)
  = (Return {| village := "Woodford";
               residents := {| res_male := ["Tom of Woodford"%string];
                               res_female := ["Ann of Woodford"%string] |} |},
     2131988640).
Proof. repeat split; vm_compute; reflexivity. Qed.

(** C4 as it is written fails when the root list holds a root twice: the
    configuration meets every condition of the claim, the village is made of
    the same root taken from two cells, and no two distinct roots of the list
    give it. *)
Lemma repeated_root_village :
  (1 <= min_roots (cfg repeated_root_generator)
     <= max_roots (cfg repeated_root_generator)) /\
  max_roots (cfg repeated_root_generator)
    <= Z.of_nat (length (place_roots (place_data repeated_root_generator))) /\
  generate_bundle repeated_root_generator tt
  = (Return {| village := "Ashash";
               residents := {| res_male := ["Tom of Ashash"%string];
                               res_female := ["Ann of Ashash"%string] |} |}, tt) /\
  ~ exists roots : list string,
      NoDup roots /\
      (forall r : string,
          r ∈ roots -> r ∈ place_roots (place_data repeated_root_generator)) /\
      2 <= Z.of_nat (length roots) <= 2 /\
      _tidy_place_name (PyStr.join roots) = Some "Ashash"%string.
Proof.
  split; [cbn; lia |]. split; [cbn; lia |]. split; [reflexivity |].
  intros (roots & Hnd & Hin & Hlen & _).
  destruct roots as [| a [| b [| c roots]]]; cbn in Hlen; try lia.
  assert (forall r : string, r ∈ ["ash"; "ash"]%string -> r = "ash"%string) as Hash.
  { intros r Hr. repeat (apply elem_of_cons in Hr as [-> | Hr]; [reflexivity |]).
    now apply elem_of_nil in Hr. }
  pose proof (Hash a (Hin a ltac:(apply list_elem_of_here))) as ->.
  pose proof (Hash b (Hin b ltac:(apply list_elem_of_further, list_elem_of_here))) as ->.
  apply NoDup_cons in Hnd as [Hnotin _]. apply Hnotin, list_elem_of_here.
Qed.

Lemma generate_bundle_range_failure_witness :
  (max_roots (cfg empty_range_generator) < min_roots (cfg empty_range_generator) \/
   (exists (k : Z) (g1 : Z),
       random_randint (min_roots (cfg empty_range_generator))
                      (max_roots (cfg empty_range_generator)) 7
         = (Return k, g1) /\
       Z.of_nat (length (place_roots (place_data empty_range_generator))) < k)) /\
  exists (e : exn) (g' : Z),
    generate_bundle empty_range_generator 7 = (Raise e, g') /\ range_error e.
Proof.
  assert (max_roots (cfg empty_range_generator)
          < min_roots (cfg empty_range_generator)) as Hlt by (cbn; lia).
  split; [now left |].
  exact (generate_bundle_range_failure empty_range_generator (7 : Z) (or_introl Hlt)).
Defined.

Example too_many_roots_failure :
  generate_bundle (generator_with ["rav"; "en"]%string ["Tom"%string] ["Ann"%string]
                                  3 3 1 1) tt
  = (Raise (ValueError SampleTooLarge), tt).
Proof. reflexivity. Qed.

(** C6 as it is written fails when the root list holds a root twice: the
    count drawn, 2, is above the number of distinct roots, 1, and a bundle is
    returned all the same. *)
Lemma repeated_root_still_returns :
  random_randint (min_roots (cfg repeated_root_generator))
                 (max_roots (cfg repeated_root_generator)) tt = (Return 2, tt) /\
  Z.of_nat (length (remove_dups (place_roots (place_data repeated_root_generator)))) < 2 /\
  generate_bundle repeated_root_generator tt
  = (Return {| village := "Ashash";
               residents := {| res_male := ["Tom of Ashash"%string];
                               res_female := ["Ann of Ashash"%string] |} |}, tt).
Proof.
  split; [reflexivity |]. split; [vm_compute; reflexivity | reflexivity].
Qed.

(** ** The picker on list objects *)

Lemma prefix_insert_fresh (st0 st : store) (l : loc) (v : list string) :
  st0 `prefix_of` st -> (length st0 <= l)%nat -> st0 `prefix_of` <[l := v]> st.
Proof.
  intros [ext ->] Hl. exists (<[(l - length st0)%nat := v]> ext).
  now apply insert_app_r_alt.
Qed.

Section ObjectFacts.

Context {G : Type} `{RandomSource G}.

Lemma items_lookup (st : store) (l : loc) (v : list string) (g : G) :
  st !! l = Some v -> items l (st, g) = (Return v, (st, g)).
Proof. intros E. unfold items. now rewrite E. Qed.

(** The end of a turn, once [pool] names an object that is not empty:
    [choice = random.choice(pool)], [pool.remove(choice)],
    [result.append(choice)]. *)
Lemma pick_turn_end_sim (st0 st1 : store) (pool' result : loc)
    (pool1 rv : list string) (g : G) :
  st0 `prefix_of` st1 ->
  (length st0 <= pool')%nat ->
  (length st0 <= result)%nat ->
  pool' <> result ->
  st1 !! pool' = Some pool1 ->
  st1 !! result = Some rv ->
  match random_choice pool1 g with
  | (Return choice, g1) =>
      match remove_first choice pool1 with
      | Some pool2 =>
          exists st' : store,
            (choice <- choice_obj pool' ;;
             remove_obj pool' choice ;;;
             append_obj result choice ;;;
             ret pool') (st1, g) = (Return pool', (st', g1)) /\
            st0 `prefix_of` st' /\
            st' !! pool' = Some pool2 /\
            st' !! result = Some (rv ++ [choice])
      | None =>
          exists st' : store,
            (choice <- choice_obj pool' ;;
             remove_obj pool' choice ;;;
             append_obj result choice ;;;
             ret pool') (st1, g) = (Raise (ValueError NotInList), (st', g1)) /\
            st0 `prefix_of` st'
      end
  | (Raise e, g1) =>
      exists st' : store,
        (choice <- choice_obj pool' ;;
         remove_obj pool' choice ;;;
         append_obj result choice ;;;
         ret pool') (st1, g) = (Raise e, (st', g1)) /\
        st0 `prefix_of` st'
  | (OutOfFuel, g1) =>
      exists st' : store,
        (choice <- choice_obj pool' ;;
         remove_obj pool' choice ;;;
         append_obj result choice ;;;
         ret pool') (st1, g) = (OutOfFuel, (st', g1)) /\
        st0 `prefix_of` st'
  end.
Proof.
  intros Hpre1 Hpool' Hres Hne' Hp1 Hr1.
  assert (forall pool2 : list string,
             <[pool' := pool2]> st1 !! result = Some rv) as Hr2
    by (intros pool2; now rewrite list_lookup_insert_ne).
  unfold choice_obj, remove_obj, append_obj, items, drawing, set_items,
    ret, raise, bind.
  cbn beta iota. rewrite Hp1.
  destruct (random_choice pool1 g) as [[choice | e |] g1]; cbn beta iota.
  - rewrite Hp1. destruct (remove_first choice pool1) as [pool2 |]; cbn beta iota.
    + rewrite Hr2.
      exists (<[result := rv ++ [choice]]> (<[pool' := pool2]> st1)).
      split; [reflexivity |].
      split; [apply prefix_insert_fresh; [apply prefix_insert_fresh |]; assumption |].
      split.
      * rewrite list_lookup_insert_ne by congruence.
        apply list_lookup_insert_eq. now apply lookup_lt_Some in Hp1.
      * apply list_lookup_insert_eq. rewrite length_insert.
        now apply lookup_lt_Some in Hr1.
    + exists st1. split; [reflexivity | assumption].
  - exists st1. split; [reflexivity | assumption].
  - exists st1. split; [reflexivity | assumption].
Qed.

(** One turn of the loop on objects does what the turn on values does, and
    writes only to [pool], to [result] and to new objects. *)
Lemma pick_turn_obj_sim (st0 st : store) (src pool result : loc)
    (srcv pv rv : list string) (g : G) :
  st0 `prefix_of` st ->
  st0 !! src = Some srcv ->
  (length st0 <= pool)%nat ->
  (length st0 <= result)%nat ->
  pool <> result ->
  st !! pool = Some pv ->
  st !! result = Some rv ->
  let pool1 := match pv with [] => srcv | _ :: _ => pv end in
  match random_choice pool1 g with
  | (Return choice, g1) =>
      match remove_first choice pool1 with
      | Some pool2 =>
          exists (st' : store) (pool' : loc),
            pick_turn_obj src pool result (st, g) = (Return pool', (st', g1)) /\
            st0 `prefix_of` st' /\
            (length st0 <= pool')%nat /\
            pool' <> result /\
            st' !! pool' = Some pool2 /\
            st' !! result = Some (rv ++ [choice])
      | None =>
          exists st' : store,
            pick_turn_obj src pool result (st, g)
              = (Raise (ValueError NotInList), (st', g1)) /\
            st0 `prefix_of` st'
      end
  | (Raise e, g1) =>
      exists st' : store,
        pick_turn_obj src pool result (st, g) = (Raise e, (st', g1)) /\
        st0 `prefix_of` st'
  | (OutOfFuel, g1) =>
      exists st' : store,
        pick_turn_obj src pool result (st, g) = (OutOfFuel, (st', g1)) /\
        st0 `prefix_of` st'
  end.
Proof.
  intros Hpre Hsrc Hpool Hres Hne Hpv Hrv pool1.
  assert (st !! src = Some srcv) as Hsrc' by now apply (prefix_lookup_Some st0).
  unfold pick_turn_obj.
  rewrite (bind_return _ _ _ _ _ (items_lookup st pool pv g Hpv)).
  subst pool1. destruct pv as [| p pv].
  - assert ((s <- items src ;; new_list s) (st, g)
            = (Return (length st), (st ++ [srcv], g))) as Enew
      by now rewrite (bind_return _ _ _ _ _ (items_lookup st src srcv g Hsrc')).
    rewrite (bind_return _ _ _ _ _ Enew).
    pose proof (pick_turn_end_sim st0 (st ++ [srcv]) (length st) result srcv rv g)
      as Hend.
    assert (length st0 <= length st)%nat as Hlen by now apply prefix_length.
    assert (length st <> result) as Hne'
      by (apply lookup_lt_Some in Hrv; lia).
    specialize (Hend (prefix_app_r _ _ _ Hpre) Hlen Hres Hne'
                     (list_lookup_middle _ _ _ _ eq_refl)
                     (lookup_app_l_Some _ _ _ _ Hrv)).
    destruct (random_choice srcv g) as [[choice | e |] g1]; [| exact Hend ..].
    destruct (remove_first choice srcv) as [pool2 |]; [| exact Hend].
    destruct Hend as (st' & E & Hpre' & Hp' & Hr').
    exists st', (length st). repeat split; assumption.
  - assert (ret (G := store * G) pool (st, g) = (Return pool, (st, g))) as Eret
      by reflexivity.
    rewrite (bind_return _ _ _ _ _ Eret).
    pose proof (pick_turn_end_sim st0 st pool result (p :: pv) rv g
                  Hpre Hpool Hres Hne Hpv Hrv) as Hend.
    destruct (random_choice (p :: pv) g) as [[choice | e |] g1]; [| exact Hend ..].
    destruct (remove_first choice (p :: pv)) as [pool2 |]; [| exact Hend].
    destruct Hend as (st' & E & Hpre' & Hp' & Hr').
    exists st', pool. repeat split; assumption.
Qed.

(** The loop of the command-line version on objects does what the loop on
    values does, and leaves every object it did not make as it was. *)
Lemma pick_loop_obj_sim (fuel : nat) :
  forall (st0 st : store) (src : loc) (n : Z) (pool result : loc)
         (srcv pv rv : list string) (g : G),
    st0 `prefix_of` st ->
    st0 !! src = Some srcv ->
    (length st0 <= pool)%nat ->
    (length st0 <= result)%nat ->
    pool <> result ->
    st !! pool = Some pv ->
    st !! result = Some rv ->
    exists st' : store,
      st0 `prefix_of` st' /\
      returns_list (pick_loop_obj fuel src n pool result (st, g))
                   (pick_loop fuel srcv n pv rv g) st'.
Proof.
  induction fuel as [| fuel IH];
    intros st0 st src n pool result srcv pv rv g Hpre Hsrc Hpool Hres Hne Hpv Hrv;
    cbn [pick_loop_obj pick_loop];
    rewrite (bind_return _ _ _ _ _ (items_lookup st result rv g Hrv));
    destruct (Z.of_nat (length rv) <? n);
    try (exists st; split; [assumption |]; cbn; eauto; fail).
  pose proof (pick_turn_obj_sim st0 st src pool result srcv pv rv g
                Hpre Hsrc Hpool Hres Hne Hpv Hrv) as Hturn.
  cbn zeta in Hturn. unfold bind at 2. unfold bind at 2.
  destruct (random_choice _ g) as [[choice | e |] g1].
  - unfold list_remove. destruct (remove_first choice _) as [pool2 |].
    + destruct Hturn as (st1 & pool' & Eturn & Hpre1 & Hpool' & Hne' & Hp1 & Hr1).
      rewrite (bind_return _ _ _ _ _ Eturn). cbn [ret].
      now apply (IH st0 st1 src n pool' result srcv pool2 (rv ++ [choice]) g1).
    + destruct Hturn as (st1 & Eturn & Hpre1). exists st1. split; [assumption |].
      cbn. now apply bind_raise.
  - destruct Hturn as (st1 & Eturn & Hpre1). exists st1. split; [assumption |].
    cbn. now apply bind_raise.
  - destruct Hturn as (st1 & Eturn & Hpre1). exists st1. split; [assumption |].
    cbn. unfold bind. now rewrite Eturn.
Qed.

(** The same for the loop of the GUI copy. *)
Lemma gui_pick_loop_obj_sim (fuel : nat) :
  forall (st0 st : store) (src : loc) (n : Z) (pool result : loc)
         (srcv pv rv : list string) (g : G),
    st0 `prefix_of` st ->
    st0 !! src = Some srcv ->
    (length st0 <= pool)%nat ->
    (length st0 <= result)%nat ->
    pool <> result ->
    st !! pool = Some pv ->
    st !! result = Some rv ->
    exists st' : store,
      st0 `prefix_of` st' /\
      returns_list (gui_pick_loop_obj fuel src n pool result (st, g))
                   (Gui.pick_loop fuel srcv n pv rv g) st'.
Proof.
  induction fuel as [| fuel IH];
    intros st0 st src n pool result srcv pv rv g Hpre Hsrc Hpool Hres Hne Hpv Hrv;
    assert (st !! src = Some srcv) as Hsrc' by (now apply (prefix_lookup_Some st0));
    cbn [gui_pick_loop_obj Gui.pick_loop];
    rewrite (bind_return _ _ _ _ _ (items_lookup st result rv g Hrv));
    rewrite (bind_return _ _ _ _ _ (items_lookup st src srcv g Hsrc'));
    destruct ((Z.of_nat (length rv) <? n) && negb (bool_decide (srcv = [])));
    try (exists st; split; [assumption |]; cbn; eauto; fail).
  pose proof (pick_turn_obj_sim st0 st src pool result srcv pv rv g
                Hpre Hsrc Hpool Hres Hne Hpv Hrv) as Hturn.
  cbn zeta in Hturn. unfold bind at 2. unfold bind at 2.
  destruct (random_choice _ g) as [[choice | e |] g1].
  - unfold list_remove. destruct (remove_first choice _) as [pool2 |].
    + destruct Hturn as (st1 & pool' & Eturn & Hpre1 & Hpool' & Hne' & Hp1 & Hr1).
      rewrite (bind_return _ _ _ _ _ Eturn). cbn [ret].
      now apply (IH st0 st1 src n pool' result srcv pool2 (rv ++ [choice]) g1).
    + destruct Hturn as (st1 & Eturn & Hpre1). exists st1. split; [assumption |].
      cbn. now apply bind_raise.
  - destruct Hturn as (st1 & Eturn & Hpre1). exists st1. split; [assumption |].
    cbn. now apply bind_raise.
  - destruct Hturn as (st1 & Eturn & Hpre1). exists st1. split; [assumption |].
    cbn. unfold bind. now rewrite Eturn.
Qed.

End ObjectFacts.

Section ObjectClaims.

Context {G : Type} `{RandomSource G}.

Lemma sample_obj_sim (st : store) (src : loc) (srcv : list string) (k : Z) (g : G) :
  st !! src = Some srcv ->
  exists st' : store,
    st `prefix_of` st' /\
    returns_list (sample_obj src k (st, g)) (random_sample srcv k g) st'.
Proof.
  intros Hsrc. unfold sample_obj.
  rewrite (bind_return _ _ _ _ _ (items_lookup st src srcv g Hsrc)).
  unfold bind, drawing, new_list.
  destruct (random_sample srcv k g) as [[res | e |] g1]; cbn.
  - exists (st ++ [res]). split; [now apply prefix_app_r |].
    exists (length st). split; [reflexivity | now apply list_lookup_middle].
  - exists st. split; reflexivity.
  - exists st. split; reflexivity.
Qed.

Lemma pick_unique_obj_sim (st : store) (src : loc) (srcv : list string) (n : Z)
    (g : G) :
  st !! src = Some srcv ->
  exists st' : store,
    st `prefix_of` st' /\
    returns_list (pick_unique_obj src n (st, g)) (_pick_unique srcv n g) st'.
Proof.
  intros Hsrc. unfold pick_unique_obj, _pick_unique.
  rewrite (bind_return _ _ _ _ _ (items_lookup st src srcv g Hsrc)).
  destruct (n <=? Z.of_nat (length srcv)); [now apply sample_obj_sim |].
  assert (new_list [] (st, g) = (Return (length st), (st ++ [[]], g))) as Enew
    by reflexivity.
  rewrite (bind_return _ _ _ _ _ Enew).
  assert ((st ++ [[]]) !! src = Some srcv) as Hsrc1 by now apply lookup_app_l_Some.
  rewrite (bind_return _ _ _ _ _ (items_lookup _ src srcv g Hsrc1)).
  destruct srcv as [| s srcv].
  - exists (st ++ [[]]). split; [now apply prefix_app_r |].
    exists (length st). split; [reflexivity | now apply list_lookup_middle].
  - assert (new_list (s :: srcv) (st ++ [[]], g)
            = (Return (length (st ++ [[]])), ((st ++ [[]]) ++ [s :: srcv], g)))
      as Epool by reflexivity.
    rewrite (bind_return _ _ _ _ _ Epool).
    apply pick_loop_obj_sim.
    + apply prefix_app_r. now apply prefix_app_r.
    + assumption.
    + rewrite length_app. lia.
    + lia.
    + rewrite length_app. cbn. lia.
    + now apply list_lookup_middle.
    + apply lookup_app_l_Some. now apply list_lookup_middle.
Qed.

Lemma gui_pick_unique_obj_sim (st : store) (src : loc) (srcv : list string)
    (n : Z) (g : G) :
  st !! src = Some srcv ->
  exists st' : store,
    st `prefix_of` st' /\
    returns_list (gui_pick_unique_obj src n (st, g)) (Gui._pick_unique srcv n g) st'.
Proof.
  intros Hsrc. unfold gui_pick_unique_obj, Gui._pick_unique.
  rewrite (bind_return _ _ _ _ _ (items_lookup st src srcv g Hsrc)).
  destruct (n <=? Z.of_nat (length srcv)); [now apply sample_obj_sim |].
  assert (new_list [] (st, g) = (Return (length st), (st ++ [[]], g))) as Enew
    by reflexivity.
  rewrite (bind_return _ _ _ _ _ Enew).
  assert ((st ++ [[]]) !! src = Some srcv) as Hsrc1 by now apply lookup_app_l_Some.
  rewrite (bind_return _ _ _ _ _ (items_lookup _ src srcv g Hsrc1)).
  assert (new_list srcv (st ++ [[]], g)
          = (Return (length (st ++ [[]])), ((st ++ [[]]) ++ [srcv], g)))
    as Epool by reflexivity.
  rewrite (bind_return _ _ _ _ _ Epool).
  apply gui_pick_loop_obj_sim.
  - apply prefix_app_r. now apply prefix_app_r.
  - assumption.
  - rewrite length_app. lia.
  - lia.
  - rewrite length_app. cbn. lia.
  - now apply list_lookup_middle.
  - apply lookup_app_l_Some. now apply list_lookup_middle.
Qed.

(** C10. The picker never changes the list it is given. Run on the list
    object [src] of a store, each copy of [_pick_unique] does what it does on
    the items of [src] taken as a value (the same exception, or a list object
    holding the same result), and in the store it ends with every list that
    was there before the call, [src] among them, holds the same items in the
    same order: what is removed is removed from copies made during the
    call. *)
Theorem pick_unique_keeps_pool (st : store) (src : loc) (srcv : list string)
    (n : Z) (g : G) :
  st !! src = Some srcv ->
  exists st1 st2 : store,
    returns_list (pick_unique_obj src n (st, g)) (_pick_unique srcv n g) st1 /\
    returns_list (gui_pick_unique_obj src n (st, g)) (Gui._pick_unique srcv n g) st2 /\
    st1 !! src = Some srcv /\
    st2 !! src = Some srcv /\
    forall (l : loc) (v : list string),
      st !! l = Some v -> st1 !! l = Some v /\ st2 !! l = Some v.
Proof.
  intros Hsrc.
  destruct (pick_unique_obj_sim st src srcv n g Hsrc) as (st1 & Hpre1 & Hsim1).
  destruct (gui_pick_unique_obj_sim st src srcv n g Hsrc) as (st2 & Hpre2 & Hsim2).
  exists st1, st2. split; [assumption |]. split; [assumption |].
  split; [now apply (prefix_lookup_Some st) |].
  split; [now apply (prefix_lookup_Some st) |].
  intros l v Hl. split; now apply (prefix_lookup_Some st).
Qed.

End ObjectClaims.

Lemma pick_unique_keeps_pool_witness :
  [["Ann"; "Bea"]%string] !! 0%nat = Some ["Ann"; "Bea"]%string /\
  exists st1 st2 : store,
    returns_list (pick_unique_obj 0 5 ([["Ann"; "Bea"]%string], 7))
                 (_pick_unique ["Ann"; "Bea"]%string 5 7) st1 /\
    returns_list (gui_pick_unique_obj 0 5 ([["Ann"; "Bea"]%string], 7))
                 (Gui._pick_unique ["Ann"; "Bea"]%string 5 7) st2 /\
    st1 !! 0%nat = Some ["Ann"; "Bea"]%string /\
    st2 !! 0%nat = Some ["Ann"; "Bea"]%string /\
    forall (l : loc) (v : list string),
      [["Ann"; "Bea"]%string] !! l = Some v -> st1 !! l = Some v /\ st2 !! l = Some v.
Proof.
  split; [reflexivity |].
  exact (pick_unique_keeps_pool [["Ann"; "Bea"]%string] 0%nat
           ["Ann"; "Bea"]%string 5 (7 : Z) eq_refl).
Defined.


(** The store does model change in place: [remove] on the object of the
    pool itself would take the item out of the pool. *)
Example remove_obj_in_place :
  remove_obj 0 "Ann" ([["Ann"; "Bea"]%string], (7 : Z))
  = (Return tt, ([["Bea"%string]], 7)).
Proof. reflexivity. Qed.

Example pick_unique_obj_run :
  pick_unique_obj 0 5 ([["Ann"; "Bea"]%string], (7 : Z))
  = (Return 1%nat,
     ([["Ann"; "Bea"]; ["Ann"; "Bea"; "Ann"; "Bea"; "Bea"]; []; []; ["Ann"]]%string,
      2131988640)).
Proof. vm_compute. reflexivity. Qed.

(** * More properties *)

(** ** Strings *)

Lemma string_append_cons (x : ascii) (a b : string) :
  String x a +:+ b = String x (a +:+ b).
Proof. reflexivity. Qed.

Lemma string_length_append (a b : string) :
  String.length (a +:+ b) = (String.length a + String.length b)%nat.
Proof.
  induction a as [| c a IH]; [reflexivity |].
  rewrite string_append_cons. cbn [String.length]. now rewrite IH.
Qed.



Lemma prefix_true_length (a b : string) :
  String.prefix a b = true -> (String.length a <= String.length b)%nat.
Proof.
  revert a. induction b as [| y b IH]; intros [| x a]; cbn; try lia; try discriminate.
  destruct (ascii_dec x y); [| discriminate].
  intros Hp. apply IH in Hp. lia.
Qed.

(** A replacement by a string that is not longer than the one replaced
    does not lengthen the text; [skip] characters still to be stepped over
    are all dropped. *)
Lemma replace_from_length (old new : string) :
  (String.length new <= String.length old)%nat ->
  old <> EmptyString ->
  forall (s : string) (skip : nat),
    (String.length (PyStr.replace_from old new skip s)
       + Nat.min skip (String.length s) <= String.length s)%nat.
Proof.
  intros Hlen Hold. induction s as [| c s IH]; intros skip; cbn [PyStr.replace_from].
  - cbn. lia.
  - destruct skip as [| k].
    + destruct (String.prefix old (String c s)) eqn:Hp.
      * apply prefix_true_length in Hp. cbn [String.length] in *.
        rewrite string_length_append.
        specialize (IH (String.length old - 1)%nat).
        assert (0 < String.length old)%nat
          by (destruct old; [congruence | cbn; lia]).
        lia.
      * specialize (IH O). cbn [String.length] in *. lia.
    + specialize (IH k). cbn [String.length]. lia.
Qed.

Lemma replace_length (old new s : string) :
  (String.length new <= String.length old)%nat ->
  old <> EmptyString ->
  (String.length (PyStr.replace old new s) <= String.length s)%nat.
Proof.
  intros Hlen Hold. unfold PyStr.replace. destruct old as [| c old]; [congruence |].
  pose proof (replace_from_length (String c old) new Hlen Hold s O). lia.
Qed.

Lemma fold_replace_length (f g : string -> string) (pats : list string) :
  Forall (fun p => (String.length (g p) <= String.length (f p))%nat
                   /\ f p <> EmptyString) pats ->
  forall s : string,
    (String.length (fold_left (fun out p => PyStr.replace (f p) (g p) out) pats s)
     <= String.length s)%nat.
Proof.
  induction 1 as [| p pats [Hlen Hne] _ IH]; intros s; cbn [fold_left]; [lia |].
  specialize (IH (PyStr.replace (f p) (g p) s)).
  pose proof (replace_length (f p) (g p) s Hlen Hne). lia.
Qed.

Lemma collapse_triples_length (s : string) :
  (String.length (collapse_triples s) <= String.length s)%nat.
Proof.
  unfold collapse_triples.
  apply (fold_replace_length (fun ch => PyStr.repeat_str ch 3)
                             (fun ch => PyStr.repeat_str ch 2)).
  unfold alphabet. cbn.
  repeat (constructor; [split; [vm_compute; lia | discriminate] |]). constructor.
Qed.

Lemma smooth_doubles_length (s : string) :
  (String.length (smooth_doubles s) <= String.length s)%nat.
Proof.
  unfold smooth_doubles.
  apply (fold_replace_length (fun seq => seq) PyStr.first_char).
  unfold digraphs.
  repeat (constructor; [split; [vm_compute; lia | discriminate] |]). constructor.
Qed.

Lemma ascii_text_append (a b : string) :
  ascii_text (a +:+ b) = ascii_text a && ascii_text b.
Proof.
  induction a as [| c a IH]; [reflexivity |].
  rewrite string_append_cons. cbn [ascii_text]. now rewrite IH, andb_assoc.
Qed.

(** A replacement by an ASCII text keeps a text ASCII. *)
Lemma replace_from_ascii (old new : string) :
  ascii_text new = true ->
  forall (s : string) (skip : nat),
    ascii_text s = true -> ascii_text (PyStr.replace_from old new skip s) = true.
Proof.
  intros Hnew. induction s as [| c s IH]; intros skip Hs; [reflexivity |].
  cbn [ascii_text] in Hs. apply andb_true_iff in Hs as [Hc Hs].
  cbn [PyStr.replace_from]. destruct skip as [| k]; [| now apply IH].
  destruct (String.prefix old (String c s)).
  - rewrite ascii_text_append, Hnew. now apply IH.
  - cbn [ascii_text]. rewrite Hc. now apply IH.
Qed.

Lemma fold_replace_ascii (f g : string -> string) (pats : list string) :
  Forall (fun p => ascii_text (g p) = true /\ f p <> EmptyString) pats ->
  forall s : string,
    ascii_text s = true ->
    ascii_text (fold_left (fun out p => PyStr.replace (f p) (g p) out) pats s) = true.
Proof.
  induction 1 as [| p pats [Hg Hf] _ IH]; intros s Hs; cbn [fold_left];
    [assumption |].
  apply IH. unfold PyStr.replace. destruct (f p); [congruence |].
  now apply replace_from_ascii.
Qed.

Lemma collapse_triples_ascii (s : string) :
  ascii_text s = true -> ascii_text (collapse_triples s) = true.
Proof.
  unfold collapse_triples.
  apply (fold_replace_ascii (fun ch => PyStr.repeat_str ch 3)
                            (fun ch => PyStr.repeat_str ch 2)).
  unfold alphabet. cbn.
  repeat (constructor; [split; [reflexivity | discriminate] |]). constructor.
Qed.

Lemma smooth_doubles_ascii (s : string) :
  ascii_text s = true -> ascii_text (smooth_doubles s) = true.
Proof.
  unfold smooth_doubles.
  apply (fold_replace_ascii (fun seq => seq) PyStr.first_char).
  unfold digraphs.
  repeat (constructor; [split; [reflexivity | discriminate] |]). constructor.
Qed.

Lemma upper_char_ascii (c : ascii) :
  PyStr.is_ascii c = true -> PyStr.is_ascii (PyStr.upper_char c) = true.
Proof.
  destruct c as [[] [] [] [] [] [] [] []]; intros Hc; try discriminate; reflexivity.
Qed.

(** A pattern that starts with a doubled lowercase letter is nowhere in a
    text that has no doubled lowercase letter. *)
Lemma prefix_doubled_false (a : ascii) (r s : string) :
  is_lower a = true ->
  has_double_letter s = false ->
  String.prefix (String a (String a r)) s = false.
Proof.
  intros Ha. destruct s as [| c [| d s]]; cbn; try reflexivity.
  - intros _. destruct (ascii_dec a c); reflexivity.
  - destruct (ascii_dec a c) as [<- |]; [| reflexivity].
    rewrite Ha. cbn [andb].
    destruct (Ascii.eqb_spec a d) as [<- | Hne]; [discriminate |]. intros _.
    destruct (ascii_dec a d); [congruence | reflexivity].
Qed.

Lemma has_double_letter_tail (c : ascii) (s : string) :
  has_double_letter (String c s) = false -> has_double_letter s = false.
Proof.
  cbn. destruct s as [| d s]; [reflexivity |].
  destruct (is_lower c && Ascii.eqb c d); [discriminate | trivial].
Qed.

Lemma replace_from_no_double (a : ascii) (r new s : string) :
  is_lower a = true ->
  has_double_letter s = false ->
  PyStr.replace_from (String a (String a r)) new 0 s = s.
Proof.
  intros Ha. induction s as [| c s IH]; intros Hd; [reflexivity |].
  cbn [PyStr.replace_from]. rewrite (prefix_doubled_false a r _ Ha Hd).
  now rewrite IH by (now apply has_double_letter_tail in Hd).
Qed.

Lemma fold_replace_no_double (f g : string -> string) (pats : list string) :
  Forall (fun p => exists (a : ascii) (r : string),
              f p = String a (String a r) /\ is_lower a = true) pats ->
  forall s : string,
    has_double_letter s = false ->
    fold_left (fun out p => PyStr.replace (f p) (g p) out) pats s = s.
Proof.
  induction 1 as [| p pats (a & r & Hp & Ha) _ IH]; intros s Hd; cbn [fold_left];
    [reflexivity |].
  rewrite Hp. unfold PyStr.replace at 2.
  rewrite replace_from_no_double by assumption.
  now apply IH.
Qed.

Lemma steps_without_doubles (raw : string) :
  has_double_letter raw = false ->
  collapse_triples raw = raw /\ smooth_doubles raw = raw.
Proof.
  intros Hd. split.
  - unfold collapse_triples.
    apply (fold_replace_no_double (fun ch => PyStr.repeat_str ch 3)
                                  (fun ch => PyStr.repeat_str ch 2)); [| assumption].
    unfold alphabet. cbn.
    repeat (constructor; [eexists _, _; split; reflexivity |]). constructor.
  - unfold smooth_doubles.
    apply (fold_replace_no_double (fun seq => seq) PyStr.first_char); [| assumption].
    unfold digraphs.
    repeat (constructor; [eexists _, _; split; reflexivity |]). constructor.
Qed.

Section TidyMore.

Context `{CaseTable}.

(** X1. On a name of ASCII characters the tidy transform returns a name of
    ASCII characters that is at most as long, and that has a character when
    the name has one. *)
Theorem tidy_never_longer (raw : string) :
  ascii_text raw = true ->
  exists out : string,
    _tidy_place_name raw = Some out /\
    ascii_text out = true /\
    (String.length out <= String.length raw)%nat /\
    (raw = EmptyString <-> out = EmptyString).
Proof.
  intros Hraw. destruct raw as [| c raw].
  - exists EmptyString. repeat split; reflexivity.
  - cbn [_tidy_place_name].
    pose proof (collapse_triples_length (String c raw)) as H1.
    pose proof (smooth_doubles_length (collapse_triples (String c raw))) as H2.
    pose proof (smooth_doubles_ascii _ (collapse_triples_ascii _ Hraw)) as Ha.
    destruct (smooth_doubles (collapse_triples (String c raw))) as [| c' rest] eqn:E.
    + exfalso. revert E. apply smooth_doubles_nonempty, collapse_triples_nonempty.
      discriminate.
    + cbn [ascii_text] in Ha. apply andb_true_iff in Ha as [Hc' Hrest].
      exists (String (PyStr.upper_char c') rest).
      split; [now apply capitalize_first_ascii |].
      split; [cbn [ascii_text]; now rewrite (upper_char_ascii c' Hc'), Hrest |].
      split; [cbn [String.length] in *; lia |].
      split; discriminate.
Qed.

(** X2. When the replacement steps leave a name that starts with an ASCII
    character, the tidied name starts with a character that is no lowercase
    letter: the capital, 32 places below, of a lowercase letter, or the
    character itself; the rest is as the steps left it. *)
Theorem tidy_first_not_lower (raw : string) (c0 : ascii) (rest : string) :
  raw <> EmptyString ->
  smooth_doubles (collapse_triples raw) = String c0 rest ->
  PyStr.is_ascii c0 = true ->
  exists c : ascii,
    _tidy_place_name raw = Some (String c rest) /\
    is_lower c = false /\
    (is_lower c0 = true -> nat_of_ascii c = (nat_of_ascii c0 - 32)%nat) /\
    (is_lower c0 = false -> c = c0).
Proof.
  intros Hraw Hsteps Hc. exists (PyStr.upper_char c0).
  split; [now apply (tidy_ascii_first raw c0 rest) |].
  split; [apply upper_char_not_lower |].
  split; [apply upper_char_of_lower | apply upper_char_of_other].
Qed.

(** X3. A name in which no lowercase ASCII letter is followed by the same
    letter goes through the two replacement steps unchanged: the tidy
    transform only puts its first character in upper case, which for an ASCII
    first character changes that character alone. *)
Theorem tidy_without_doubles (raw : string) :
  has_double_letter raw = false ->
  collapse_triples raw = raw /\
  smooth_doubles raw = raw /\
  _tidy_place_name raw
  = match raw with
    | EmptyString => Some EmptyString
    | String _ _ => capitalize_first raw
    end /\
  match raw with
  | EmptyString => True
  | String c rest =>
      PyStr.is_ascii c = true ->
      _tidy_place_name raw = Some (String (PyStr.upper_char c) rest)
  end.
Proof.
  intros Hd. destruct (steps_without_doubles raw Hd) as [Ht Hs].
  split; [assumption |]. split; [assumption |].
  destruct raw as [| c rest]; [split; [reflexivity | exact I] |].
  cbn [_tidy_place_name]. rewrite Ht, Hs. split; [reflexivity |].
  apply capitalize_first_ascii.
Qed.

End TidyMore.

Lemma tidy_never_longer_witness :
  ascii_text "settland" = true /\
  exists out : string,
    _tidy_place_name "settland" = Some out /\
    ascii_text out = true /\
    (String.length out <= String.length "settland")%nat /\
    ("settland"%string = EmptyString <-> out = EmptyString).
Proof.
  split; [reflexivity |].
  exact (tidy_never_longer "settland" eq_refl).
Defined.

Lemma tidy_first_not_lower_witness :
  "ravenford"%string <> EmptyString /\
  smooth_doubles (collapse_triples "ravenford") = String "r" "avenford" /\
  PyStr.is_ascii "r" = true /\
  exists c : ascii,
    _tidy_place_name "ravenford" = Some (String c "avenford") /\
    is_lower c = false /\
    (is_lower "r" = true -> nat_of_ascii c = (nat_of_ascii "r" - 32)%nat) /\
    (is_lower "r" = false -> c = "r"%char).
Proof.
  assert ("ravenford"%string <> EmptyString) as Hne by discriminate.
  split; [exact Hne |]. split; [reflexivity |]. split; [reflexivity |].
  exact (tidy_first_not_lower "ravenford" "r" "avenford" Hne eq_refl eq_refl).
Defined.

Lemma tidy_without_doubles_witness :
  has_double_letter "ravenwod" = false /\
  collapse_triples "ravenwod" = "ravenwod"%string /\
  smooth_doubles "ravenwod" = "ravenwod"%string /\
  _tidy_place_name "ravenwod" = capitalize_first "ravenwod" /\
  (PyStr.is_ascii "r" = true ->
   _tidy_place_name "ravenwod" = Some (String (PyStr.upper_char "r") "avenwod")).
Proof.
  split; [reflexivity |].
  exact (tidy_without_doubles "ravenwod" eq_refl).
Defined.

Example tidy_without_doubles_latin :
  has_double_letter "éa" = false /\ _tidy_place_name "éa" = Some "Éa"%string.
Proof. split; reflexivity. Qed.

(** ** Unique Picker: the order of the picks *)

Lemma whole_rounds_length (src done : list string) :
  whole_rounds src done -> exists q : nat, length done = (q * length src)%nat.
Proof.
  induction 1 as [| done round _ [q Hq] Hround]; [now exists O |].
  exists (S q). rewrite length_app, Hq, (Permutation_length Hround). lia.
Qed.

(** The first round is a permutation of the pool. *)
Lemma whole_rounds_first (src done : list string) :
  src <> [] ->
  whole_rounds src done ->
  done <> [] ->
  take (length src) done ≡ₚ src.
Proof.
  intros Hsrc. induction 1 as [| done round Hdone IH Hround]; [congruence |].
  intros _. destruct done as [| d done].
  - cbn. rewrite <- (Permutation_length Hround), firstn_all. exact Hround.
  - destruct (whole_rounds_length src _ Hdone) as [q Hq].
    assert (length src <= length (d :: done))%nat as Hle.
    { rewrite Hq. destruct q as [| q]; [cbn in Hq; lia | lia]. }
    rewrite take_app_le by exact Hle. now apply IH.
Qed.

(** One turn of the loop keeps the picks in rounds. *)
Lemma in_rounds_step (src pool result : list string) (choice : string)
    (pool2 : list string) :
  in_rounds src pool result ->
  match pool with [] => src | _ :: _ => pool end ≡ₚ choice :: pool2 ->
  in_rounds src pool2 (result ++ [choice]).
Proof.
  intros (done & used & -> & Hdone & Hused) Hp. destruct pool as [| p pool].
  - rewrite app_nil_r in Hused.
    exists (done ++ used), [choice]. split; [reflexivity |].
    split; [now constructor | now rewrite Hp].
  - exists done, (used ++ [choice]). split; [now rewrite app_assoc |].
    split; [assumption |]. rewrite <- Hused, Hp, <- app_assoc. reflexivity.
Qed.

Section PickerOrder.

Context {G : Type} `{RandomSource G}.

(** The loop ends with [n] items, the picks in rounds. *)
Lemma pick_loop_in_rounds (fuel : nat) :
  forall (src : list string) (n : Z) (pool result : list string) (g : G),
    src <> [] ->
    in_rounds src pool result ->
    Z.of_nat (length result) <= n ->
    (Z.to_nat n - length result <= fuel)%nat ->
    exists (res pool' : list string) (g' : G),
      pick_loop fuel src n pool result g = (Return res, g') /\
      Z.of_nat (length res) = n /\
      in_rounds src pool' res.
Proof.
  induction fuel as [| fuel IH]; intros src n pool result g Hsrc Hinv Hlen Hfuel.
  - exists result, pool, g. cbn [pick_loop].
    destruct (Z.ltb_spec (Z.of_nat (length result)) n); [lia |].
    repeat split; [lia | assumption].
  - cbn [pick_loop].
    destruct (Z.ltb_spec (Z.of_nat (length result)) n) as [Hlt | Hge].
    + set (pool1 := match pool with [] => src | _ :: _ => pool end) in *.
      assert (pool1 <> []) as Hne by (subst pool1; now destruct pool).
      destruct (random_choice_spec pool1 g Hne) as (choice & g1 & Ec & Hin).
      destruct (list_remove_elem_of pool1 choice g1 Hin) as (pool2 & Er & Hp).
      destruct (IH src n pool2 (result ++ [choice]) g1) as
        (res & pool' & g' & E & Hres & Hinv'); try assumption.
      * now apply (in_rounds_step src pool).
      * rewrite length_app. cbn. lia.
      * rewrite length_app. cbn. lia.
      * exists res, pool', g'. split; [| now split].
        rewrite (bind_return _ _ _ _ _ Ec), (bind_return _ _ _ _ _ Er).
        exact E.
    + exists result, pool, g. repeat split; [lia | assumption].
Qed.

(** X4. Asked for more names than the pool holds, the picker goes round the
    pool: the list returned (the same for both copies) is made of whole
    rounds, each a permutation of the pool, followed by the picks of a last
    round, taken from different cells of the pool. So no name comes a second
    time before every cell of the pool was used once: the first [len(src)]
    picks are a permutation of the pool. *)
Theorem pick_round_by_round (src : list string) (n : Z) (g : G) :
  src <> [] ->
  Z.of_nat (length src) < n ->
  exists (res done used : list string) (g' : G),
    _pick_unique src n g = (Return res, g') /\
    Gui._pick_unique src n g = (Return res, g') /\
    res = done ++ used /\
    whole_rounds src done /\
    drawn_from src used /\
    take (length src) res ≡ₚ src.
Proof.
  intros Hsrc Hn.
  assert (exists (res pool : list string) (g' : G),
             _pick_unique src n g = (Return res, g') /\
             Z.of_nat (length res) = n /\ in_rounds src pool res)
    as (res & pool & g' & E & Hlen & (done & used & -> & Hdone & Hused)).
  { unfold _pick_unique.
    destruct (Z.leb_spec n (Z.of_nat (length src))); [lia |].
    destruct src as [| s src]; [congruence |].
    apply pick_loop_in_rounds; [assumption | | cbn; lia | cbn; lia].
    exists [], []. repeat split; [constructor | reflexivity]. }
  exists (done ++ used), done, used, g'.
  split; [assumption |]. split; [now rewrite gui_pick_unique_eq |].
  split; [reflexivity |]. split; [assumption |].
  split; [now exists pool |].
  assert (length used <= length src)%nat as Hu.
  { rewrite <- (Permutation_length Hused), length_app. lia. }
  destruct done as [| d done].
  - rewrite length_app in Hlen. cbn in Hlen. lia.
  - destruct (whole_rounds_length src _ Hdone) as [q Hq].
    assert (length src <= length (d :: done))%nat as Hle.
    { rewrite Hq. destruct q as [| q]; [cbn in Hq; lia | lia]. }
    rewrite take_app_le by exact Hle.
    now apply whole_rounds_first.
Qed.

(** X5. Asked for exactly as many names as the pool holds, the picker
    returns the pool in some order: every cell once (both copies). *)
Theorem pick_whole_pool (src : list string) (n : Z) (g : G) :
  n = Z.of_nat (length src) ->
  exists (res : list string) (g' : G),
    _pick_unique src n g = (Return res, g') /\
    Gui._pick_unique src n g = (Return res, g') /\
    res ≡ₚ src.
Proof.
  intros Hn.
  destruct (pick_unique_sample src n g) as (res & g' & E & Hlen & [rest Hp]); [lia |].
  exists res, g'. split; [assumption |]. split; [now rewrite gui_pick_unique_eq |].
  assert (rest = []) as ->.
  { apply Permutation_length in Hp. rewrite length_app in Hp.
    destruct rest; [reflexivity | cbn in Hp; lia]. }
  now rewrite app_nil_r in Hp.
Qed.

(** X6. A negative count is an error in both copies: [random.sample]
    raises [ValueError] before any draw. *)
Theorem pick_negative_count (src : list string) (n : Z) (g : G) :
  n < 0 ->
  _pick_unique src n g = (Raise (ValueError SampleTooLarge), g) /\
  Gui._pick_unique src n g = (Raise (ValueError SampleTooLarge), g).
Proof.
  intros Hn.
  assert (_pick_unique src n g = (Raise (ValueError SampleTooLarge), g)) as E.
  { unfold _pick_unique. destruct (Z.leb_spec n (Z.of_nat (length src))); [| lia].
    apply random_sample_out_of_range. now left. }
  split; [assumption | now rewrite gui_pick_unique_eq].
Qed.

End PickerOrder.

Lemma pick_round_by_round_witness :
  ["Ann"; "Bea"; "Cyd"]%string <> [] /\
  Z.of_nat (length ["Ann"; "Bea"; "Cyd"]%string) < 8 /\
  exists (res done used : list string) (g' : Z),
    _pick_unique ["Ann"; "Bea"; "Cyd"]%string 8 7 = (Return res, g') /\
    Gui._pick_unique ["Ann"; "Bea"; "Cyd"]%string 8 7 = (Return res, g') /\
    res = done ++ used /\
    whole_rounds ["Ann"; "Bea"; "Cyd"]%string done /\
    drawn_from ["Ann"; "Bea"; "Cyd"]%string used /\
    take (length ["Ann"; "Bea"; "Cyd"]%string) res ≡ₚ ["Ann"; "Bea"; "Cyd"]%string.
Proof.
  assert (["Ann"; "Bea"; "Cyd"]%string <> []) as H1 by discriminate.
  assert (Z.of_nat (length ["Ann"; "Bea"; "Cyd"]%string) < 8) as H2 by (cbn; lia).
  split; [assumption |]. split; [assumption |].
  exact (pick_round_by_round ["Ann"; "Bea"; "Cyd"]%string 8 (7 : Z) H1 H2).
Defined.

Lemma pick_whole_pool_witness :
  3 = Z.of_nat (length ["Ann"; "Bea"; "Cyd"]%string) /\
  exists (res : list string) (g' : Z),
    _pick_unique ["Ann"; "Bea"; "Cyd"]%string 3 7 = (Return res, g') /\
    Gui._pick_unique ["Ann"; "Bea"; "Cyd"]%string 3 7 = (Return res, g') /\
    res ≡ₚ ["Ann"; "Bea"; "Cyd"]%string.
Proof.
  split; [reflexivity |].
  exact (pick_whole_pool ["Ann"; "Bea"; "Cyd"]%string 3 (7 : Z) eq_refl).
Defined.

Lemma pick_negative_count_witness :
  -1 < 0 /\
  _pick_unique ["Ann"; "Bea"]%string (-1) (7 : Z)
    = (Raise (ValueError SampleTooLarge), 7) /\
  Gui._pick_unique ["Ann"; "Bea"]%string (-1) (7 : Z)
    = (Raise (ValueError SampleTooLarge), 7).
Proof.
  assert (-1 < 0) as Hn by lia.
  split; [assumption |].
  exact (pick_negative_count ["Ann"; "Bea"]%string (-1) (7 : Z) Hn).
Defined.

(** ** Data Loader: when it succeeds, and how it fails *)

Lemma place_from_json_inr (obj : json) (kind : string) (roots : list string) :
  PlaceData_from_json obj kind = inr {| place_roots := roots |}
  <-> place_doc_of kind roots obj.
Proof.
  split.
  - unfold PlaceData_from_json, subscript, and_then, reraise_key.
    intros E. loader_cases E; simplify_eq.
    eexists _, _. repeat split; eauto.
  - intros (top & rec & -> & Htag & Hroots & Hne).
    unfold PlaceData_from_json, subscript, and_then, reraise_key.
    rewrite Htag, Hroots. destruct roots; [congruence | reflexivity].
Qed.

Lemma gui_place_from_json_inr (obj : json) (kind : string) (roots : list string) :
  GuiLoader.PlaceData_from_json obj kind = inr {| place_roots := roots |}
  <-> place_doc_of kind roots obj.
Proof.
  split.
  - unfold GuiLoader.PlaceData_from_json, dict_get, and_then, default_or.
    intros E. loader_cases E; simplify_eq;
      try match goal with
          | Hl : ∅ !! _ = Some _ |- _ => rewrite lookup_empty in Hl; discriminate
          end.
    eexists _, _. repeat split; eauto.
  - intros (top & rec & -> & Htag & Hroots & Hne).
    unfold GuiLoader.PlaceData_from_json, dict_get, and_then, default_or.
    rewrite Htag, Hroots. destruct roots; [congruence | reflexivity].
Qed.

Lemma name_from_json_inr (obj : json) (kind : string) (males females : list string) :
  NameData_from_json obj kind = inr {| male := males; female := females |}
  <-> name_doc_of kind males females obj.
Proof.
  split.
  - unfold NameData_from_json, subscript, and_then, reraise_key.
    intros E. loader_cases E; simplify_eq.
    eexists _, _. repeat split; eauto.
  - intros (top & rec & -> & Htag & Hm & Hf & Hnm & Hnf).
    unfold NameData_from_json, subscript, and_then, reraise_key.
    rewrite Htag, Hm, Hf.
    destruct males; [congruence |]. destruct females; [congruence | reflexivity].
Qed.

Lemma gui_name_from_json_inr (obj : json) (kind : string)
    (males females : list string) :
  GuiEngine.NameData_from_json obj kind = inr {| male := males; female := females |}
  <-> name_doc_of kind males females obj.
Proof.
  split.
  - unfold GuiEngine.NameData_from_json, GuiEngine.core, dict_get, and_then,
      default_or.
    intros E. loader_cases E; simplify_eq;
      try match goal with
          | Hl : ∅ !! _ = Some _ |- _ => rewrite lookup_empty in Hl; discriminate
          end.
    eexists _, _. repeat split; eauto.
  - intros (top & rec & -> & Htag & Hm & Hf & Hnm & Hnf).
    unfold GuiEngine.NameData_from_json, GuiEngine.core, dict_get, and_then,
      default_or.
    rewrite Htag, Hm, Hf.
    destruct males; [congruence |]. destruct females; [congruence | reflexivity].
Qed.

(** X7. The place loader succeeds exactly on a document that is an object
    whose record for the tag is an object whose [place_roots] is a non-empty
    list, and what it returns is that list. The two copies agree on this;
    they differ only in the exceptions of the other documents. *)
Theorem place_loader_success (obj : json) (kind : string) (pd : PlaceData) :
  (PlaceData_from_json obj kind = inr pd
   <-> place_doc_of kind (place_roots pd) obj) /\
  (GuiLoader.PlaceData_from_json obj kind = inr pd
   <-> place_doc_of kind (place_roots pd) obj).
Proof.
  destruct pd as [roots]. cbn [place_roots].
  split; [apply place_from_json_inr | apply gui_place_from_json_inr].
Qed.

(** X8. The name loader succeeds exactly on a document that is an object
    whose record for the tag is an object whose [male] and [female] are both
    non-empty lists, and what it returns are those two lists; the two copies
    agree on this. *)
Theorem name_loader_success (obj : json) (kind : string) (nd : NameData) :
  (NameData_from_json obj kind = inr nd
   <-> name_doc_of kind (male nd) (female nd) obj) /\
  (GuiEngine.NameData_from_json obj kind = inr nd
   <-> name_doc_of kind (male nd) (female nd) obj).
Proof.
  destruct nd as [males females]. cbn [male female].
  split; [apply name_from_json_inr | apply gui_name_from_json_inr].
Qed.

(** X9. The exceptions of the loaders of the command-line version: a
    [TypeError] when the document or the record is no object; a [KeyError]
    whose message names the document, the tag and the key that is missing,
    never the bare [KeyError] of the subscript; or the [ValueError] of the
    shape. Nothing else is raised. *)
Theorem cli_loader_exceptions (obj : json) (kind : string) (e : exn) :
  PlaceData_from_json obj kind = inl e \/ NameData_from_json obj kind = inl e ->
  e = TypeError \/
  (exists key : string,
      e = KeyError (MissingKey "plname" kind key) /\
      (key = kind \/ key = "place_roots"%string) /\
      PlaceData_from_json obj kind = inl e) \/
  (exists key : string,
      e = KeyError (MissingKey "name" kind key) /\
      (key = kind \/ key = "male"%string \/ key = "female"%string) /\
      NameData_from_json obj kind = inl e) \/
  (e = ValueError PlaceRootsShape /\ PlaceData_from_json obj kind = inl e) \/
  ((e = ValueError NamesNotLists \/ e = ValueError NamesEmpty) /\
   NameData_from_json obj kind = inl e).
Proof.
  intros [E | E]; pose proof E as E'.
  - unfold PlaceData_from_json, subscript, and_then, reraise_key in E.
    loader_cases E; simplify_eq; eauto 10.
  - unfold NameData_from_json, subscript, and_then, reraise_key in E.
    loader_cases E; simplify_eq; eauto 12.
Qed.

Lemma cli_loader_exceptions_witness :
  (PlaceData_from_json rootless_place_doc "default"
     = inl (KeyError (MissingKey "plname" "default" "place_roots"))
   \/ NameData_from_json rootless_place_doc "default"
     = inl (KeyError (MissingKey "plname" "default" "place_roots"))) /\
  (KeyError (MissingKey "plname" "default" "place_roots") = TypeError \/
   (exists key : string,
       KeyError (MissingKey "plname" "default" "place_roots")
         = KeyError (MissingKey "plname" "default" key) /\
       (key = "default"%string \/ key = "place_roots"%string) /\
       PlaceData_from_json rootless_place_doc "default"
         = inl (KeyError (MissingKey "plname" "default" "place_roots"))) \/
   (exists key : string,
       KeyError (MissingKey "plname" "default" "place_roots")
         = KeyError (MissingKey "name" "default" key) /\
       (key = "default"%string \/ key = "male"%string \/ key = "female"%string) /\
       NameData_from_json rootless_place_doc "default"
         = inl (KeyError (MissingKey "plname" "default" "place_roots"))) \/
   (KeyError (MissingKey "plname" "default" "place_roots")
      = ValueError PlaceRootsShape /\
    PlaceData_from_json rootless_place_doc "default"
      = inl (KeyError (MissingKey "plname" "default" "place_roots"))) \/
   ((KeyError (MissingKey "plname" "default" "place_roots") = ValueError NamesNotLists
     \/ KeyError (MissingKey "plname" "default" "place_roots") = ValueError NamesEmpty) /\
    NameData_from_json rootless_place_doc "default"
      = inl (KeyError (MissingKey "plname" "default" "place_roots")))).
Proof.
  assert (PlaceData_from_json rootless_place_doc "default"
          = inl (KeyError (MissingKey "plname" "default" "place_roots"))) as E
    by (vm_compute; reflexivity).
  split; [now left |].
  exact (cli_loader_exceptions rootless_place_doc "default" _ (or_introl E)).
Defined.

(** X10. The exceptions of the loaders of the GUI copy: an
    [AttributeError] when the document or the record is no object, or the
    [ValueError] of the shape, with the tag in its message. A missing tag or
    key is never a [KeyError] there: [get] turns it into the [ValueError]. *)
Theorem gui_loader_exceptions (obj : json) (kind : string) (e : GuiEngine.gui_exn) :
  GuiEngine.core (GuiLoader.PlaceData_from_json obj kind) = inl e
  \/ GuiEngine.NameData_from_json obj kind = inl e ->
  e = GuiEngine.Core AttributeError \/
  (e = GuiEngine.Core (ValueError (PlaceRootsShapeFor kind)) /\
   GuiLoader.PlaceData_from_json obj kind
     = inl (ValueError (PlaceRootsShapeFor kind))) \/
  ((e = GuiEngine.NamesNotListsFor kind \/ e = GuiEngine.NamesEmptyFor kind) /\
   GuiEngine.NameData_from_json obj kind = inl e).
Proof.
  intros [E | E]; pose proof E as E'.
  - clear E'. destruct (GuiLoader.PlaceData_from_json obj kind) as [e0 | pd] eqn:EP;
      cbn in E; simplify_eq.
    pose proof EP as EP'.
    unfold GuiLoader.PlaceData_from_json, dict_get, and_then, default_or in EP.
    loader_cases EP; simplify_eq; eauto 10.
  - unfold GuiEngine.NameData_from_json, GuiEngine.core, dict_get, and_then,
      default_or in E.
    loader_cases E; simplify_eq; eauto 10.
Qed.

Lemma gui_loader_exceptions_witness :
  (GuiEngine.core (GuiLoader.PlaceData_from_json rootless_place_doc "default")
     = inl (GuiEngine.Core (ValueError (PlaceRootsShapeFor "default")))
   \/ GuiEngine.NameData_from_json rootless_place_doc "default"
     = inl (GuiEngine.Core (ValueError (PlaceRootsShapeFor "default")))) /\
  (GuiEngine.Core (ValueError (PlaceRootsShapeFor "default"))
     = GuiEngine.Core AttributeError \/
   (GuiEngine.Core (ValueError (PlaceRootsShapeFor "default"))
      = GuiEngine.Core (ValueError (PlaceRootsShapeFor "default")) /\
    GuiLoader.PlaceData_from_json rootless_place_doc "default"
      = inl (ValueError (PlaceRootsShapeFor "default"))) \/
   ((GuiEngine.Core (ValueError (PlaceRootsShapeFor "default"))
       = GuiEngine.NamesNotListsFor "default"
     \/ GuiEngine.Core (ValueError (PlaceRootsShapeFor "default"))
       = GuiEngine.NamesEmptyFor "default") /\
    GuiEngine.NameData_from_json rootless_place_doc "default"
      = inl (GuiEngine.Core (ValueError (PlaceRootsShapeFor "default"))))).
Proof.
  assert (GuiEngine.core (GuiLoader.PlaceData_from_json rootless_place_doc "default")
          = inl (GuiEngine.Core (ValueError (PlaceRootsShapeFor "default")))) as E
    by (vm_compute; reflexivity).
  split; [now left |].
  exact (gui_loader_exceptions rootless_place_doc "default" _ (or_introl E)).
Defined.

(** ** Bundle Generator: a whole generation call *)

Section CallFacts.

Context {G : Type} `{RandomSource G} `{CaseTable}.

(** The state of the random source once [__init__] has looked at the seed. *)
Lemma init_unfold (fs : files) (c : GeneratorConfig) (g : G) :
  init fs c g =
  let g1 := match cfg_seed c with Some s => seed s | None => g end in
  match _load_place_data fs (places_path_of c) (place_type c) with
  | inl e => (Raise e, g1)
  | inr pd =>
      match _load_name_data fs (names_path_of c) (name_type c) with
      | inl e => (Raise e, g1)
      | inr nd =>
          (Return {| cfg := c; places_path := places_path_of c;
                     names_path := names_path_of c;
                     place_data := pd; name_data := nd |}, g1)
      end
  end.
Proof.
  unfold init, bind, lift, random_seed, ret, raise.
  fold (places_path_of c). fold (names_path_of c).
  destruct (cfg_seed c);
    destruct (_load_place_data fs (places_path_of c) (place_type c));
    destruct (_load_name_data fs (names_path_of c) (name_type c)); reflexivity.
Qed.

Lemma generation_call_unfold (fs : files) (c : GeneratorConfig) (g : G) :
  generation_call fs c g =
  match init fs c g with
  | (Return gen, g1) => generate_bundle gen g1
  | (Raise e, g1) => (Raise e, g1)
  | (OutOfFuel, g1) => (OutOfFuel, g1)
  end.
Proof. reflexivity. Qed.

Lemma load_place_data_inr (fs : files) (path kind : string) (roots : list string) :
  _load_place_data fs path kind = inr {| place_roots := roots |}
  <-> exists obj : json, fs path = Some (Json obj) /\ place_doc_of kind roots obj.
Proof.
  unfold _load_place_data, _load_json, and_then. split.
  - intros E. destruct (fs path) as [[| | | obj] |]; try discriminate.
    exists obj. split; [reflexivity | now apply place_from_json_inr].
  - intros (obj & -> & Hdoc). now apply place_from_json_inr.
Qed.

Lemma load_name_data_inr (fs : files) (path kind : string)
    (males females : list string) :
  _load_name_data fs path kind = inr {| male := males; female := females |}
  <-> exists obj : json,
      fs path = Some (Json obj) /\ name_doc_of kind males females obj.
Proof.
  unfold _load_name_data, _load_json, and_then. split.
  - intros E. destruct (fs path) as [[| | | obj] |]; try discriminate.
    exists obj. split; [reflexivity | now apply name_from_json_inr].
  - intros (obj & -> & Hdoc). now apply name_from_json_inr.
Qed.

Lemma gui_load_place_data_inr (fs : files) (c : GeneratorConfig)
    (roots : list string) :
  GuiEngine._load_place_data fs (data_dir c) (place_type c)
    = inr {| place_roots := roots |}
  <-> exists obj : json,
      fs (places_path_of c) = Some (Json obj) /\
      place_doc_of (place_type c) roots obj.
Proof.
  unfold GuiEngine._load_place_data, GuiEngine._load_json, GuiEngine.core.
  fold (places_path_of c). split.
  - intros E. destruct (fs (places_path_of c)) as [[| | | obj] |]; try discriminate.
    exists obj. split; [reflexivity |].
    apply gui_place_from_json_inr.
    destruct (GuiLoader.PlaceData_from_json obj (place_type c)); congruence.
  - intros (obj & -> & Hdoc). apply gui_place_from_json_inr in Hdoc. now rewrite Hdoc.
Qed.

Lemma gui_load_name_data_inr (fs : files) (c : GeneratorConfig)
    (males females : list string) :
  GuiEngine._load_name_data fs (data_dir c) (name_type c)
    = inr {| male := males; female := females |}
  <-> exists obj : json,
      fs (names_path_of c) = Some (Json obj) /\
      name_doc_of (name_type c) males females obj.
Proof.
  unfold GuiEngine._load_name_data, GuiEngine._load_json.
  fold (names_path_of c). split.
  - intros E. destruct (fs (names_path_of c)) as [[| | | obj] |]; try discriminate.
    exists obj. split; [reflexivity | now apply gui_name_from_json_inr].
  - intros (obj & -> & Hdoc). now apply gui_name_from_json_inr.
Qed.

(** X11. What [__init__] establishes. The constructor returns a generator
    exactly when both documents are there, parse, and have the expected
    shape; the generator then keeps the configuration and the two paths,
    holds the lists of the documents, none of them empty, and the random
    source is in the state of the seed when there is one and untouched when
    there is none. *)
Theorem init_returns_iff (fs : files) (c : GeneratorConfig) (g g' : G)
    (gen : NPCPlaceGenerator) :
  init fs c g = (Return gen, g') <->
  cfg gen = c /\
  places_path gen = places_path_of c /\
  names_path gen = names_path_of c /\
  g' = match cfg_seed c with Some s => seed s | None => g end /\
  exists pobj nobj : json,
    fs (places_path_of c) = Some (Json pobj) /\
    place_doc_of (place_type c) (place_roots (place_data gen)) pobj /\
    fs (names_path_of c) = Some (Json nobj) /\
    name_doc_of (name_type c) (male (name_data gen)) (female (name_data gen)) nobj.
Proof.
  rewrite init_unfold. cbn zeta. split.
  - destruct (_load_place_data fs (places_path_of c) (place_type c))
      as [e | [roots]] eqn:Ep; [discriminate |].
    destruct (_load_name_data fs (names_path_of c) (name_type c))
      as [e | [males females]] eqn:En; [discriminate |].
    intros [= <- <-]. cbn.
    apply load_place_data_inr in Ep as (pobj & Hp & Hpd).
    apply load_name_data_inr in En as (nobj & Hn & Hnd).
    repeat split; try reflexivity. now exists pobj, nobj.
  - destruct gen as [c0 pp np [roots] [males females]]. cbn.
    intros (-> & -> & -> & -> & pobj & nobj & Hp & Hpd & Hn & Hnd).
    rewrite (proj2 (load_place_data_inr fs _ _ roots)) by now exists pobj.
    rewrite (proj2 (load_name_data_inr fs _ _ males females)) by now exists nobj.
    reflexivity.
Qed.

(** The bundle of a generator depends on its counts and lists only. *)
Lemma generate_bundle_returns (self : NPCPlaceGenerator) (g : G) :
  1 <= min_roots (cfg self) <= max_roots (cfg self) ->
  max_roots (cfg self) <= Z.of_nat (length (place_roots (place_data self))) ->
  0 <= num_male (cfg self) ->
  0 <= num_female (cfg self) ->
  male (name_data self) <> [] ->
  female (name_data self) <> [] ->
  exists (b : Bundle) (g' : G),
    generate_bundle self g = (Return b, g') /\
    Z.of_nat (length (res_male (residents b))) = num_male (cfg self) /\
    Z.of_nat (length (res_female (residents b))) = num_female (cfg self).
Proof.
  intros Hrange Hmax Hnm Hnf Hm Hf.
  destruct (generate_place_name_spec self g) as
    (name & roots & g1 & En & Hk & Hd & Ht); [lia | lia | lia |].
  destruct (pick_unique_returns (male (name_data self)) _ g1 Hnm Hm) as
    (males & g2 & Em & Hlm & Hinm).
  destruct (pick_unique_returns (female (name_data self)) _ g2 Hnf Hf) as
    (females & g3 & Ef & Hlf & Hinf).
  exists {| village := name;
            residents := {| res_male := of_village name <$> males;
                            res_female := of_village name <$> females |} |}, g3.
  split.
  { unfold generate_bundle, generate_residents.
    rewrite (bind_return _ _ _ _ _ En).
    unfold bind at 1. unfold bind at 1. rewrite Em.
    unfold bind at 1. rewrite Ef. reflexivity. }
  cbn [village residents res_male res_female]. rewrite !length_fmap. now split.
Qed.

(** X12. A whole generation call succeeds on sound inputs: when both
    documents have the expected shape, the root range lies between 1 and the
    number of roots and the two counts are not negative, the call returns a
    bundle with exactly [num_male] male and [num_female] female residents. *)
Theorem generation_call_returns (fs : files) (c : GeneratorConfig) (g : G)
    (pobj nobj : json) (roots males females : list string) :
  fs (places_path_of c) = Some (Json pobj) ->
  place_doc_of (place_type c) roots pobj ->
  fs (names_path_of c) = Some (Json nobj) ->
  name_doc_of (name_type c) males females nobj ->
  1 <= min_roots c <= max_roots c ->
  max_roots c <= Z.of_nat (length roots) ->
  0 <= num_male c ->
  0 <= num_female c ->
  exists (b : Bundle) (g' : G),
    generation_call fs c g = (Return b, g') /\
    Z.of_nat (length (res_male (residents b))) = num_male c /\
    Z.of_nat (length (res_female (residents b))) = num_female c.
Proof.
  intros Hp Hpd Hn Hnd Hrange Hmax Hnm Hnf.
  rewrite generation_call_unfold, init_unfold. cbn zeta.
  rewrite (proj2 (load_place_data_inr fs _ _ roots)) by now exists pobj.
  rewrite (proj2 (load_name_data_inr fs _ _ males females)) by now exists nobj.
  destruct Hnd as (top & rec & _ & _ & _ & _ & Hnem & Hnef).
  now apply generate_bundle_returns.
Qed.

(** X13. The seed does nothing but set the random source: a call with the
    seed [s], from any state of the source, is the call with no seed from
    the state [seed s]. *)
Theorem seeded_call_is_unseeded_call (fs : files) (c : GeneratorConfig) (s : Z)
    (g : G) :
  cfg_seed c = Some s ->
  generation_call fs c g = generation_call fs (unseeded c) (seed s).
Proof.
  intros Hs. rewrite !generation_call_unfold, !init_unfold. rewrite Hs. cbn zeta.
  change (places_path_of (unseeded c)) with (places_path_of c).
  change (names_path_of (unseeded c)) with (names_path_of c).
  change (place_type (unseeded c)) with (place_type c).
  change (name_type (unseeded c)) with (name_type c).
  change (cfg_seed (unseeded c)) with (@None Z). cbn iota.
  destruct (_load_place_data fs (places_path_of c) (place_type c)); [reflexivity |].
  destruct (_load_name_data fs (names_path_of c) (name_type c)); reflexivity.
Qed.

(** X14. The place document is loaded first and the first failure is the
    one raised. A place path with nothing there gives [FileNotFoundError]
    with that path; one that cannot be opened gives the [OSError] of [open],
    bytes that are no UTF-8 text the [UnicodeDecodeError] of the decoding,
    and a text that is not JSON the [ValueError] with the path: each of them
    whatever the name document is. The same failures of the name document
    are raised, with the name path, only when the place document has
    loaded. *)
Theorem generation_call_load_order (fs : files) (c : GeneratorConfig) (g : G) :
  let failure (path : string) (f : option file) : option exn :=
    match f with
    | None => Some (FileNotFoundError path)
    | Some Unopenable => Some OSError
    | Some Undecodable => Some UnicodeDecodeError
    | Some NotJson => Some (ValueError (InvalidJson path))
    | Some (Json _) => None
    end in
  match failure (places_path_of c) (fs (places_path_of c)) with
  | Some e => exists g' : G, generation_call fs c g = (Raise e, g')
  | None =>
      forall roots : list string,
        (exists pobj : json,
            fs (places_path_of c) = Some (Json pobj) /\
            place_doc_of (place_type c) roots pobj) ->
        match failure (names_path_of c) (fs (names_path_of c)) with
        | Some e => exists g' : G, generation_call fs c g = (Raise e, g')
        | None => True
        end
  end.
Proof.
  cbn zeta. rewrite generation_call_unfold, init_unfold. cbn zeta.
  destruct (fs (places_path_of c)) as [[| | | pobj] |] eqn:Ep;
    try (unfold _load_place_data, _load_json; rewrite Ep; cbn; eauto; fail).
  intros roots Hdoc.
  rewrite (proj2 (load_place_data_inr fs _ _ roots)) by (now rewrite Ep).
  unfold _load_name_data, _load_json.
  destruct (fs (names_path_of c)) as [[| | | nobj] |]; cbn; eauto.
Qed.

End CallFacts.

Lemma generation_call_load_order_witness :
  (exists pobj : json,
      undecodable_names_files (places_path_of sample_config) = Some (Json pobj) /\
      place_doc_of (place_type sample_config)
                   ["rav"; "en"; "wood"; "ford"]%string pobj) /\
  exists g' : Z,
    generation_call undecodable_names_files sample_config 3
    = (Raise UnicodeDecodeError, g').
Proof.
  assert (exists pobj : json,
      undecodable_names_files (places_path_of sample_config) = Some (Json pobj) /\
      place_doc_of (place_type sample_config)
                   ["rav"; "en"; "wood"; "ford"]%string pobj) as Hdoc.
  { exists sample_place_doc. split; [reflexivity |].
    eexists _, _. split; [reflexivity |].
    split; [apply lookup_singleton_eq |].
    split; [apply lookup_singleton_eq | discriminate]. }
  split; [exact Hdoc |].
  exact (generation_call_load_order undecodable_names_files sample_config (3 : Z)
           ["rav"; "en"; "wood"; "ford"]%string Hdoc).
Defined.

Lemma generation_call_returns_witness :
  sample_files (places_path_of sample_config) = Some (Json sample_place_doc) /\
  place_doc_of (place_type sample_config) ["rav"; "en"; "wood"; "ford"]%string
               sample_place_doc /\
  sample_files (names_path_of sample_config) = Some (Json sample_name_doc) /\
  name_doc_of (name_type sample_config) ["Tom"%string] ["Ann"%string]
              sample_name_doc /\
  exists (b : Bundle) (g' : Z),
    generation_call sample_files sample_config 3 = (Return b, g') /\
    Z.of_nat (length (res_male (residents b))) = num_male sample_config /\
    Z.of_nat (length (res_female (residents b))) = num_female sample_config.
Proof.
  assert (place_doc_of (place_type sample_config)
            ["rav"; "en"; "wood"; "ford"]%string sample_place_doc) as Hpd.
  { eexists _, _. split; [reflexivity |].
    split; [apply lookup_singleton_eq |].
    split; [apply lookup_singleton_eq | discriminate]. }
  assert (name_doc_of (name_type sample_config) ["Tom"%string] ["Ann"%string]
            sample_name_doc) as Hnd.
  { eexists _, _. split; [reflexivity |].
    split; [apply lookup_singleton_eq |].
    split; [apply lookup_insert_eq |].
    split; [rewrite lookup_insert_ne by discriminate; apply lookup_singleton_eq |].
    split; discriminate. }
  split; [reflexivity |]. split; [exact Hpd |].
  split; [reflexivity |]. split; [exact Hnd |].
  apply (generation_call_returns sample_files sample_config (3 : Z)
           sample_place_doc sample_name_doc _ _ _ eq_refl Hpd eq_refl Hnd);
    cbn; lia.
Defined.

Lemma seeded_call_is_unseeded_call_witness :
  cfg_seed sample_config = Some 1 /\
  generation_call sample_files sample_config (5 : Z)
  = generation_call sample_files (unseeded sample_config) (seed 1).
Proof.
  split; [reflexivity |].
  exact (seeded_call_is_unseeded_call sample_files sample_config 1 (5 : Z) eq_refl).
Defined.

(** ** The two front ends *)

Section FrontEnds.

Context {G : Type} `{RandomSource G} `{CaseTable}.

(** [generate] of the GUI copy is [generate_bundle] of the command-line
    version on the same settings and lists. *)
Lemma gui_generate_eq (self : GuiEngine.NPCPlaceGenerator) (g : G) :
  GuiEngine.generate self g = generate_bundle (cli_view self) g.
Proof.
  unfold GuiEngine.generate, generate_bundle, generate_residents.
  change (GuiEngine.generate_place_name self) with (generate_place_name (cli_view self)).
  unfold bind. destruct (generate_place_name (cli_view self) g) as [[name | e |] g1];
    try reflexivity.
  rewrite gui_pick_unique_eq. cbn [cli_view cfg name_data male female num_male num_female].
  destruct (_pick_unique _ _ g1) as [[males | e |] g2]; try reflexivity.
  rewrite gui_pick_unique_eq.
  destruct (_pick_unique _ _ g2) as [[females | e |] g3]; reflexivity.
Qed.

(** X15. The two front ends give the same bundle: from the same
    configuration, files and state of the random source, the command-line
    call returns the bundle [b] exactly when the GUI copy builds its
    generator and [generate] returns [b], and the random source ends in the
    same state. *)
Theorem gui_call_same_bundle (fs : files) (c : GeneratorConfig) (g g' : G)
    (b : Bundle) :
  generation_call fs c g = (Return b, g') <->
  exists (self : GuiEngine.NPCPlaceGenerator) (g1 : G),
    GuiEngine.init fs c g = (inr self, g1) /\
    GuiEngine.generate self g1 = (Return b, g').
Proof.
  rewrite generation_call_unfold, init_unfold. cbn zeta.
  unfold GuiEngine.init. split.
  - destruct (_load_place_data fs (places_path_of c) (place_type c))
      as [e | [roots]] eqn:Ep; [discriminate |].
    destruct (_load_name_data fs (names_path_of c) (name_type c))
      as [e | [males females]] eqn:En; [discriminate |].
    intros Hb.
    apply load_place_data_inr, gui_load_place_data_inr in Ep.
    apply load_name_data_inr, gui_load_name_data_inr in En.
    rewrite Ep, En. eexists _, _. split; [reflexivity |].
    rewrite gui_generate_eq. exact Hb.
  - intros (self & g1 & Einit & Hb).
    destruct (GuiEngine._load_place_data fs (data_dir c) (place_type c))
      as [e | [roots]] eqn:Ep; [discriminate |].
    destruct (GuiEngine._load_name_data fs (data_dir c) (name_type c))
      as [e | [males females]] eqn:En; [discriminate |].
    injection Einit as <- <-.
    apply gui_load_place_data_inr, load_place_data_inr in Ep.
    apply gui_load_name_data_inr, load_name_data_inr in En.
    rewrite Ep, En. rewrite gui_generate_eq in Hb. exact Hb.
Qed.

(** X16. A root range at or below zero. With [min_roots <= max_roots <= 0]
    the count is drawn all the same; a count of 0 gives the empty village
    name, without an error, and a negative count makes [random.sample]
    raise [ValueError]. *)
Theorem generate_place_name_no_roots (self : NPCPlaceGenerator) (g : G) :
  min_roots (cfg self) <= max_roots (cfg self) <= 0 ->
  exists (k : Z) (g1 : G),
    random_randint (min_roots (cfg self)) (max_roots (cfg self)) g = (Return k, g1) /\
    generate_place_name self g
    = if k =? 0 then (Return EmptyString, g1)
      else (Raise (ValueError SampleTooLarge), g1).
Proof.
  intros [Hle Hmax].
  destruct (random_randint_spec _ _ g Hle) as (k & g1 & Ek & Hk).
  exists k, g1. split; [assumption |].
  unfold generate_place_name. rewrite (bind_return _ _ _ _ _ Ek).
  destruct (Z.eqb_spec k 0) as [-> | Hne].
  - unfold random_sample. cbn [Z.leb andb].
    destruct (Z.leb_spec 0 (Z.of_nat (length (place_roots (place_data self)))));
      [reflexivity | lia].
  - apply bind_raise. apply random_sample_out_of_range. left. lia.
Qed.

End FrontEnds.

Lemma generate_place_name_no_roots_witness :
  (min_roots (cfg (generator_with ["rav"; "en"]%string ["Tom"%string]
                                  ["Ann"%string] (-1) 0 1 1))
   <= max_roots (cfg (generator_with ["rav"; "en"]%string ["Tom"%string]
                                     ["Ann"%string] (-1) 0 1 1)) <= 0) /\
  exists (k : Z) (g1 : Z),
    random_randint (-1) 0 7 = (Return k, g1) /\
    generate_place_name (generator_with ["rav"; "en"]%string ["Tom"%string]
                                        ["Ann"%string] (-1) 0 1 1) 7
    = if k =? 0 then (Return EmptyString, g1)
      else (Raise (ValueError SampleTooLarge), g1).
Proof.
  assert (min_roots (cfg (generator_with ["rav"; "en"]%string ["Tom"%string]
                                         ["Ann"%string] (-1) 0 1 1))
          <= max_roots (cfg (generator_with ["rav"; "en"]%string ["Tom"%string]
                                            ["Ann"%string] (-1) 0 1 1)) <= 0)
    as Hr by (cbn; lia).
  split; [exact Hr |].
  exact (generate_place_name_no_roots
           (generator_with ["rav"; "en"]%string ["Tom"%string] ["Ann"%string]
                           (-1) 0 1 1) (7 : Z) Hr).
Defined.

(** ** Residents *)

Lemma string_append_inj_r (a b s : string) : a +:+ s = b +:+ s -> a = b.
Proof.
  revert b. induction a as [| x a IH]; intros [| y b] E.
  - reflexivity.
  - exfalso. change (EmptyString +:+ s) with s in E.
    apply (f_equal String.length) in E.
    rewrite string_append_cons in E. cbn [String.length] in E.
    rewrite string_length_append in E. lia.
  - exfalso. change (EmptyString +:+ s) with s in E.
    apply (f_equal String.length) in E.
    rewrite string_append_cons in E. cbn [String.length] in E.
    rewrite string_length_append in E. lia.
  - rewrite !string_append_cons in E. injection E as -> E. f_equal. now apply IH.
Qed.

(** The name can be read back from a resident entry. *)
Lemma of_village_inj (village m m' : string) :
  of_village village m = of_village village m' -> m = m'.
Proof. unfold of_village. apply string_append_inj_r. Qed.

Section ResidentFacts.

Context {G : Type} `{RandomSource G}.

(** X17. No resident twice. When a name list holds no name twice and no
    more residents are asked for than it holds names, the entries made from
    it are pairwise distinct (shown for the male list; the name lists are not
    empty and the other count is not negative). *)
Theorem residents_distinct (self : NPCPlaceGenerator) (village : string) (g : G) :
  NoDup (male (name_data self)) ->
  0 <= num_male (cfg self) <= Z.of_nat (length (male (name_data self))) ->
  0 <= num_female (cfg self) ->
  female (name_data self) <> [] ->
  exists (people : Residents) (g' : G),
    generate_residents self village g = (Return people, g') /\
    NoDup (res_male people) /\
    Z.of_nat (length (res_male people)) = num_male (cfg self).
Proof.
  intros Hnd Hnm Hnf Hf.
  destruct (pick_unique_sample (male (name_data self)) _ g Hnm) as
    (males & g1 & Em & Hlm & Hd).
  destruct (pick_unique_returns (female (name_data self)) _ g1 Hnf Hf) as
    (females & g2 & Ef & Hlf & _).
  exists {| res_male := of_village village <$> males;
            res_female := of_village village <$> females |}, g2.
  split; [| split].
  - unfold generate_residents. unfold bind at 1. rewrite Em.
    unfold bind at 1. rewrite Ef. reflexivity.
  - cbn [res_male]. apply NoDup_fmap_2.
    + intros m m'. apply of_village_inj.
    + now apply (drawn_from_NoDup (male (name_data self))).
  - cbn [res_male]. now rewrite length_fmap.
Qed.

End ResidentFacts.

Lemma residents_distinct_witness :
  NoDup (male (name_data (generator_with ["rav"%string] ["Tom"; "Sam"]%string
                                         ["Ann"%string] 1 1 2 1))) /\
  exists (people : Residents) (g' : Z),
    generate_residents (generator_with ["rav"%string] ["Tom"; "Sam"]%string
                                       ["Ann"%string] 1 1 2 1) "Rav" 7
      = (Return people, g') /\
    NoDup (res_male people) /\
    Z.of_nat (length (res_male people)) = 2.
Proof.
  assert (NoDup ["Tom"; "Sam"]%string) as Hnd.
  { apply NoDup_cons. split.
    - intros Hin. apply elem_of_cons in Hin as [Hin | Hin]; [discriminate |].
      now apply elem_of_nil in Hin.
    - apply NoDup_singleton. }
  split; [exact Hnd |].
  apply (residents_distinct
           (generator_with ["rav"%string] ["Tom"; "Sam"]%string ["Ann"%string]
                           1 1 2 1) "Rav" (7 : Z) Hnd);
    cbn; try lia; discriminate.
Defined.

(** ** Rendering the bundle as text *)







Example main_text_sample :
  main_text {| village := "Woodrav";
               residents := {| res_male := ["Tom of Woodrav"%string];
                               res_female := ["Ann of Woodrav"%string] |} |}
            EmptyString
  = ("Village: Woodrav" +:+ newline +:+ "Residents:" +:+ newline
       +:+ "  - Tom of Woodrav" +:+ newline +:+ "  - Ann of Woodrav" +:+ newline).
Proof. reflexivity. Qed.

(** ** The picker on list objects: what it returns *)

Lemma bind_inv_return {S A B : Type} (m : M S A) (f : A -> M S B) (s s' : S) (b : B) :
  bind m f s = (Return b, s') ->
  exists (a : A) (s1 : S), m s = (Return a, s1) /\ f a s1 = (Return b, s').
Proof.
  unfold bind. destruct (m s) as [[a | e |] s1]; try discriminate.
  intros E. now exists a, s1.
Qed.

Section ObjectResult.

Context {G : Type} `{RandomSource G}.

Lemma items_inv (l : loc) (s s1 : store * G) (v : list string) :
  items l s = (Return v, s1) -> s1 = s.
Proof.
  destruct s as [st g]. unfold items.
  destruct (st !! l); [| discriminate]. now intros [= _ <-].
Qed.

(** The loops give back the object [result] names. *)
Lemma pick_loop_obj_result (fuel : nat) :
  forall (src : loc) (n : Z) (pool result l : loc) (s s' : store * G),
    pick_loop_obj fuel src n pool result s = (Return l, s') -> l = result.
Proof.
  induction fuel as [| fuel IH]; intros src n pool result l s s' E;
    cbn [pick_loop_obj] in E;
    apply bind_inv_return in E as (r & s1 & _ & E);
    destruct (Z.of_nat (length r) <? n); try discriminate;
    try (now injection E as <- _).
  apply bind_inv_return in E as (pool' & s2 & _ & E). now apply IH in E.
Qed.

Lemma gui_pick_loop_obj_result (fuel : nat) :
  forall (src : loc) (n : Z) (pool result l : loc) (s s' : store * G),
    gui_pick_loop_obj fuel src n pool result s = (Return l, s') -> l = result.
Proof.
  induction fuel as [| fuel IH]; intros src n pool result l s s' E;
    cbn [gui_pick_loop_obj] in E;
    apply bind_inv_return in E as (r & s1 & _ & E);
    apply bind_inv_return in E as (sv & s2 & _ & E);
    destruct ((Z.of_nat (length r) <? n) && negb (bool_decide (sv = [])));
    try discriminate; try (now injection E as <- _).
  apply bind_inv_return in E as (pool' & s3 & _ & E). now apply IH in E.
Qed.

Lemma sample_obj_result (src : loc) (k : Z) (st st' : store) (g g' : G) (l : loc) :
  sample_obj src k (st, g) = (Return l, (st', g')) -> l = length st.
Proof.
  unfold sample_obj, bind, items, drawing, new_list.
  destruct (st !! src); [| discriminate].
  destruct (random_sample _ k g) as [[chosen | e |] g1]; try discriminate.
  now intros [= <- _ _].
Qed.

(** X19. The list returned is a new object. When a copy of [_pick_unique]
    returns, the list it returns is the first object made during the call:
    it is none of the lists that were there before, so it is never the pool
    itself, and changing it later cannot change the pool. *)
Theorem pick_unique_returns_new_list (st st' : store) (src l : loc) (n : Z)
    (g g' : G) :
  pick_unique_obj src n (st, g) = (Return l, (st', g'))
  \/ gui_pick_unique_obj src n (st, g) = (Return l, (st', g')) ->
  l = length st /\ st !! l = None /\ l <> src.
Proof.
  intros E. assert (l = length st /\ is_Some (st !! src)) as [-> [srcv Hsrc]].
  { destruct E as [E | E].
    - unfold pick_unique_obj in E.
      apply bind_inv_return in E as (s & s1 & Es & E).
      pose proof (items_inv _ _ _ _ Es) as ->.
      assert (is_Some (st !! src)) as Hs.
      { unfold items in Es. destruct (st !! src); [eauto | discriminate]. }
      split; [| exact Hs].
      destruct (n <=? Z.of_nat (length s)); [now apply sample_obj_result in E |].
      apply bind_inv_return in E as (result & s2 & Er & E).
      injection Er as <- <-.
      apply bind_inv_return in E as (s' & s3 & Es' & E).
      destruct s' as [| x s'].
      + now injection E as <- _.
      + apply bind_inv_return in E as (pool & s4 & _ & E).
        now apply pick_loop_obj_result in E.
    - unfold gui_pick_unique_obj in E.
      apply bind_inv_return in E as (s & s1 & Es & E).
      pose proof (items_inv _ _ _ _ Es) as ->.
      assert (is_Some (st !! src)) as Hs.
      { unfold items in Es. destruct (st !! src); [eauto | discriminate]. }
      split; [| exact Hs].
      destruct (n <=? Z.of_nat (length s)); [now apply sample_obj_result in E |].
      apply bind_inv_return in E as (result & s2 & Er & E).
      injection Er as <- <-.
      apply bind_inv_return in E as (s' & s3 & Es' & E).
      apply bind_inv_return in E as (pool & s4 & _ & E).
      now apply gui_pick_loop_obj_result in E. }
  split; [reflexivity |]. split; [now apply lookup_ge_None_2 |].
  apply lookup_lt_Some in Hsrc. lia.
Qed.

End ObjectResult.

Lemma pick_unique_returns_new_list_witness :
  (pick_unique_obj 0 5 ([["Ann"; "Bea"]%string], (7 : Z))
   = (Return 1%nat,
      ([["Ann"; "Bea"]; ["Ann"; "Bea"; "Ann"; "Bea"; "Bea"]; []; []; ["Ann"]]%string,
       2131988640))
   \/ gui_pick_unique_obj 0 5 ([["Ann"; "Bea"]%string], (7 : Z))
   = (Return 1%nat,
      ([["Ann"; "Bea"]; ["Ann"; "Bea"; "Ann"; "Bea"; "Bea"]; []; []; ["Ann"]]%string,
       2131988640))) /\
  1%nat = length [["Ann"; "Bea"]%string] /\
  [["Ann"; "Bea"]%string] !! 1%nat = None /\
  1%nat <> 0%nat.
Proof.
  assert (pick_unique_obj 0 5 ([["Ann"; "Bea"]%string], (7 : Z))
          = (Return 1%nat,
             ([["Ann"; "Bea"]; ["Ann"; "Bea"; "Ann"; "Bea"; "Bea"]; []; [];
               ["Ann"]]%string, 2131988640))) as E
    by (vm_compute; reflexivity).
  split; [now left |].
  exact (pick_unique_returns_new_list _ _ _ _ _ _ _ (or_introl E)).
Defined.
